(** * SupaAI assistant service: a shallow embedding of the conversation
      orchestration engine

    The development follows the TypeScript sources

      - [utils/error/error.utils.ts]            (module [ErrorUtils])
      - [services/assistant/db.utils.ts]        (module [DbUtils])
      - [integrations/ai/ai.integration.ts]     (module [AiIntegration])
      - [services/assistant/tool.utils.ts]      (module [ToolUtils])
      - [services/assistant/ai.utils.ts]        (module [AiUtils])
      - [services/assistant/assistant.service.ts] (module [AssistantService])
      - [routes/weather/weather.route.ts]       (module [WeatherRoute])

    Asynchronous code is written in a state-and-exception monad over a
    [World] that holds the two tables of the store and the trace of every
    call that leaves the process (store, model provider, embedding provider,
    text splitter, tool functions, token callback, console).  The external
    services themselves are the fields of an [Env] record. *)

From Stdlib Require Import Bool Arith ZArith Lia List String Ascii.
From Stdlib Require Import QArith Sorted Permutation DecimalString.
Import ListNotations.

Set Warnings "-register-all".

Local Close Scope Q_scope.
Local Open Scope string_scope.
Local Open Scope list_scope.
Local Open Scope nat_scope.

(* ================================================================== *)
(** * JavaScript strings and values                                    *)
(* ================================================================== *)

(** A text is a JavaScript string whose code units are all below 256; a
    character of the text is one code unit, so that [nat_of_ascii] is the
    code unit.  The character classes below are the ECMAScript ones on
    these code units.  A string with a code unit from 256 on is not a text
    of this development. *)
Module Js.

(** [\s] of regular expressions and the white space of
    [String.prototype.trim]: TAB, LF, VT, FF, CR, SPACE and the no-break
    space U+00A0.  The other white space of ECMAScript (U+FEFF, U+2028,
    U+2029 and the rest of the category Zs) lies above 255. *)
Definition is_ws (c : ascii) : bool :=
  let n := nat_of_ascii c in
  ((9 <=? n) && (n <=? 13)) || (n =? 32) || (n =? 160).

(** Line terminators: the characters [.] does not match and before which
    [$] matches under the [m] flag.  Below 256 these are LF and CR. *)
Definition is_lt (c : ascii) : bool :=
  let n := nat_of_ascii c in
  (n =? 10) || (n =? 13).

Fixpoint trimStart (s : string) : string :=
  match s with
  | String c r => if is_ws c then trimStart r else s
  | EmptyString => EmptyString
  end.

Fixpoint trimEnd (s : string) : string :=
  match s with
  | String c r =>
      match trimEnd r with
      | EmptyString => if is_ws c then EmptyString else String c EmptyString
      | r' => String c r'
      end
  | EmptyString => EmptyString
  end.

(** [String.prototype.trim] *)
Definition trim (s : string) : string := trimEnd (trimStart s).

(** Case folding of the [i] flag, as far as the regular expressions of the
    program need it: their letters are ASCII letters, and a code unit from
    128 on is never folded to a code unit below 128, so it is enough to fold
    the ASCII letters. *)
Definition upper (c : ascii) : ascii :=
  let n := nat_of_ascii c in
  if (97 <=? n) && (n <=? 122) then ascii_of_nat (n - 32) else c.

(** [p] is a prefix of [s]; the rest is returned.  [fold] is the
    canonicalisation applied to both sides ([upper] under the [i] flag). *)
Fixpoint strip_prefix (fold : ascii -> ascii) (p s : string) : option string :=
  match p with
  | EmptyString => Some s
  | String a p' =>
      match s with
      | String b s' =>
          if Ascii.eqb (fold a) (fold b) then strip_prefix fold p' s' else None
      | EmptyString => None
      end
  end.

Definition exact (c : ascii) : ascii := c.

Definition starts_with (fold : ascii -> ascii) (p s : string) : bool :=
  match strip_prefix fold p s with Some _ => true | None => false end.

(** [p] occurs somewhere in [s]. *)
Fixpoint occurs (fold : ascii -> ascii) (p s : string) : bool :=
  starts_with fold p s ||
  match s with
  | String _ s' => occurs fold p s'
  | EmptyString => false
  end.

(** [Array.prototype.join] on strings. *)
Fixpoint join (sep : string) (l : list string) : string :=
  match l with
  | [] => EmptyString
  | [x] => x
  | x :: r => x ++ sep ++ join sep r
  end.

Definition is_empty (s : string) : bool :=
  match s with EmptyString => true | _ => false end.

Definition LF : string := String "010"%char EmptyString.

(** The decimal rendering of an integer. *)
Definition string_of_Z (z : Z) : string :=
  NilZero.string_of_int (Z.to_int z).

End Js.

(* ================================================================== *)
(** * JSON values, [JSON.parse] and [JSON.stringify]                   *)
(* ================================================================== *)

(** The values that [JSON.parse] produces.  A number is kept as the exact
    decimal [mantissa * 10 ^ exponent] that its literal denotes (not rounded
    to a double). *)
Inductive json : Type :=
| JNull
| JBool (b : bool)
| JNum (mantissa exponent : Z)
| JStr (s : string)
| JArr (items : list json)
| JObj (members : list (string * json)).

Module JSON.

(** Property lookup [o.k] on a parsed object. *)
Fixpoint obj_get (k : string) (members : list (string * json)) : option json :=
  match members with
  | [] => None
  | (k', v) :: r => if String.eqb k k' then Some v else obj_get k r
  end.

(** Property assignment: an existing key keeps its position. *)
Fixpoint obj_set (k : string) (v : json) (members : list (string * json))
  : list (string * json) :=
  match members with
  | [] => [(k, v)]
  | (k', v') :: r =>
      if String.eqb k k' then (k, v) :: r else (k', v') :: obj_set k v r
  end.

(** JSON white space: SPACE, TAB, LF, CR. *)
Definition is_json_ws (c : ascii) : bool :=
  let n := nat_of_ascii c in
  (n =? 32) || (n =? 9) || (n =? 10) || (n =? 13).

Fixpoint skip_ws (s : string) : string :=
  match s with
  | String c r => if is_json_ws c then skip_ws r else s
  | EmptyString => EmptyString
  end.

Definition digit_of (c : ascii) : option Z :=
  let n := nat_of_ascii c in
  if (48 <=? n) && (n <=? 57) then Some (Z.of_nat (n - 48)) else None.

Definition hex_of (c : ascii) : option nat :=
  let n := nat_of_ascii c in
  if (48 <=? n) && (n <=? 57) then Some (n - 48)
  else if (97 <=? n) && (n <=? 102) then Some (n - 87)
  else if (65 <=? n) && (n <=? 70) then Some (n - 55)
  else None.

(** A run of digits: accumulated value, number of digits, rest. *)
Fixpoint digits (acc : Z) (count : nat) (s : string) : Z * nat * string :=
  match s with
  | String c r =>
      match digit_of c with
      | Some d => digits (10 * acc + d) (S count) r
      | None => (acc, count, s)
      end
  | EmptyString => (acc, count, s)
  end.

(** [int frac? exp?] after an optional minus sign. *)
Definition parse_number (s : string) : option (json * string) :=
  let (neg, s0) :=
    match s with
    | String "-" r => (true, r)
    | _ => (false, s)
    end in
  let int_part :=
    match s0 with
    | String "0" r => Some (0%Z, r)
    | _ => match digits 0 0 s0 with
           | (_, O, _) => None
           | (v, _, r) => Some (v, r)
           end
    end in
  match int_part with
  | None => None
  | Some (iv, s1) =>
      let frac :=
        match s1 with
        | String "." r =>
            match digits iv 0 r with
            | (_, O, _) => None
            | (v, n, r') => Some (v, Z.of_nat n, r')
            end
        | _ => Some (iv, 0%Z, s1)
        end in
      match frac with
      | None => None
      | Some (m, fd, s2) =>
          let expo :=
            match s2 with
            | String c r =>
                if (Ascii.eqb c "e" || Ascii.eqb c "E")%bool then
                  let (sg, r0) :=
                    match r with
                    | String "+" r' => (1%Z, r')
                    | String "-" r' => ((-1)%Z, r')
                    | _ => (1%Z, r)
                    end in
                  match digits 0 0 r0 with
                  | (_, O, _) => None
                  | (v, _, r') => Some ((sg * v)%Z, r')
                  end
                else Some (0%Z, s2)
            | EmptyString => Some (0%Z, s2)
            end in
          match expo with
          | None => None
          | Some (e, s3) =>
              Some (JNum (if neg then (- m)%Z else m) (e - fd)%Z, s3)
          end
      end
  end.

(** The characters of a string literal after the opening quote.  An
    escape [\u00XX] denotes the code unit [XX].  An escape from [\u0100] on
    denotes a code unit that the texts of this development do not have:
    the literal is refused, although [JSON.parse] reads it. *)
Fixpoint parse_chars (s : string) : option (string * string) :=
  match s with
  | EmptyString => None
  | String "034"%char r => Some (EmptyString, r)
  | String "\" (String e r) =>
      let simple (c : ascii) :=
        match parse_chars r with
        | Some (t, r') => Some (String c t, r')
        | None => None
        end in
      match e with
      | "034"%char => simple "034"%char
      | "\"%char => simple "\"%char
      | "/"%char => simple "/"%char
      | "b"%char => simple (ascii_of_nat 8)
      | "f"%char => simple (ascii_of_nat 12)
      | "n"%char => simple (ascii_of_nat 10)
      | "r"%char => simple (ascii_of_nat 13)
      | "t"%char => simple (ascii_of_nat 9)
      | "u"%char =>
          match r with
          | String h1 (String h2 (String h3 (String h4 r4))) =>
              match hex_of h1, hex_of h2, hex_of h3, hex_of h4 with
              | Some 0, Some 0, Some a, Some b =>
                  match parse_chars r4 with
                  | Some (t, r') => Some (String (ascii_of_nat (16 * a + b)) t, r')
                  | None => None
                  end
              | _, _, _, _ => None
              end
          | _ => None
          end
      | _ => None
      end
  | String "\" EmptyString => None
  | String c r =>
      if nat_of_ascii c <? 32 then None
      else match parse_chars r with
           | Some (t, r') => Some (String c t, r')
           | None => None
           end
  end.

Section Composite.
(** The parser of one value, one nesting level down. *)
Variable parse_inner : string -> option (json * string).

(** The remainder of an array once an element has been read. *)
Fixpoint parse_array_tail (n : nat) (s : string) : option (list json * string) :=
  match n with
  | O => None
  | S n' =>
      match skip_ws s with
      | String "]" r => Some ([], r)
      | String "," r =>
          match parse_inner r with
          | Some (v, r1) =>
              match parse_array_tail n' r1 with
              | Some (vs, r2) => Some (v :: vs, r2)
              | None => None
              end
          | None => None
          end
      | _ => None
      end
  end.

Definition parse_member (s : string) : option (string * json * string) :=
  match skip_ws s with
  | String "034"%char r =>
      match parse_chars r with
      | Some (k, r1) =>
          match skip_ws r1 with
          | String ":" r2 =>
              match parse_inner r2 with
              | Some (v, r3) => Some (k, v, r3)
              | None => None
              end
          | _ => None
          end
      | None => None
      end
  | _ => None
  end.

(** The remainder of an object once a member has been read. *)
Fixpoint parse_object_tail (n : nat) (acc : list (string * json)) (s : string)
  : option (list (string * json) * string) :=
  match n with
  | O => None
  | S n' =>
      match skip_ws s with
      | String "}" r => Some (acc, r)
      | String "," r =>
          match parse_member r with
          | Some (k, v, r1) => parse_object_tail n' (obj_set k v acc) r1
          | None => None
          end
      | _ => None
      end
  end.
End Composite.

(** One JSON value with leading white space; [fuel] bounds the nesting. *)
Fixpoint parse_value (fuel : nat) (s : string) : option (json * string) :=
  match fuel with
  | O => None
  | S fuel' =>
      let s0 := skip_ws s in
      match s0 with
      | String "[" r =>
          match skip_ws r with
          | String "]" r' => Some (JArr [], r')
          | _ =>
              match parse_value fuel' r with
              | Some (v, r1) =>
                  match parse_array_tail (parse_value fuel') (S (String.length r1)) r1 with
                  | Some (vs, r2) => Some (JArr (v :: vs), r2)
                  | None => None
                  end
              | None => None
              end
          end
      | String "{" r =>
          match skip_ws r with
          | String "}" r' => Some (JObj [], r')
          | _ =>
              match parse_member (parse_value fuel') r with
              | Some (k, v, r1) =>
                  match parse_object_tail (parse_value fuel') (S (String.length r1))
                          [(k, v)] r1 with
                  | Some (ms, r2) => Some (JObj ms, r2)
                  | None => None
                  end
              | None => None
              end
          end
      | String "034"%char r =>
          match parse_chars r with
          | Some (t, r') => Some (JStr t, r')
          | None => None
          end
      | _ =>
          match Js.strip_prefix Js.exact "null" s0 with
          | Some r => Some (JNull, r)
          | None =>
              match Js.strip_prefix Js.exact "true" s0 with
              | Some r => Some (JBool true, r)
              | None =>
                  match Js.strip_prefix Js.exact "false" s0 with
                  | Some r => Some (JBool false, r)
                  | None => parse_number s0
                  end
              end
          end
      end
  end.

(** [JSON.parse]: [None] stands for the [SyntaxError] it throws.  A text
    with an escape from [\u0100] on is outside the texts that this function
    describes: it is refused here and read by [JSON.parse]. *)
Definition parse (s : string) : option json :=
  match parse_value (S (String.length s)) s with
  | Some (v, r) => if Js.is_empty (skip_ws r) then Some v else None
  | None => None
  end.

(** [Number.prototype.toString] for the decimal [m * 10 ^ e]; it is the
    ECMAScript rendering for integers below [10 ^ 21] and for decimals of at
    most seventeen significant digits that are at least [10 ^ -6]. *)
Fixpoint strip_zeros (n : nat) (m : Z) (k : nat) : Z * nat :=
  match n, k with
  | S n', S k' => if (m mod 10 =? 0)%Z then strip_zeros n' (m / 10)%Z k' else (m, k)
  | _, _ => (m, k)
  end.

Fixpoint zeros (n : nat) : string :=
  match n with
  | O => EmptyString
  | S n' => String "0" (zeros n')
  end.

Definition number_to_string (m e : Z) : string :=
  if (m =? 0)%Z then "0"
  else if (0 <=? e)%Z then Js.string_of_Z m ++ zeros (Z.to_nat e)
  else
    let (m', k) := strip_zeros (Z.to_nat (- e)) m (Z.to_nat (- e)) in
    match k with
    | O => Js.string_of_Z m'
    | _ =>
        let ds := Js.string_of_Z (Z.abs m') in
        let sign := if (m' <? 0)%Z then "-" else EmptyString in
        let n := String.length ds in
        if n <=? k
        then sign ++ "0." ++ zeros (k - n) ++ ds
        else sign ++ substring 0 (n - k) ds ++ "." ++ substring (n - k) k ds
    end.

Definition hex_digit (n : nat) : ascii :=
  if n <? 10 then ascii_of_nat (48 + n) else ascii_of_nat (87 + n).

(** [QuoteJSONString] without its delimiters. *)
Fixpoint escape (s : string) : string :=
  match s with
  | EmptyString => EmptyString
  | String c r =>
      let n := nat_of_ascii c in
      (if n =? 34 then "\" ++ String c EmptyString
       else if n =? 92 then "\\"
       else if n =? 8 then "\b"
       else if n =? 12 then "\f"
       else if n =? 10 then "\n"
       else if n =? 13 then "\r"
       else if n =? 9 then "\t"
       else if n <? 32 then
         "\u00" ++ String (hex_digit (n / 16)) (String (hex_digit (n mod 16)) EmptyString)
       else String c EmptyString) ++ escape r
  end.

Definition quote (s : string) : string :=
  String "034"%char (escape s) ++ String "034"%char EmptyString.

(** [JSON.stringify] without indentation. *)
Fixpoint stringify (v : json) : string :=
  match v with
  | JNull => "null"
  | JBool true => "true"
  | JBool false => "false"
  | JNum m e => number_to_string m e
  | JStr s => quote s
  | JArr items => "[" ++ Js.join "," (map stringify items) ++ "]"
  | JObj members =>
      "{" ++ Js.join "," (map (fun kv => (quote (fst kv) ++ ":" ++ stringify (snd kv))%string) members)
          ++ "}"
  end.

End JSON.

Module JsValue.

(** [ToBoolean] *)
Definition truthy (v : json) : bool :=
  match v with
  | JNull => false
  | JBool b => b
  | JNum m _ => negb (m =? 0)%Z
  | JStr s => negb (Js.is_empty s)
  | JArr _ | JObj _ => true
  end.

(** [ToString], as applied by template literals, [String(v)] and by
    [JSON.parse] to its argument. *)
Fixpoint to_string (v : json) : string :=
  match v with
  | JNull => "null"
  | JBool true => "true"
  | JBool false => "false"
  | JNum m e => JSON.number_to_string m e
  | JStr s => s
  | JArr items =>
      Js.join "," (map (fun x => match x with JNull => EmptyString | _ => to_string x end) items)
  | JObj _ => "[object Object]"
  end.

(** [ToNumber]; [None] is [NaN].  Numeric strings are read with the
    grammar of JSON numbers. *)
Definition to_number (v : json) : option (Z * Z) :=
  let of_string (s : string) :=
    let t := Js.trim s in
    if Js.is_empty t then Some (0, 0)%Z
    else
      match JSON.parse_number t with
      | Some (JNum m e, EmptyString) => Some (m, e)
      | _ => None
      end in
  match v with
  | JNull => Some (0, 0)%Z
  | JBool true => Some (1, 0)%Z
  | JBool false => Some (0, 0)%Z
  | JNum m e => Some (m, e)
  | JStr s => of_string s
  | JArr _ => of_string (to_string v)
  | JObj _ => None
  end.

(** [v > 0] *)
Definition gt_zero (v : json) : bool :=
  match to_number v with
  | Some (m, _) => (0 <? m)%Z
  | None => false
  end.

(** [Array.isArray(v) ? v : [v]] *)
Definition as_array (v : json) : list json :=
  match v with
  | JArr items => items
  | _ => [v]
  end.

End JsValue.

(* ================================================================== *)
(** * The world outside the process                                    *)
(* ================================================================== *)

(** ** Store rows ([integrations/db/generated.types.ts] and the migration
       of [assistant_message_embeddings]) *)

Record PostgrestError : Type := mkPostgrestError {
  pg_code : string;
  pg_message : string
}.

Record ThreadRow : Type := mkThreadRow {
  tr_id : string;
  tr_user_id : option string;
  tr_title : option string;
  tr_user_objectives : option json;
  tr_created_at : option string;
  tr_updated_at : option string
}.

Record MessageRow : Type := mkMessageRow {
  mr_id : string;
  mr_thread_id : option string;
  mr_chunk_index : Z;
  mr_order_index : Z;
  mr_role : string;
  mr_content : string;
  mr_embedding : option string;
  mr_created_at : option string
}.

(** What the client hands back: [{ data, error }]. *)
Record DbResponse (A : Type) : Type := mkDbResponse {
  data : option A;
  error : option PostgrestError
}.
Arguments mkDbResponse {A} _ _.
Arguments data {A} _.
Arguments error {A} _.

(** ** Chat completion messages ([OpenAI.ChatCompletionMessageParam]) *)

Record ToolCall : Type := mkToolCall {
  tc_id : string;
  tc_name : string;          (* function.name *)
  tc_arguments : string      (* function.arguments *)
}.

Record ChatMessage : Type := mkChatMessage {
  msg_role : string;
  msg_content : string;
  msg_tool_calls : option (list ToolCall);
  msg_tool_call_id : option string
}.

Record ToolDefinition : Type := mkToolDefinition {
  td_name : string;
  td_description : string;
  td_parameters : json
}.

Record ChatRequest : Type := mkChatRequest {
  rq_model : string;
  rq_messages : list ChatMessage;
  rq_tools : option (list ToolDefinition);
  rq_stream : bool;
  rq_tool_choice : option string;
  rq_response_format : option string
}.

(** [completion.choices[0].message] *)
Record Completion : Type := mkCompletion {
  cm_content : option string;
  cm_tool_calls : option (list ToolCall)
}.

(** One element of [delta.tool_calls] in a streamed chunk. *)
Record ToolCallDelta : Type := mkToolCallDelta {
  tcd_id : option string;
  tcd_function : option (option string * option string)   (* name, arguments *)
}.

(** [chunk.choices[0]?.delta] *)
Record Delta : Type := mkDelta {
  dl_content : option string;
  dl_tool_calls : option (list ToolCallDelta)
}.

(** ** Requests to the store, one per query of [db.utils.ts] *)

Inductive DbOp : Type :=
| InsertThread (user_id : string) (title : option string) (user_objectives : json)
| SelectThread (id : string)
| UpdateThread (id : string) (title : option string) (user_objectives : option (list string))
| DeleteThread (id : string)
| InsertMessage (thread_id : string) (order_index chunk_index : Z)
                (role content embedding : string)
| SelectTopOrderIndex (thread_id : string)
| MatchEmbeddings (query_embedding : string) (similarity_threshold : Q)
                  (match_count : nat) (filter_thread_id : string).

Inductive ConsoleLevel : Type := LogDebug | LogWarn | LogError.

(** ** Everything that leaves the process, in the order it happens *)

Inductive Event : Type :=
| EvStore (op : DbOp)
| EvChat (rq : ChatRequest)
| EvEmbed (text : string)
| EvSplit (text : string)
| EvToolRun (name : string) (args : json)
| EvToken (token : string)
| EvConsole (level : ConsoleLevel) (text : string).

Record World : Type := mkWorld {
  threads : list ThreadRow;              (* assistant_threads *)
  messages : list MessageRow;            (* assistant_message_embeddings *)
  trace : list Event
}.

(* ================================================================== *)
(** * [utils/error/error.utils.ts]                                     *)
(* ================================================================== *)

Module ErrorUtils.

Inductive AppErrorCode : Type :=
| UNAUTHORIZED
| VALIDATION_ERROR
| INTERNAL_ERROR
| NOT_FOUND
| DATABASE_ERROR.

(** [AppErrorDetails] and [AppError]; the free-form [context] map is not
    read by any of the functions below and is left out. *)
Record AppErrorDetails : Type := mkDetails {
  details_message : string;
  details_code : AppErrorCode
}.

Record AppError : Type := mkAppError {
  message : string;
  code : AppErrorCode
}.

(** What a [throw] can carry. *)
Inductive Exn : Type :=
| AppErr (e : AppError)          (* instanceof AppError *)
| JsError (msg : string)         (* any other instanceof Error *)
| Thrown (v : json).             (* anything else *)

(** [error instanceof Error ? error.message : String(error)] *)
Definition error_message (e : Exn) : string :=
  match e with
  | AppErr a => message a
  | JsError m => m
  | Thrown v => JsValue.to_string v
  end.

Definition getStatusCodeForError (c : AppErrorCode) : nat :=
  match c with
  | UNAUTHORIZED => 401
  | VALIDATION_ERROR => 400
  | NOT_FOUND => 404
  | DATABASE_ERROR => 503
  | INTERNAL_ERROR => 500
  end.

End ErrorUtils.
Export ErrorUtils.

(* ================================================================== *)
(** * Asynchronous computations                                        *)
(* ================================================================== *)

(** A computation ends with a value, with a thrown exception, or is cut
    off because the loop bound of the model ran out. *)
Inductive Outcome (A : Type) : Type :=
| Ret (a : A)
| Throw (e : Exn)
| OutOfFuel.
Arguments Ret {A} _.
Arguments Throw {A} _.
Arguments OutOfFuel {A}.

Definition M (A : Type) : Type := World -> Outcome A * World.

Definition ret {A} (a : A) : M A := fun w => (Ret a, w).

Definition bind {A B} (m : M A) (k : A -> M B) : M B :=
  fun w =>
    match m w with
    | (Ret a, w') => k a w'
    | (Throw e, w') => (Throw e, w')
    | (OutOfFuel, w') => (OutOfFuel, w')
    end.

Definition throw {A} (e : Exn) : M A := fun w => (Throw e, w).

(** [try { m } catch (e) { h e }] *)
Definition try_catch {A} (m : M A) (h : Exn -> M A) : M A :=
  fun w =>
    match m w with
    | (Throw e, w') => h e w'
    | r => r
    end.

Declare Scope monad_scope.
Delimit Scope monad_scope with monad.
Notation "x <- m ;; k" := (bind m (fun x => k))
  (at level 61, m at next level, right associativity) : monad_scope.
Notation "m ;;; k" := (bind m (fun _ => k))
  (at level 61, right associativity) : monad_scope.
Local Open Scope monad_scope.

Definition emit (ev : Event) : M unit :=
  fun w => (Ret tt, mkWorld (threads w) (messages w) (trace w ++ [ev])).

Definition console (level : ConsoleLevel) (text : string) : M unit :=
  emit (EvConsole level text).

(** A promise that has been started: the task runs at once, up to its
    end, and the promise is settled when [start] returns.  Tasks started
    together therefore run one after the other, in the order in which the
    source creates them. *)
Inductive Promise (A : Type) : Type :=
| Fulfilled (a : A)
| Rejected (e : Exn).
Arguments Fulfilled {A} _.
Arguments Rejected {A} _.

Definition start {A} (m : M A) : M (Promise A) :=
  fun w =>
    match m w with
    | (Ret a, w') => (Ret (Fulfilled a), w')
    | (Throw e, w') => (Ret (Rejected e), w')
    | (OutOfFuel, w') => (OutOfFuel, w')
    end.

Definition await {A} (p : Promise A) : M A :=
  fun w =>
    match p with
    | Fulfilled a => (Ret a, w)
    | Rejected e => (Throw e, w)
    end.

(** [Promise.all] on started promises: the values, or the first
    rejection. *)
Fixpoint all_settled {A} (ps : list (Promise A)) : Promise (list A) :=
  match ps with
  | [] => Fulfilled []
  | Fulfilled a :: r =>
      match all_settled r with
      | Fulfilled l => Fulfilled (a :: l)
      | Rejected e => Rejected e
      end
  | Rejected e :: _ => Rejected e
  end.

Definition Promise_all {A} (ps : list (Promise A)) : M (list A) :=
  await (all_settled ps).

(** [xs.map(f)] for an [async] function [f]: every call is started. *)
Fixpoint start_each {A B} (f : A -> M B) (xs : list A) : M (list (Promise B)) :=
  match xs with
  | [] => ret []
  | x :: r =>
      p <- start (f x) ;;
      ps <- start_each f r ;;
      ret (p :: ps)
  end.

(** The same with the index as second argument of the callback. *)
Fixpoint start_each_indexed {A B} (f : A -> Z -> M B) (i : Z) (xs : list A)
  : M (list (Promise B)) :=
  match xs with
  | [] => ret []
  | x :: r =>
      p <- start (f x i) ;;
      ps <- start_each_indexed f (i + 1)%Z r ;;
      ret (p :: ps)
  end.

Module ErrorThrow.

(** [throwAppError(details, error = "")]: the message is
    [`${details.message}: ${error ?? errorMessage}`]; [rendered] is the text
    the template literal gives for [error] (empty for the default). *)
Definition throwAppError {A} (details : AppErrorDetails) (rendered : string) : M A :=
  throw (AppErr (mkAppError (details_message details ++ ": " ++ rendered)
                            (details_code details))).

(** [handleAppError(error, fallbackDetails)]: an [AppError] goes on
    unchanged, anything else is replaced by an [AppError] built from the
    fallback. *)
Definition handleAppError {A} (err : Exn) (fallbackDetails : AppErrorDetails) : M A :=
  match err with
  | AppErr e => throw (AppErr e)
  | JsError _ => throwAppError fallbackDetails EmptyString
  | Thrown _ => throwAppError fallbackDetails EmptyString
  end.

End ErrorThrow.
Export ErrorThrow.

(* ================================================================== *)
(** * External services                                                *)
(* ================================================================== *)

(** The services the process talks to.  Each one sees the trace of what
    happened before the call, so a stub may answer its first call
    differently from its second. *)
Record Env : Type := mkEnv {
  (** the error, if any, with which the store answers a request *)
  store_error : list Event -> DbOp -> option PostgrestError;
  (** the error with which [.single()] answers when no row matches
      (PostgREST: code PGRST116) *)
  single_no_rows : option PostgrestError;
  gen_random_uuid : list Event -> string;
  now : list Event -> string;
  (** pgvector's [<=>] on two serialised vectors *)
  cosine_distance : string -> string -> Q;
  (** [ai.chat.completions.create] without and with [stream: true]; a
      stream delivers chunks and may then fail *)
  chat_create : list Event -> ChatRequest -> Exn + Completion;
  chat_stream : list Event -> ChatRequest -> Exn + (list (option Delta) * option Exn);
  (** [OpenAIEmbeddings.embedQuery]: the vector, as exact decimals *)
  embedQuery : list Event -> string -> Exn + list (Z * Z);
  (** [RecursiveCharacterTextSplitter.splitText] *)
  splitText : list Event -> string -> Exn + list string
}.

(** A call to one of the services: it is recorded, then answered. *)
Definition call_service {A} (ev : Event) (answer : list Event -> Exn + A) : M A :=
  fun w =>
    let w1 := mkWorld (threads w) (messages w) (trace w ++ [ev]) in
    match answer (trace w) with
    | inl e => (Throw e, w1)
    | inr a => (Ret a, w1)
    end.

Definition current_trace : M (list Event) := fun w => (Ret (trace w), w).

Definition out_of_fuel {A} : M A := fun w => (OutOfFuel, w).

(** [Array.prototype.sort] with a comparator: a stable sort; [le a b]
    stands for [compare(a, b) <= 0]. *)
Fixpoint insert_by {A} (le : A -> A -> bool) (x : A) (l : list A) : list A :=
  match l with
  | [] => [x]
  | y :: r => if le x y then x :: l else y :: insert_by le x r
  end.

Definition sort_by {A} (le : A -> A -> bool) (l : list A) : list A :=
  fold_right (insert_by le) [] l.

(* ================================================================== *)
(** * The store: two tables and the queries of [db.utils.ts]           *)
(* ================================================================== *)

Module Store.

Definition unique_violation : PostgrestError :=
  mkPostgrestError "23505" "duplicate key value violates unique constraint".
Definition foreign_key_violation : PostgrestError :=
  mkPostgrestError "23503" "insert or update violates foreign key constraint".
Definition check_violation : PostgrestError :=
  mkPostgrestError "23514" "new row violates check constraint".

Definition same_id (a : option string) (b : string) : bool :=
  match a with
  | Some x => String.eqb x b
  | None => false
  end.

Definition find_thread (id : string) (rows : list ThreadRow) : option ThreadRow :=
  find (fun r => String.eqb (tr_id r) id) rows.

(** [ORDER BY order_index DESC LIMIT 1] over the rows of one thread. *)
Fixpoint top_order_index (thread_id : string) (rows : list MessageRow) : option Z :=
  match rows with
  | [] => None
  | r :: rest =>
      let t := top_order_index thread_id rest in
      if same_id (mr_thread_id r) thread_id then
        Some (match t with
              | Some m => Z.max (mr_order_index r) m
              | None => mr_order_index r
              end)
      else t
  end.

(** The constraint [unique_thread_message_chunk]. *)
Definition fragment_exists (thread_id : string) (order_index chunk_index : Z)
           (rows : list MessageRow) : bool :=
  existsb (fun r => same_id (mr_thread_id r) thread_id
                    && (mr_order_index r =? order_index)%Z
                    && (mr_chunk_index r =? chunk_index)%Z) rows.

(** [CHECK (role IN ('user', 'assistant', 'system', 'tool'))] *)
Definition role_allowed (role : string) : bool :=
  String.eqb role "user" || String.eqb role "assistant"
  || String.eqb role "system" || String.eqb role "tool".

Section Queries.
Variable env : Env.

(** A request to the store.  [exec] computes the answer and the new
    tables from the world as it is before the request. *)
Definition request {A} (op : DbOp)
           (exec : World -> DbResponse A * (list ThreadRow * list MessageRow))
  : M (DbResponse A) :=
  fun w =>
    let tr := trace w ++ [EvStore op] in
    match store_error env (trace w) op with
    | Some e => (Ret (mkDbResponse None (Some e)), mkWorld (threads w) (messages w) tr)
    | None =>
        let (r, tables) := exec w in
        (Ret r, mkWorld (fst tables) (snd tables) tr)
    end.

(** [from("assistant_threads").insert({...}).select().single()] *)
Definition insert_thread (user_id : string) (title : option string)
           (user_objectives : json) : M (DbResponse ThreadRow) :=
  request (InsertThread user_id title user_objectives)
    (fun w =>
       let id := gen_random_uuid env (trace w) in
       match find_thread id (threads w) with
       | Some _ => (mkDbResponse None (Some unique_violation), (threads w, messages w))
       | None =>
           let row := mkThreadRow id (Some user_id) title (Some user_objectives)
                        (Some (now env (trace w))) (Some (now env (trace w))) in
           (mkDbResponse (Some row) None, (threads w ++ [row], messages w))
       end).

(** [from("assistant_threads").select("*").eq("id", id).single()] *)
Definition select_thread (id : string) : M (DbResponse ThreadRow) :=
  request (SelectThread id)
    (fun w =>
       match find_thread id (threads w) with
       | Some row => (mkDbResponse (Some row) None, (threads w, messages w))
       | None => (mkDbResponse None (single_no_rows env), (threads w, messages w))
       end).

Definition apply_update (title : option string) (user_objectives : option (list string))
           (updated_at : string) (r : ThreadRow) : ThreadRow :=
  mkThreadRow (tr_id r) (tr_user_id r)
    (match title with Some t => Some t | None => tr_title r end)
    (match user_objectives with
     | Some l => Some (JArr (map JStr l))
     | None => tr_user_objectives r
     end)
    (tr_created_at r) (Some updated_at).

(** [from("assistant_threads").update(updateData).eq("id", id).select().single()] *)
Definition update_thread (id : string) (title : option string)
           (user_objectives : option (list string)) : M (DbResponse ThreadRow) :=
  request (UpdateThread id title user_objectives)
    (fun w =>
       match find_thread id (threads w) with
       | Some row =>
           let row' := apply_update title user_objectives (now env (trace w)) row in
           (mkDbResponse (Some row') None,
            (map (fun r => if String.eqb (tr_id r) id then row' else r) (threads w),
             messages w))
       | None => (mkDbResponse None (single_no_rows env), (threads w, messages w))
       end).

(** [from("assistant_threads").delete().eq("id", id)]: no row is asked
    back, and the fragments of the thread go with it
    ([thread_id ... REFERENCES assistant_threads(id) ON DELETE CASCADE]). *)
Definition delete_thread (id : string) : M (DbResponse unit) :=
  request (DeleteThread id)
    (fun w =>
       (mkDbResponse None None,
        (filter (fun r => negb (String.eqb (tr_id r) id)) (threads w),
         filter (fun r => negb (same_id (mr_thread_id r) id)) (messages w)))).

(** [from("assistant_message_embeddings").insert({...}).select().single()] *)
Definition insert_message (thread_id : string) (order_index chunk_index : Z)
           (role content embedding : string) : M (DbResponse MessageRow) :=
  request (InsertMessage thread_id order_index chunk_index role content embedding)
    (fun w =>
       if negb (role_allowed role) then
         (mkDbResponse None (Some check_violation), (threads w, messages w))
       else
         match find_thread thread_id (threads w) with
         | None => (mkDbResponse None (Some foreign_key_violation), (threads w, messages w))
         | Some _ =>
             if fragment_exists thread_id order_index chunk_index (messages w) then
               (mkDbResponse None (Some unique_violation), (threads w, messages w))
             else
               let row := mkMessageRow (gen_random_uuid env (trace w)) (Some thread_id)
                            chunk_index order_index role content (Some embedding)
                            (Some (now env (trace w))) in
               (mkDbResponse (Some row) None, (threads w, messages w ++ [row]))
         end).

(** [select("order_index").eq("thread_id", id)
      .order("order_index", { ascending: false }).limit(1)] *)
Definition select_top_order_index (thread_id : string) : M (DbResponse (list Z)) :=
  request (SelectTopOrderIndex thread_id)
    (fun w =>
       (mkDbResponse
          (Some (match top_order_index thread_id (messages w) with
                 | Some m => [m]
                 | None => []
                 end)) None,
        (threads w, messages w))).

(** The SQL function [match_embeddings]: rows of the thread whose
    similarity [1 - distance] is above the threshold, nearest first, at
    most [match_count] of them. *)
Definition similar_rows (query_embedding : string) (similarity_threshold : Q)
           (match_count : nat) (filter_thread_id : string)
           (rows : list MessageRow) : list MessageRow :=
  let distance (r : MessageRow) : Q :=
    match mr_embedding r with
    | Some e => cosine_distance env e query_embedding
    | None => 0%Q
    end in
  firstn match_count
    (sort_by (fun a b => Qle_bool (distance a) (distance b))
       (filter (fun r =>
                  match mr_embedding r with
                  | Some _ =>
                      negb (Qle_bool (1 - distance r) similarity_threshold)
                      && same_id (mr_thread_id r) filter_thread_id
                  | None => false
                  end) rows)).

(** [rpc("match_embeddings", {...})] *)
Definition rpc_match_embeddings (query_embedding : string) (similarity_threshold : Q)
           (match_count : nat) (filter_thread_id : string)
  : M (DbResponse (list MessageRow)) :=
  request (MatchEmbeddings query_embedding similarity_threshold match_count filter_thread_id)
    (fun w =>
       (mkDbResponse
          (Some (similar_rows query_embedding similarity_threshold match_count
                   filter_thread_id (messages w))) None,
        (threads w, messages w))).
End Queries.

End Store.

(* ================================================================== *)
(** * [integrations/ai/ai.integration.ts]                              *)
(* ================================================================== *)

Module AiIntegration.

Definition ChatRole_System : string := "system".
Definition ChatRole_User : string := "user".
Definition ChatRole_Assistant : string := "assistant".
Definition ChatRole_Tool : string := "tool".

Record EmbeddingChunk : Type := mkEmbeddingChunk {
  ec_content : string;
  ec_embedding : string
}.

Section WithEnv.
Variable env : Env.

Definition generateEmbeddings (text : string) : M string :=
  try_catch
    (result <- call_service (EvEmbed text) (fun tr => embedQuery env tr text) ;;
     ret (JSON.stringify (JArr (map (fun me => JNum (fst me) (snd me)) result))))
    (fun error =>
       handleAppError error (mkDetails "Create Embeddings Error" INTERNAL_ERROR)).

Definition splitTextIntoChunks (text : string) : M (list string) :=
  try_catch
    (call_service (EvSplit text) (fun tr => splitText env tr text))
    (fun error =>
       handleAppError error (mkDetails "Split Embeddings Error" INTERNAL_ERROR)).

Definition generateEmbeddingChunks (text : string) : M (list EmbeddingChunk) :=
  try_catch
    (snippets <- splitTextIntoChunks text ;;
     embeddingPromises <-
       start_each (fun snippet =>
                     embedding <- generateEmbeddings snippet ;;
                     ret (mkEmbeddingChunk snippet embedding)) snippets ;;
     Promise_all embeddingPromises)
    (fun error =>
       handleAppError error (mkDetails "Generate Embedding Chunks Error" INTERNAL_ERROR)).
End WithEnv.

End AiIntegration.
Export AiIntegration.

(* ================================================================== *)
(** * [services/assistant/db.utils.ts]                                 *)
(* ================================================================== *)

Module DbUtils.

Record Thread : Type := mkThread {
  th_id : string;
  th_userId : option string;
  th_title : option string;
  th_userObjectives : json;
  th_createdAt : option string;
  th_updatedAt : option string
}.

Record MessageEmbedding : Type := mkMessageEmbedding {
  me_id : string;
  me_threadId : option string;
  me_chunkIndex : Z;
  me_orderIndex : Z;
  me_role : string;
  me_content : string;
  me_embedding : option string;
  me_createdAt : option string
}.

(** [error?.code === "PGRST116"] *)
Definition is_PGRST116 (e : option PostgrestError) : bool :=
  match e with
  | Some e => String.eqb (pg_code e) "PGRST116"
  | None => false
  end.

(** The text of a store error object inside a template literal. *)
Definition object_Object : string := "[object Object]".

(** The message of the [SyntaxError] of [JSON.parse]. *)
Definition syntax_error : Exn := JsError "Unexpected token in JSON".

(** [JSON.parse(x)] on a value: the argument is converted to a string. *)
Definition JSON_parse (x : json) : M json :=
  match JSON.parse (JsValue.to_string x) with
  | Some v => ret v
  | None => throw syntax_error
  end.

(** [row.user_objectives ? JSON.parse(row.user_objectives as string) : []] *)
Definition read_user_objectives (v : option json) : M json :=
  match v with
  | Some x => if JsValue.truthy x then JSON_parse x else ret (JArr [])
  | None => ret (JArr [])
  end.

(** The object built by [createThread], [readThread] and [updateThread]
    from the row they got. *)
Definition to_thread (row : ThreadRow) : M Thread :=
  userObjectives <- read_user_objectives (tr_user_objectives row) ;;
  ret (mkThread (tr_id row) (tr_user_id row) (tr_title row) userObjectives
         (tr_created_at row) (tr_updated_at row)).

Definition to_message (row : MessageRow) : MessageEmbedding :=
  mkMessageEmbedding (mr_id row) (mr_thread_id row) (mr_chunk_index row)
    (mr_order_index row) (mr_role row) (mr_content row) (mr_embedding row)
    (mr_created_at row).

Section WithEnv.
Variable env : Env.

Definition createThread (userId title : string) : M Thread :=
  try_catch
    (r <- Store.insert_thread env userId
            (if Js.is_empty title then None else Some title) (JStr "[]") ;;
     (if is_PGRST116 (error r)
      then throwAppError (mkDetails "Get Thread Error" UNAUTHORIZED) object_Object
      else ret tt) ;;;
     match data r with
     | None => throwAppError (mkDetails "Create Thread Error" DATABASE_ERROR) EmptyString
     | Some thread => to_thread thread
     end)
    (fun error => handleAppError error (mkDetails "Create Thread Error" DATABASE_ERROR)).

Definition readThread (threadId : string) : M (option Thread) :=
  try_catch
    (r <- Store.select_thread env threadId ;;
     (if is_PGRST116 (error r)
      then throwAppError (mkDetails "Get Thread Error" UNAUTHORIZED) object_Object
      else ret tt) ;;;
     match data r with
     | None => ret None
     | Some thread => t <- to_thread thread ;; ret (Some t)
     end)
    (fun error => handleAppError error (mkDetails "Get Thread Error" DATABASE_ERROR)).

(** The result is [None] when the store handed back no row: every field
    of the object that the source returns is then [undefined]. *)
Definition updateThread (threadId : string) (title : option string)
           (userObjectives : option (list string)) : M (option Thread) :=
  (if match title with Some t => Js.is_empty t | None => true end
      && match userObjectives with Some _ => false | None => true end
   then throwAppError (mkDetails "Update Thread Error" DATABASE_ERROR) EmptyString
   else ret tt) ;;;
  try_catch
    (r <- Store.update_thread env threadId title userObjectives ;;
     (if is_PGRST116 (error r)
      then throwAppError (mkDetails "Update Thread Error" UNAUTHORIZED) object_Object
      else ret tt) ;;;
     match data r with
     | None => ret None
     | Some thread => t <- to_thread thread ;; ret (Some t)
     end)
    (fun error => handleAppError error (mkDetails "Update Thread Error" DATABASE_ERROR)).

Definition deleteThread (threadId : string) : M bool :=
  try_catch
    (r <- Store.delete_thread env threadId ;;
     (if is_PGRST116 (error r)
      then throwAppError (mkDetails "Delete Thread Error" UNAUTHORIZED) object_Object
      else ret tt) ;;;
     ret true)
    (fun error => handleAppError error (mkDetails "Delete Thread Error" DATABASE_ERROR)).

Definition createMessage (threadId : string) (orderIndex chunkIndex : Z)
           (role content embedding : string) : M MessageEmbedding :=
  try_catch
    (r <- Store.insert_message env threadId orderIndex chunkIndex role content embedding ;;
     (if is_PGRST116 (error r)
      then throwAppError (mkDetails "Create Message Embedding Error" UNAUTHORIZED)
             object_Object
      else ret tt) ;;;
     match data r with
     | None =>
         throwAppError (mkDetails "Create Message Embedding Error" DATABASE_ERROR)
           EmptyString
     | Some message => ret (to_message message)
     end)
    (fun error =>
       handleAppError error (mkDetails "Create Message Embedding Error" DATABASE_ERROR)).

Definition getNextOrderIndex (threadId : string) : M Z :=
  try_catch
    (r <- Store.select_top_order_index env threadId ;;
     (if is_PGRST116 (error r)
      then throwAppError (mkDetails "Get Next Order Index Error" UNAUTHORIZED)
             object_Object
      else ret tt) ;;;
     match error r, data r with
     | Some _, _ => ret 1%Z
     | None, None => ret 1%Z
     | None, Some [] => ret 1%Z
     | None, Some (order_index :: _) =>
         (* (data[0].order_index || 0) + 1 *)
         ret ((if (order_index =? 0)%Z then 0 else order_index) + 1)%Z
     end)
    (fun error =>
       handleAppError error (mkDetails "Get Next Order Index Error" DATABASE_ERROR)).

Definition findSimilarMessages (threadId query : string) (similarity : Q)
           (matchCount : nat) : M (list MessageEmbedding) :=
  try_catch
    (embedding <- generateEmbeddings env query ;;
     r <- Store.rpc_match_embeddings env embedding similarity matchCount threadId ;;
     match error r with
     | Some _ =>
         throwAppError (mkDetails ("Message Embedding Error: " ++ query) NOT_FOUND)
           EmptyString
     | None =>
         match data r with
         | None => ret []
         | Some [] => ret []
         | Some items =>
             tr <- current_trace ;;
             ret (map (fun item =>
                         mkMessageEmbedding (mr_id item)
                           (Some (match mr_thread_id item with
                                  | Some t => t
                                  | None => EmptyString
                                  end))
                           (mr_chunk_index item) (mr_order_index item) (mr_role item)
                           (mr_content item)
                           (match mr_embedding item with
                            | Some e => if Js.is_empty e then None else Some e
                            | None => None
                            end)
                           (Some (match mr_created_at item with
                                  | Some t => if Js.is_empty t then now env tr else t
                                  | None => now env tr
                                  end)))
                    items)
         end
     end)
    (fun error =>
       handleAppError error (mkDetails "Find Similar Messages Error" DATABASE_ERROR)).
End WithEnv.

End DbUtils.
Export DbUtils.

(* ================================================================== *)
(** * [services/assistant/tool.utils.ts]                               *)
(* ================================================================== *)

Module ToolUtils.

Inductive AssistantToolType : Type := GET | CREATE | UPDATE | DELETE.

(** An [AssistantTool].  [argsSchema] is the schema's [safeParse] ([None]
    when it does not succeed), [jsonSchema] what [zodToJsonSchema] makes of
    it, [callFunction] the function bound to the tool. *)
Record AssistantTool : Type := mkAssistantTool {
  name : string;
  description : string;
  type : AssistantToolType;
  argsSchema : json -> option json;
  jsonSchema : json;
  callFunction : list Event -> json -> Exn + json
}.

Definition execute (tool : AssistantTool) (args : json) : M json :=
  try_catch
    (call_service (EvToolRun (name tool) args) (fun tr => callFunction tool tr args))
    (fun error => handleAppError error (mkDetails "AssistantTool Call Error" INTERNAL_ERROR)).

Definition defineOpenAITool (tool : AssistantTool) : ToolDefinition :=
  mkToolDefinition (name tool) (description tool) (jsonSchema tool).

Definition validateArgs (tool : AssistantTool) (args : json) : M json :=
  match argsSchema tool args with
  | None => throwAppError (mkDetails "AssistantTool Validation Error" VALIDATION_ERROR)
              EmptyString
  | Some validated => ret validated
  end.

End ToolUtils.
Export ToolUtils.

(* ================================================================== *)
(** * [services/assistant/ai.utils.ts]                                 *)
(* ================================================================== *)

Module AiUtils.

Record ResponseFormat : Type := mkResponseFormat {
  rf_schema : json -> option json;     (* schema.parse; None when it throws *)
  rf_name : string
}.

Record AIExecutionConfig : Type := mkAIExecutionConfig {
  model : string;
  systemMessage : string;
  cfg_messages : list ChatMessage;
  tools : option (list AssistantTool);
  onToken : bool;                      (* a token callback is configured *)
  responseFormat : option ResponseFormat
}.

Record AIExecutionResult : Type := mkAIExecutionResult {
  ar_message : string;
  ar_toolCalls : option (list ToolCall);
  ar_userObjectives : list string;
  ar_structuredData : option json;
  ar_created : option (list json);
  ar_updated : option (list json);
  ar_deleted : option (list json)
}.

(** [AssistantResponse] of [assistant.service.ts] *)
Record AssistantResponse : Type := mkAssistantResponse {
  rs_message : string;
  rs_threadId : string;
  rs_created : option (list json);
  rs_updated : option (list json);
  rs_deleted : option (list json)
}.

Record EntityChanges : Type := mkEntityChanges {
  created : list json;
  updated : list json;
  deleted : list json
}.

(** ** Directive extraction *)

Definition USER_OBJECTIVE : string := "USER_OBJECTIVE:".

(** The characters up to the next line terminator, and the rest. *)
Fixpoint line_rest (s : string) : string * string :=
  match s with
  | String c r =>
      if Js.is_lt c then (EmptyString, s)
      else let (l, rest) := line_rest r in (String c l, rest)
  | EmptyString => (EmptyString, EmptyString)
  end.

(** [(.+)$] under the [m] flag: the rest of the line, which must not be
    empty; the capture and what follows the match. *)
Definition dot_plus_eol (s : string) : option (string * string) :=
  let (l, rest) := line_rest s in
  if Js.is_empty l then None else Some (l, rest).

(** [\s*(.+)$]: the greedy [\s*] takes white space (line terminators
    included) as long as the remainder still matches, and gives
    characters back otherwise. *)
Fixpoint ws_then_line (s : string) : option (string * string) :=
  match s with
  | String c r =>
      if Js.is_ws c then
        match ws_then_line r with
        | Some m => Some m
        | None => dot_plus_eol s
        end
      else dot_plus_eol s
  | EmptyString => None
  end.

(** [/USER_OBJECTIVE:\s*(.+)$/] tried at the start of [s]. *)
Definition objective_at (s : string) : option (string * string) :=
  match Js.strip_prefix Js.exact USER_OBJECTIVE s with
  | Some r => ws_then_line r
  | None => None
  end.

(** The [while ((match = regex.exec(content)) !== null)] loop of the
    global regular expression: the leftmost match from the current
    position, then on from its end ([skip] characters remain inside the
    last match). *)
Fixpoint scan_objectives (skip : nat) (s : string) : list string :=
  match s with
  | EmptyString => []
  | String _ r =>
      match skip with
      | S k => scan_objectives k r
      | O =>
          match objective_at s with
          | Some (capture, rest) =>
              Js.trim capture
                :: scan_objectives (String.length s - String.length rest - 1) r
          | None => scan_objectives 0 r
          end
      end
  end.

Definition extractUserObjectives (content : string) : list string :=
  scan_objectives 0 content.

(** [([\s\S]*?)(?=A:|B:|$)] under the [i] flag: the shortest text after
    which one of the [stops] begins or the input ends. *)
Fixpoint lazy_until (stops : list string) (s : string) : string :=
  match s with
  | EmptyString => EmptyString
  | String c r =>
      if existsb (fun p => Js.starts_with Js.upper p s) stops then EmptyString
      else String c (lazy_until stops r)
  end.

(** [content.match(/MARKER:([\s\S]*?)(?=A:|B:|$)/i)]: group 1 of the
    leftmost match, [None] when the marker does not occur. *)
Fixpoint match_block (marker : string) (stops : list string) (s : string)
  : option string :=
  match Js.strip_prefix Js.upper marker s with
  | Some r => Some (lazy_until stops r)
  | None =>
      match s with
      | String _ r => match_block marker stops r
      | EmptyString => None
      end
  end.

(** One of the three blocks of [extractEntityChanges]:
    [if (m && m[1]) { try { ... JSON.parse ... } catch { console.debug } }] *)
Definition parse_block (label : string) (m : option string) : M (list json) :=
  match m with
  | Some group =>
      if Js.is_empty group then ret []
      else
        let jsonStr := Js.trim group in
        if Js.is_empty jsonStr then ret []
        else
          match JSON.parse jsonStr with
          | Some parsed => ret (JsValue.as_array parsed)
          | None =>
              console LogDebug ("Failed to parse " ++ label ++ " entities:") ;;;
              ret []
          end
  | None => ret []
  end.

Definition extractEntityChanges (content : string) : M EntityChanges :=
  let createdMatch := match_block "CREATED:" ["UPDATED:"; "DELETED:"] content in
  let updatedMatch := match_block "UPDATED:" ["CREATED:"; "DELETED:"] content in
  let deletedMatch := match_block "DELETED:" ["CREATED:"; "UPDATED:"] content in
  c <- parse_block "CREATED" createdMatch ;;
  u <- parse_block "UPDATED" updatedMatch ;;
  d <- parse_block "DELETED" deletedMatch ;;
  ret (mkEntityChanges c u d).

Definition processAIResponse (content : string) (toolCalls : option (list ToolCall))
           (structuredData : option json) : M AIExecutionResult :=
  let userObjectives := extractUserObjectives content in
  changes <- extractEntityChanges content ;;
  ret (mkAIExecutionResult content
         (match toolCalls with
          | Some (_ :: _) => toolCalls
          | _ => None
          end)
         userObjectives structuredData
         (Some (created changes)) (Some (updated changes)) (Some (deleted changes))).

(** ** Model invocation *)

Definition ensureSystemMessage (messages : list ChatMessage) (systemMessage : string)
  : list ChatMessage :=
  if existsb (fun msg => String.eqb (msg_role msg) ChatRole_System) messages
  then messages
  else mkChatMessage ChatRole_System systemMessage None None :: messages.

Definition tool_definitions (tools : option (list AssistantTool)) : list ToolDefinition :=
  map defineOpenAITool (match tools with Some l => l | None => [] end).

Definition request_params (model : string) (messages : list ChatMessage)
           (defs : list ToolDefinition) (stream : bool) (format : option string)
  : ChatRequest :=
  mkChatRequest model messages
    (match defs with [] => None | _ => Some defs end)
    stream
    (match defs with [] => None | _ => Some "auto" end)
    format.

(** [processStreamingToolCalls]: the element at position [index] of
    [delta.tool_calls] opens the entry [toolCalls[index]] when there is
    none yet, and its argument text is appended to that entry. *)
Definition append_arguments (text : string) (tc : ToolCall) : ToolCall :=
  mkToolCall (tc_id tc) (tc_name tc) (tc_arguments tc ++ text).

Fixpoint update_at (index : nat) (f : ToolCall -> ToolCall) (l : list ToolCall)
  : list ToolCall :=
  match l, index with
  | [], _ => []
  | x :: r, O => f x :: r
  | x :: r, S i => x :: update_at i f r
  end.

Definition add_tool_call_delta (toolCalls : list ToolCall) (index : nat)
           (toolCall : ToolCallDelta) : list ToolCall :=
  let opened :=
    match nth_error toolCalls index with
    | Some _ => toolCalls
    | None =>
        toolCalls ++
        [mkToolCall
           (match tcd_id toolCall with Some i => i | None => EmptyString end)
           (match tcd_function toolCall with
            | Some (Some n, _) => n
            | _ => EmptyString
            end)
           EmptyString]
    end in
  match tcd_function toolCall with
  | Some (_, Some arguments) => update_at index (append_arguments arguments) opened
  | _ => opened
  end.

Fixpoint add_tool_call_deltas (toolCalls : list ToolCall) (index : nat)
         (deltas : list ToolCallDelta) : list ToolCall :=
  match deltas with
  | [] => toolCalls
  | d :: r => add_tool_call_deltas (add_tool_call_delta toolCalls index d) (S index) r
  end.

Definition processStreamingToolCalls (delta : option Delta) (toolCalls : list ToolCall)
  : list ToolCall :=
  match delta with
  | Some d =>
      match dl_tool_calls d with
      | Some tcs => add_tool_call_deltas toolCalls 0 tcs
      | None => toolCalls
      end
  | None => toolCalls
  end.

(** The [for await (const chunk of stream)] loop. *)
Fixpoint consume_stream (chunks : list (option Delta)) (fullContent : string)
         (toolCalls : list ToolCall) : M (string * list ToolCall) :=
  match chunks with
  | [] => ret (fullContent, toolCalls)
  | delta :: r =>
      let text :=
        match delta with
        | Some d => match dl_content d with Some t => t | None => EmptyString end
        | None => EmptyString
        end in
      (if Js.is_empty text then ret tt else emit (EvToken text)) ;;;
      consume_stream r (fullContent ++ text) (processStreamingToolCalls delta toolCalls)
  end.

Section WithEnv.
Variable env : Env.

Definition executeDefaultAICall (config : AIExecutionConfig) : M AIExecutionResult :=
  let messagesWithSystem := ensureSystemMessage (cfg_messages config) (systemMessage config) in
  let toolDefinitions := tool_definitions (tools config) in
  let requestParams :=
    request_params (model config) messagesWithSystem toolDefinitions false
      (match responseFormat config with Some f => Some (rf_name f) | None => None end) in
  completion <- call_service (EvChat requestParams)
                  (fun tr => chat_create env tr requestParams) ;;
  let toolCalls := cm_tool_calls completion in
  let content := match cm_content completion with Some c => c | None => EmptyString end in
  let userObjectives := extractUserObjectives content in
  structuredData <-
    match responseFormat config with
    | Some f =>
        if Js.is_empty content then ret None
        else
          match JSON.parse content with
          | Some v =>
              match rf_schema f v with
              | Some d => ret (Some d)
              | None =>
                  (* the assignment of the parsed value has happened *)
                  console LogError "Fehler beim Parsen der strukturierten Daten:" ;;;
                  ret (Some v)
              end
          | None =>
              console LogError "Fehler beim Parsen der strukturierten Daten:" ;;;
              ret None
          end
    | None => ret None
    end ;;
  ret (mkAIExecutionResult content toolCalls userObjectives structuredData None None None).

Definition executeStreamingAICall (config : AIExecutionConfig) : M AIExecutionResult :=
  let messagesWithSystem := ensureSystemMessage (cfg_messages config) (systemMessage config) in
  let toolDefinitions := tool_definitions (tools config) in
  match responseFormat config with
  | Some f =>
      console LogWarn
        "Strukturierte Antworten sind nicht mit Streaming kompatibel. Verwende executeDefaultAICall." ;;;
      executeDefaultAICall
        (mkAIExecutionConfig (model config) (systemMessage config) (cfg_messages config)
           (Some (match tools config with Some l => l | None => [] end)) false (Some f))
  | None =>
      let requestParams :=
        request_params (model config) messagesWithSystem toolDefinitions true None in
      stream <- call_service (EvChat requestParams)
                  (fun tr => chat_stream env tr requestParams) ;;
      r <- consume_stream (fst stream) EmptyString [] ;;
      match snd stream with
      | Some failure => throw failure
      | None => processAIResponse (fst r) (Some (snd r)) None
      end
  end.

Definition executeAICall (config : AIExecutionConfig) : M AIExecutionResult :=
  try_catch
    (if onToken config then executeStreamingAICall config
     else executeDefaultAICall config)
    (fun error => handleAppError error (mkDetails "AI Execution Error" INTERNAL_ERROR)).

Definition executeStructuredAICall (config : AIExecutionConfig)
           (schema : json -> option json) (schemaName : string)
  : M (string * json * list string) :=
  result <- executeAICall
              (mkAIExecutionConfig (model config) (systemMessage config)
                 (cfg_messages config) (tools config) (onToken config)
                 (Some (mkResponseFormat schema schemaName))) ;;
  match ar_structuredData result with
  | Some d =>
      if JsValue.truthy d
      then ret (ar_message result, d, ar_userObjectives result)
      else throw (JsError "Keine strukturierten Daten erhalten")
  | None => throw (JsError "Keine strukturierten Daten erhalten")
  end.

(** ** Tool calls *)

Definition getTool (toolName : string) (tools : list AssistantTool) : M AssistantTool :=
  match find (fun t => String.eqb (name t) toolName) tools with
  | Some tool => ret tool
  | None => throwAppError (mkDetails ("Tool not found: " ++ toolName) NOT_FOUND) EmptyString
  end.

Definition parseToolArguments (argumentsJson : string) : M json :=
  match JSON.parse argumentsJson with
  | Some v => ret v
  | None =>
      throwAppError (mkDetails "Invalid tool arguments format" VALIDATION_ERROR) EmptyString
  end.

Definition tool_message (toolCall : ToolCall) (content : string) : ChatMessage :=
  mkChatMessage ChatRole_Tool content None (Some (tc_id toolCall)).

Definition handleToolCall (toolCall : ToolCall) (tools : list AssistantTool)
           (messages : list ChatMessage) : M ChatMessage :=
  try_catch
    (tool <- getTool (tc_name toolCall) tools ;;
     args <- parseToolArguments (tc_arguments toolCall) ;;
     validatedArgs <- validateArgs tool args ;;
     result <- execute tool validatedArgs ;;
     ret (tool_message toolCall
            (match result with
             | JStr s => s
             | _ => JSON.stringify result
             end)))
    (fun error =>
       let errorMessage := error_message error in
       ret (tool_message toolCall
              (JSON.stringify (JObj [("error", JStr errorMessage)])))).

(** [content.k ? (Array.isArray(content.k) ? content.k : [content.k]) : []] *)
Definition entities_of (k : string) (content : json) : list json :=
  match content with
  | JObj members =>
      match JSON.obj_get k members with
      | Some v => if JsValue.truthy v then JsValue.as_array v else []
      | None => []
      end
  | _ => []
  end.

Definition extractEntitiesFromToolResponse (response : ChatMessage) : M EntityChanges :=
  match JSON.parse (msg_content response) with
  | Some content =>
      let has_error :=
        match content with
        | JObj members =>
            match JSON.obj_get "error" members with
            | Some v => JsValue.truthy v
            | None => false
            end
        | _ => false
        end in
      if JsValue.truthy content && negb has_error
      then ret (mkEntityChanges (entities_of "created" content)
                  (entities_of "updated" content) (entities_of "deleted" content))
      else ret (mkEntityChanges [] [] [])
  | None =>
      console LogDebug
        ("Konnte Entit" ++ String "228"%char "ten nicht aus Tool-Antwort extrahieren:") ;;;
      ret (mkEntityChanges [] [] [])
  end.

Definition processToolCallWithEntities (toolCall : ToolCall) (tools : list AssistantTool)
           (messages : list ChatMessage) : M (ChatMessage * EntityChanges) :=
  try_catch
    (response <- handleToolCall toolCall tools messages ;;
     changes <- extractEntitiesFromToolResponse response ;;
     ret (response, changes))
    (fun error =>
       handleAppError error (mkDetails "Error processing tool call" INTERNAL_ERROR)).

Definition assistant_message (aiResult : AIExecutionResult) : ChatMessage :=
  mkChatMessage ChatRole_Assistant (ar_message aiResult) (ar_toolCalls aiResult) None.

Definition with_messages (config : AIExecutionConfig) (messages : list ChatMessage)
  : AIExecutionConfig :=
  mkAIExecutionConfig (model config) (systemMessage config) messages (tools config)
    (onToken config) (responseFormat config).

(** The state of the [while] loop of [processToolCalls]. *)
Record LoopState : Type := mkLoopState {
  ls_aiResult : AIExecutionResult;
  ls_messages : list ChatMessage;
  ls_changes : EntityChanges
}.

Definition add_changes (acc : EntityChanges) (results : list (ChatMessage * EntityChanges))
  : EntityChanges :=
  fold_left (fun a r =>
               mkEntityChanges (created a ++ created (snd r))
                 (updated a ++ updated (snd r)) (deleted a ++ deleted (snd r)))
            results acc.

(** One round: the body of the loop. *)
Definition tool_round (config : AIExecutionConfig) (tools : list AssistantTool)
           (toolCalls : list ToolCall) (st : LoopState) : M LoopState :=
  try_catch
    (promises <- start_each (fun toolCall =>
                   processToolCallWithEntities toolCall tools (ls_messages st)) toolCalls ;;
     toolCallResults <- Promise_all promises ;;
     let toolResponses := map fst toolCallResults in
     let changes := add_changes (ls_changes st) toolCallResults in
     let messages := ls_messages st ++ toolResponses in
     aiResult <- executeAICall (with_messages config messages) ;;
     ret (mkLoopState aiResult (messages ++ [assistant_message aiResult]) changes))
    (fun error =>
       handleAppError error
         (mkDetails "Error processing tool calls batch" INTERNAL_ERROR)).

(** [while (aiResult.toolCalls && aiResult.toolCalls.length > 0)]; the
    source puts no bound on the number of rounds, [fuel] is the bound of
    the model. *)
Fixpoint tool_loop (fuel : nat) (config : AIExecutionConfig) (tools : list AssistantTool)
         (st : LoopState) : M LoopState :=
  match ar_toolCalls (ls_aiResult st) with
  | Some (tc :: tcs) =>
      match fuel with
      | O => out_of_fuel
      | S fuel' =>
          st' <- tool_round config tools (tc :: tcs) st ;;
          tool_loop fuel' config tools st'
      end
  | _ => ret st
  end.

Definition processToolCalls (fuel : nat) (config : AIExecutionConfig)
           (tools : list AssistantTool) (thread : Thread) : M AssistantResponse :=
  try_catch
    (aiResult <- executeAICall config ;;
     let messages := cfg_messages config ++ [assistant_message aiResult] in
     st <- tool_loop fuel config tools
             (mkLoopState aiResult messages (mkEntityChanges [] [] [])) ;;
     (match ar_userObjectives (ls_aiResult st) with
      | [] => ret tt
      | objectives =>
          try_catch
            (updateThread env (th_id thread) None (Some objectives) ;;; ret tt)
            (fun error => console LogError "Fehler beim Aktualisieren der Benutzerziele:")
      end) ;;;
     ret (mkAssistantResponse (ar_message (ls_aiResult st)) (th_id thread)
            (Some (created (ls_changes st))) (Some (updated (ls_changes st)))
            (Some (deleted (ls_changes st)))))
    (fun error =>
       handleAppError error (mkDetails "Error in tool calls processing" INTERNAL_ERROR)).
End WithEnv.

End AiUtils.
Export AiUtils.

(* ================================================================== *)
(** * [services/assistant/assistant.service.ts]                        *)
(* ================================================================== *)

Module AssistantService.

Record AssistantRequest : Type := mkAssistantRequest {
  rq_message : string;
  meta_userId : string;
  meta_threadId : option string;
  rq_context : option json;
  rq_sources : option (list json)
}.

(** [contextSchema] is the [safeParse] verdict of the configured schema on
    the [context] of a request. *)
Record AssistantConfig : Type := mkAssistantConfig {
  cf_title : string;
  cf_model : string;
  cf_systemMessage : string;
  cf_tools : option (list AssistantTool);
  cf_contextSchema : option json -> bool;
  cf_onToken : bool;
  cf_similarity : Q;
  cf_matchCount : nat
}.

Definition is_string (v : option json) : bool :=
  match v with Some (JStr _) => true | _ => false end.

(** [assistantSourceSchema] *)
Definition assistantSourceSchema (v : json) : bool :=
  match v with
  | JObj members =>
      is_string (JSON.obj_get "id" members)
      && is_string (JSON.obj_get "type" members)
      && is_string (JSON.obj_get "content" members)
      && match JSON.obj_get "metadata" members with
         | None => true
         | Some (JObj _) => true
         | Some _ => false
         end
  | _ => false
  end.

(** [assistantRequestSchema(context).safeParse(request).success] *)
Definition assistantRequestSchema (context : option json -> bool)
           (request : AssistantRequest) : bool :=
  (1 <=? String.length (rq_message request))
  && (1 <=? String.length (meta_userId request))
  && context (rq_context request)
  && match rq_sources request with
     | Some l => forallb assistantSourceSchema l
     | None => true
     end.

(** The system message of a turn: the configured one, followed by the
    objectives of the thread when [thread.userObjectives] is a non-empty
    array.  A non-empty value that has a positive [length] without being an
    array has no [map]: the call throws a [TypeError]. *)
Definition system_content (systemMessage : string) (userObjectives : json) : M string :=
  let bullets (items : list json) :=
    (systemMessage ++ Js.LF ++ Js.LF ++ "User Objectives:" ++ Js.LF
     ++ Js.join Js.LF (map (fun obj => "- " ++ JsValue.to_string obj) items))%string in
  let not_a_function : M string :=
    throw (JsError "thread.userObjectives.map is not a function") in
  match userObjectives with
  | JArr [] => ret systemMessage
  | JArr items => ret (bullets items)
  | JStr s => if Js.is_empty s then ret systemMessage else not_a_function
  | JObj members =>
      match JSON.obj_get "length" members with
      | Some v => if JsValue.gt_zero v then not_a_function else ret systemMessage
      | None => ret systemMessage
      end
  | _ => ret systemMessage
  end.

Definition history_message (msg : MessageEmbedding) : ChatMessage :=
  mkChatMessage (me_role msg) (me_content msg) None None.

Section Assistant.
Variable env : Env.
Variable config : AssistantConfig.

Definition validateRequest (request : AssistantRequest) : M AssistantRequest :=
  try_catch
    (if assistantRequestSchema (cf_contextSchema config) request
     then ret request
     else throwAppError (mkDetails "Invalid Assistant Request" VALIDATION_ERROR)
            EmptyString)
    (fun error =>
       handleAppError error (mkDetails "Request Validation Error" VALIDATION_ERROR)).

Definition getThread (request : AssistantRequest) : M Thread :=
  try_catch
    (existing <-
       match meta_threadId request with
       | Some threadId =>
           if Js.is_empty threadId then ret None else readThread env threadId
       | None => ret None
       end ;;
     match existing with
     | Some existingThread => ret existingThread
     | None => createThread env (meta_userId request) (cf_title config)
     end)
    (fun error => handleAppError error (mkDetails "Thread Retrieval Error" DATABASE_ERROR)).

Definition prepareProcess (request : AssistantRequest) (thread : Thread)
  : M AIExecutionConfig :=
  try_catch
    (systemContent <- system_content (cf_systemMessage config) (th_userObjectives thread) ;;
     let system := mkChatMessage ChatRole_System systemContent None None in
     history <-
       (if Js.is_empty (rq_message request) then ret []
        else
          similarMessages <- findSimilarMessages env (th_id thread) (rq_message request)
                               (cf_similarity config) (cf_matchCount config) ;;
          let sortedMessages :=
            sort_by (fun a b => (me_orderIndex a <=? me_orderIndex b)%Z) similarMessages in
          ret (map history_message sortedMessages)) ;;
     let messages :=
       system :: history ++ [mkChatMessage ChatRole_User (rq_message request) None None] in
     ret (mkAIExecutionConfig (cf_model config) (cf_systemMessage config) messages
            (cf_tools config) (cf_onToken config) None))
    (fun error =>
       handleAppError error (mkDetails "Process Preparation Error" INTERNAL_ERROR)).

Definition or_empty (l : option (list json)) : option (list json) :=
  match l with Some x => Some x | None => Some [] end.

Definition processRequest (fuel : nat) (aiConfig : AIExecutionConfig) (thread : Thread)
  : M AssistantResponse :=
  try_catch
    (match cf_tools config with
     | Some (t :: ts) => processToolCalls env fuel aiConfig (t :: ts) thread
     | _ =>
         aiResult <- executeAICall env aiConfig ;;
         embeddingPromise <- start (generateEmbeddings env (ar_message aiResult)) ;;
         threadUpdatePromise <-
           start (match ar_userObjectives aiResult with
                  | [] => ret tt
                  | objectives =>
                      updateThread env (th_id thread) None (Some objectives) ;;; ret tt
                  end) ;;
         orderIndexPromise <- start (getNextOrderIndex env (th_id thread)) ;;
         embedding <- await embeddingPromise ;;
         orderIndex <- await orderIndexPromise ;;
         createMessage env (th_id thread) orderIndex 0 ChatRole_Assistant
           (ar_message aiResult) embedding ;;;
         await threadUpdatePromise ;;;
         ret (mkAssistantResponse (ar_message aiResult) (th_id thread)
                (or_empty (ar_created aiResult)) (or_empty (ar_updated aiResult))
                (or_empty (ar_deleted aiResult)))
     end)
    (fun error =>
       handleAppError error (mkDetails "Request Processing Error" INTERNAL_ERROR)).

Definition updateMessages (text threadId role : string) (orderIndex : Z) : M unit :=
  try_catch
    (embeddingChunks <- generateEmbeddingChunks env text ;;
     createMessagePromises <-
       start_each_indexed
         (fun embedding i =>
            createMessage env threadId orderIndex i role
              (ec_content embedding) (ec_embedding embedding))
         0%Z embeddingChunks ;;
     Promise_all createMessagePromises ;;;
     ret tt)
    (fun error =>
       handleAppError error (mkDetails "Update Messages Error" INTERNAL_ERROR)).

Definition postProcess (request : AssistantRequest) (thread : Thread)
           (response : AssistantResponse) : M unit :=
  try_catch
    (orderIndex <- getNextOrderIndex env (th_id thread) ;;
     userPromise <-
       start (updateMessages (rq_message request) (th_id thread) ChatRole_User orderIndex) ;;
     assistantPromise <-
       start (updateMessages (rs_message response) (th_id thread) ChatRole_Assistant
                (orderIndex + 1)%Z) ;;
     Promise_all [userPromise; assistantPromise] ;;;
     ret tt)
    (fun error =>
       handleAppError error (mkDetails "Post Processing Error" INTERNAL_ERROR)).

(** [Assistant.thread] *)
Definition thread (fuel : nat) (request : AssistantRequest) : M AssistantResponse :=
  try_catch
    (validatedRequest <- validateRequest request ;;
     thread <- getThread validatedRequest ;;
     processConfig <- prepareProcess validatedRequest thread ;;
     response <- processRequest fuel processConfig thread ;;
     postProcess validatedRequest thread response ;;;
     ret response)
    (fun error =>
       handleAppError error (mkDetails "Assistant Thread Error" INTERNAL_ERROR)).
End Assistant.

End AssistantService.
Export AssistantService.

(* ================================================================== *)
(** * [routes/weather/weather.route.ts]                                *)
(* ================================================================== *)

Module WeatherRoute.

(** [weatherContextSchema]: an object whose [location], when present, is a
    string and whose [units], when present, is one of the two systems. *)
Definition weatherContextSchema (context : option json) : bool :=
  match context with
  | Some (JObj members) =>
      match JSON.obj_get "location" members with
      | None => true
      | Some (JStr _) => true
      | Some _ => false
      end
      && match JSON.obj_get "units" members with
         | None => true
         | Some (JStr u) => String.eqb u "metric" || String.eqb u "imperial"
         | Some _ => false
         end
  | _ => false
  end.

(** The mock data that the tool of the route answers with. *)
Definition weather_data : json :=
  JObj [("temperature", JNum 22 0);
        ("conditions", JStr "sunny");
        ("humidity", JNum 45 0);
        ("wind", JObj [("speed", JNum 10 0); ("direction", JStr "NW")])].

(** What the route answers: [c.json(response)], or [c.json({ error, code,
    details }, status)]; [details] is the context of the error, which the
    model of [AppError] leaves out. *)
Inductive RouteResponse : Type :=
| Json200 (response : AssistantResponse)
| JsonError (status : nat) (error : string) (code : AppErrorCode).

(** [requestBody.k] on the parsed body; a body that is not an object has
    none of the properties. *)
Definition field (k : string) (requestBody : json) : option json :=
  match requestBody with
  | JObj members => JSON.obj_get k members
  | _ => None
  end.

(** [v || d] *)
Definition or_default (v : option json) (d : string) : json :=
  match v with
  | Some x => if JsValue.truthy x then x else JStr d
  | None => JStr d
  end.

(** The request that the handler builds from the body.  [None] stands for
    a request with a [message], a [userId] or a [threadId] that is not a
    string: such a value has no place in [AssistantRequest], and the schema
    of the assistant rejects it. *)
Definition weather_request (requestBody : json) : option AssistantRequest :=
  let context :=
    JObj [("location", or_default (field "location" requestBody) "Berlin");
          ("units", or_default (field "units" requestBody) "metric")] in
  match field "message" requestBody, field "userId" requestBody with
  | Some (JStr message), Some (JStr userId) =>
      match field "threadId" requestBody with
      | None => Some (mkAssistantRequest message userId None (Some context) None)
      | Some (JStr threadId) =>
          Some (mkAssistantRequest message userId (Some threadId) (Some context) None)
      | Some _ => None
      end
  | _, _ => None
  end.

Section Route.
Variable env : Env.
(** What [zodToJsonSchema] makes of the schema of the tool's arguments. *)
Variable location_schema : json.

Definition getWeatherTool : AssistantTool :=
  mkAssistantTool "get_weather" "Get current weather data for a location" GET
    (fun args =>
       match args with
       | JObj members =>
           match JSON.obj_get "location" members with
           | Some (JStr location) => Some (JObj [("location", JStr location)])
           | _ => None
           end
       | _ => None
       end)
    location_schema
    (fun _ _ => inr weather_data).

Definition weatherAssistant : AssistantConfig :=
  mkAssistantConfig "Weather Assistant" "gpt-4o"
    "You are a helpful weather assistant that provides current weather data."
    (Some [getWeatherTool]) weatherContextSchema false (7 # 10)%Q 3.

(** [weatherAssistant.thread({ message, meta, context })] *)
Definition weather_thread (fuel : nat) (requestBody : json) : M AssistantResponse :=
  match weather_request requestBody with
  | Some request => thread env weatherAssistant fuel request
  | None =>
      (* [safeParse] fails in [validateRequest] *)
      throwAppError (mkDetails "Invalid Assistant Request" VALIDATION_ERROR) EmptyString
  end.

(** [route.post("/", ...)]; [body] is what [c.req.json()] gives. *)
Definition post (fuel : nat) (body : Exn + json) : M RouteResponse :=
  try_catch
    (requestBody <- match body with
                    | inl failure => throw failure
                    | inr parsed => ret parsed
                    end ;;
     match requestBody with
     | JNull =>
         throw (JsError "Cannot destructure property 'message' of 'requestBody' as it is null.")
     | _ =>
         response <- weather_thread fuel requestBody ;;
         ret (Json200 response)
     end)
    (fun error =>
       console LogError "Route Error: " ;;;
       match error with
       | AppErr e => ret (JsonError (getStatusCodeForError (code e)) (message e) (code e))
       | _ => ret (JsonError 500 "Failed to process message" INTERNAL_ERROR)
       end).
End Route.

End WeatherRoute.

(* ================================================================== *)
(** * Vocabulary of the statements                                     *)
(* ================================================================== *)

Definition is_chat (e : Event) : bool :=
  match e with EvChat _ => true | _ => false end.

Definition is_tool_run (e : Event) : bool :=
  match e with EvToolRun _ _ => true | _ => false end.

(** How often the model provider, respectively a tool function, has been
    called. *)
Definition model_invocations (tr : list Event) : nat := List.length (filter is_chat tr).
Definition tool_runs (tr : list Event) : nat := List.length (filter is_tool_run tr).

(** [m] is the highest order index among the fragments of a thread. *)
Definition highest_order_index (thread_id : string) (rows : list MessageRow) (m : Z) : Prop :=
  (exists r, In r rows /\ mr_thread_id r = Some thread_id /\ mr_order_index r = m)
  /\ (forall r, In r rows -> mr_thread_id r = Some thread_id -> (mr_order_index r <= m)%Z).

Definition no_fragments (thread_id : string) (rows : list MessageRow) : Prop :=
  forall r, In r rows -> mr_thread_id r <> Some thread_id.

Definition logged (ev : Event) (w : World) : World :=
  mkWorld (threads w) (messages w) (trace w ++ [ev]).



(** The system message that the spec describes: the configured text,
    followed, when the thread has objectives, by a bulleted list of them. *)
Definition system_text (systemMessage : string) (objectives : list string) : string :=
  match objectives with
  | [] => systemMessage
  | _ =>
      systemMessage ++ Js.LF ++ Js.LF ++ "User Objectives:" ++ Js.LF
      ++ Js.join Js.LF (map (fun o => "- " ++ o)%string objectives)
  end.

(** The read of a thread comes back without a row and without the code
    PGRST116: either the store answered with another error, or no row has
    the identifier and the client reports that without PGRST116. *)
Definition read_misses (env : Env) (w : World) (threadId : string) : Prop :=
  match store_error env (trace w) (SelectThread threadId) with
  | Some e => pg_code e <> "PGRST116"
  | None =>
      Store.find_thread threadId (threads w) = None
      /\ is_PGRST116 (single_no_rows env) = false
  end.

(** [title || null] *)
Definition title_or_null (title : string) : option string :=
  if Js.is_empty title then None else Some title.

(** What [Assistant.thread] does once the thread is known. *)
Definition turn_on (env : Env) (config : AssistantConfig) (fuel : nat)
           (request : AssistantRequest) (thread : Thread) : M AssistantResponse :=
  try_catch
    (processConfig <- prepareProcess env config request thread ;;
     response <- processRequest env config fuel processConfig thread ;;
     postProcess env request thread response ;;;
     ret response)
    (fun error => handleAppError error (mkDetails "Assistant Thread Error" INTERNAL_ERROR)).

(** The loop goes on while the last result of the model requests tools. *)
Definition requests_tools (r : AIExecutionResult) : bool :=
  match ar_toolCalls r with
  | Some (_ :: _) => true
  | _ => false
  end.

Fixpoint all_chars (f : ascii -> bool) (s : string) : bool :=
  match s with
  | EmptyString => true
  | String c r => f c && all_chars f r
  end.

(** A piece of a reply that ends at a line feed.  A plain piece does not
    contain the marker.  A directive piece reads: text without the marker,
    the marker, white space, then the objective, which starts with a
    character that is not white space and runs to the end of its line. *)
Inductive Segment : string -> option string -> Prop :=
| Plain (l : string) :
    Js.occurs Js.exact USER_OBJECTIVE l = false ->
    Segment l None
| Directive (pre ws : string) (c : ascii) (body : string) :
    Js.occurs Js.exact USER_OBJECTIVE pre = false ->
    all_chars Js.is_ws ws = true ->
    Js.is_ws c = false ->
    all_chars (fun x => negb (Js.is_lt x)) body = true ->
    Segment (pre ++ USER_OBJECTIVE ++ ws ++ String c body)
            (Some (Js.trim (String c body))).

(** The pieces, each followed by a line feed. *)
Fixpoint segments_text (segments : list string) : string :=
  match segments with
  | [] => EmptyString
  | l :: r => l ++ Js.LF ++ segments_text r
  end.

(** The objectives that the directive pieces carry. *)
Fixpoint objectives_of (marks : list (option string)) : list string :=
  match marks with
  | [] => []
  | Some o :: r => o :: objectives_of r
  | None :: r => objectives_of r
  end.

(** What a block yields: the array, the single value as a one-element
    list, or nothing when its text is not JSON. *)
Definition block_entities (group : string) : list json :=
  match JSON.parse (Js.trim group) with
  | Some parsed => JsValue.as_array parsed
  | None => []
  end.

(** A row of [assistant_message_embeddings] with the given columns. *)
Definition is_fragment (r : MessageRow) (thread_id : string) (order_index chunk_index : Z)
           (role content embedding : string) : Prop :=
  mr_thread_id r = Some thread_id
  /\ mr_order_index r = order_index
  /\ mr_chunk_index r = chunk_index
  /\ mr_role r = role
  /\ mr_content r = content
  /\ mr_embedding r = Some embedding.

(** The rows of the chunks of one message: one order index, chunk indices
    [i], [i + 1], ... *)
Fixpoint chunk_rows (thread_id : string) (order_index : Z) (role : string) (i : Z)
         (chunks : list EmbeddingChunk) (rows : list MessageRow) : Prop :=
  match chunks, rows with
  | [], [] => True
  | ch :: chunks', r :: rows' =>
      is_fragment r thread_id order_index i role (ec_content ch) (ec_embedding ch)
      /\ chunk_rows thread_id order_index role (i + 1)%Z chunks' rows'
  | _, _ => False
  end.

(** [e] is the serialised vector that the embedding provider gave for
    [text]. *)
Definition embedding_of (env : Env) (text e : string) : Prop :=
  exists tr v,
    embedQuery env tr text = inr v
    /\ e = JSON.stringify (JArr (map (fun me => JNum (fst me) (snd me)) v)).

(** [chunks] are the pieces into which the splitter cut [text], each with
    its own embedding. *)
Definition chunks_of (env : Env) (text : string) (chunks : list EmbeddingChunk) : Prop :=
  (exists tr, splitText env tr text = inr (map ec_content chunks))
  /\ Forall (fun ch => embedding_of env (ec_content ch) (ec_embedding ch)) chunks.

(** [k] is the next available order index of a thread, read from the rows
    [rows] after the events [tr]: the highest order index of the thread
    plus one, or 1 when the thread has no fragment.  When the store answers
    that read with an error, [getNextOrderIndex] drops the error and the
    index is 1. *)
Definition next_order_index (env : Env) (tr : list Event) (thread_id : string)
           (rows : list MessageRow) (k : Z) : Prop :=
  match store_error env tr (SelectTopOrderIndex thread_id) with
  | None =>
      (exists m, highest_order_index thread_id rows m /\ k = (m + 1)%Z)
      \/ (no_fragments thread_id rows /\ k = 1%Z)
  | Some _ => k = 1%Z
  end.

(** The trace of the second world continues the trace of the first. *)
Definition trace_extends (w w' : World) : Prop :=
  exists added, trace w' = trace w ++ added.

(** A relation between the world before and the world after that holds
    across sequences of steps. *)
Class Frame (R : World -> World -> Prop) : Prop := {
  frame_refl : forall w, R w w;
  frame_trans : forall a b c, R a b -> R b c -> R a c
}.

(** [m] keeps [R], however it ends. *)
Definition preserves (R : World -> World -> Prop) {A} (m : M A) : Prop :=
  forall w, R w (snd (m w)).

(** [m] never stops for lack of fuel. *)
Definition halts {A} (m : M A) : Prop :=
  forall w, fst (m w) <> OutOfFuel.

(** The events selected by [p] are the same before and after. *)
Definition same_events (p : Event -> bool) (w w' : World) : Prop :=
  filter p (trace w') = filter p (trace w).

Definition same_messages (w w' : World) : Prop := messages w' = messages w.

(** [m] adds exactly one event selected by [p] to the trace. *)
Definition emits_one (p : Event -> bool) {A} (m : M A) : Prop :=
  forall w, exists ev,
    p ev = true /\ filter p (trace (snd (m w))) = filter p (trace w) ++ [ev].

(** A message with the role [system]. *)
Definition is_system (msg : ChatMessage) : bool :=
  String.eqb (msg_role msg) ChatRole_System.

Definition is_token (e : Event) : bool :=
  match e with EvToken _ => true | _ => false end.

(** The text that the token callback has received, call after call. *)
Fixpoint tokens_text (tr : list Event) : string :=
  match tr with
  | [] => EmptyString
  | EvToken token :: r => token ++ tokens_text r
  | _ :: r => tokens_text r
  end.

(** The argument text that an element of [delta.tool_calls] carries. *)
Definition fragment_arguments (d : ToolCallDelta) : string :=
  match tcd_function d with
  | Some (_, Some arguments) => arguments
  | _ => EmptyString
  end.

Fixpoint all_arguments (ds : list ToolCallDelta) : string :=
  match ds with
  | [] => EmptyString
  | d :: r => fragment_arguments d ++ all_arguments r
  end.

(** A streamed chunk that carries one element of [tool_calls] and no
    text. *)
Definition tool_chunk (d : ToolCallDelta) : option Delta :=
  Some (mkDelta None (Some [d])).

(** Between two states of the store nothing has been taken away: the
    fragments of the first are the first fragments of the second, row for
    row, and the threads of the first are still there, in their places. *)
Definition only_grows (w w' : World) : Prop :=
  (exists added, messages w' = messages w ++ added)
  /\ (exists added, map tr_id (threads w') = map tr_id (threads w) ++ added).

(** A property of the request body that is a string with at least one
    character. *)
Definition nonempty_text (v : option json) : bool :=
  match v with
  | Some (JStr (String _ _)) => true
  | _ => false
  end.

(* ================================================================== *)
(** * Test doubles                                                     *)
(* ================================================================== *)

Module Fixtures.

Definition PGRST116 : PostgrestError :=
  mkPostgrestError "PGRST116" "JSON object requested, multiple (or no) rows returned".

Definition timeout_error : PostgrestError :=
  mkPostgrestError "57014" "canceling statement due to statement timeout".

(** A store without faults, a model that answers its n-th call with
    [reply n], a one-number embedding and a splitter that cuts nothing. *)
Definition stub_env (faults : list Event -> DbOp -> option PostgrestError)
           (reply : nat -> Completion) : Env :=
  mkEnv faults (Some PGRST116)
    (fun tr => ("id-" ++ Js.string_of_Z (Z.of_nat (List.length tr)))%string)
    (fun _ => "2025-01-01T00:00:00Z")
    (fun _ _ => 0%Q)
    (fun tr _ => inr (reply (model_invocations tr)))
    (fun tr _ =>
       inr ([Some (mkDelta (cm_content (reply (model_invocations tr))) None)], None))
    (fun _ text => inr [(Z.of_nat (String.length text), 0%Z)])
    (fun _ text => inr [text]).

Definition no_faults : list Event -> DbOp -> option PostgrestError := fun _ _ => None.

Definition plain_config : AssistantConfig :=
  mkAssistantConfig "Test Assistant" "gpt-4o" "You are a helpful test assistant."
    None (fun _ => true) false (7 # 10)%Q 5.

Definition empty_world : World := mkWorld [] [] [].

Definition says (text : string) : nat -> Completion :=
  fun _ => mkCompletion (Some text) None.

Definition timeouts : list Event -> DbOp -> option PostgrestError :=
  fun _ _ => Some timeout_error.

Definition thread_row (id : string) (objectives : json) : ThreadRow :=
  mkThreadRow id (Some "u1") (Some "Test Assistant") (Some objectives)
    (Some "2025-01-01T00:00:00Z") (Some "2025-01-01T00:00:00Z").

Definition fragment (id thread_id : string) (order_index chunk_index : Z)
           (role content : string) : MessageRow :=
  mkMessageRow id (Some thread_id) chunk_index order_index role content (Some "[1]")
    (Some "2025-01-01T00:00:00Z").

(** A thread ["t1"] with three turns stored out of order, and a fragment
    of another thread. *)
Definition three_fragments : World :=
  mkWorld [thread_row "t1" (JStr "[]"); thread_row "t2" (JStr "[]")]
    [fragment "m1" "t1" 1 0 "user" "Hi";
     fragment "m3" "t1" 3 0 "user" "And tomorrow?";
     fragment "m9" "t2" 9 0 "user" "Elsewhere";
     fragment "m2" "t1" 2 0 "assistant" "Hello"]
    [].

Definition get_weather : AssistantTool :=
  mkAssistantTool "get_weather" "Get current weather data for a location" GET
    (fun args =>
       match args with
       | JObj members =>
           match JSON.obj_get "location" members with
           | Some (JStr l) => Some (JObj [("location", JStr l)])
           | _ => None
           end
       | _ => None
       end)
    (JObj [("type", JStr "object")])
    (fun _ _ => inr (JObj [("temperature", JNum 22 0); ("conditions", JStr "sunny")])).


Definition berlin : string := JSON.stringify (JObj [("location", JStr "Berlin")]).

Definition thread_t1 : Thread :=
  mkThread "t1" (Some "u1") (Some "Test Assistant") (JArr [JStr "Learn Rocq"])
    (Some "2025-01-01T00:00:00Z") (Some "2025-01-01T00:00:00Z").

Definition hello_request : AssistantRequest :=
  mkAssistantRequest "And the day after?" "u1" (Some "t1") None None.

(** A reply that announces one created entity, as the README of the
    service shows it. *)
Definition created_reply : string :=
  "Done." ++ Js.LF ++ "CREATED:" ++ Js.LF
  ++ JSON.stringify (JArr [JObj [("id", JStr "123"); ("type", JStr "task")]]).

Definition objective_reply : string :=
  "Noted." ++ Js.LF ++ "USER_OBJECTIVE: Learn Rocq".

Definition streaming_config : AssistantConfig :=
  mkAssistantConfig "Test Assistant" "gpt-4o" "You are a helpful test assistant."
    None (fun _ => true) true (7 # 10)%Q 5.

Definition weather_config : AssistantConfig :=
  mkAssistantConfig "Weather Assistant" "gpt-4o" "You are a helpful weather assistant."
    (Some [get_weather]) (fun _ => true) false (7 # 10)%Q 3.

Definition ai_config (stream : bool) : AIExecutionConfig :=
  mkAIExecutionConfig "gpt-4o" "You are a helpful test assistant."
    [mkChatMessage "user" "Create a task" None None] None stream None.

Definition first_request : AssistantRequest :=
  mkAssistantRequest "Hello" "u1" None None None.

(** The store refuses every update of a thread with PGRST116. *)
Definition update_refused : list Event -> DbOp -> option PostgrestError :=
  fun _ op =>
    match op with
    | UpdateThread _ _ _ => Some PGRST116
    | _ => None
    end.

Definition is_console_error (e : Event) : bool :=
  match e with EvConsole LogError _ => true | _ => false end.

(** A well-formed identifier that no thread has. *)
Definition absent_id : string := "00000000-0000-4000-8000-000000000000".

Definition absent_thread_request : AssistantRequest :=
  mkAssistantRequest "Hello" "u1" (Some absent_id) None None.

(** The store rejects the text of an identifier that is not a UUID. *)
Definition invalid_uuid : PostgrestError :=
  mkPostgrestError "22P02" "invalid input syntax for type uuid".

Definition rejects_malformed_id : list Event -> DbOp -> option PostgrestError :=
  fun _ op =>
    match op with
    | SelectThread id => if String.eqb id "<nonexistent>" then Some invalid_uuid else None
    | _ => None
    end.

Definition malformed_id_request : AssistantRequest :=
  mkAssistantRequest "Hello" "u1" (Some "<nonexistent>") None None.

(** A model that asks for the weather once and then answers in plain
    text. *)
Definition weather_call : ToolCall := mkToolCall "call_1" "get_weather" berlin.

Definition asks_weather_once : nat -> Completion :=
  fun n =>
    match n with
    | O => mkCompletion None (Some [weather_call])
    | _ => mkCompletion (Some "It is 22 degrees and sunny in Berlin.") None
    end.

Definition weather_ai_config : AIExecutionConfig :=
  mkAIExecutionConfig "gpt-4o" "You are a helpful weather assistant."
    [mkChatMessage "system" "You are a helpful weather assistant." None None;
     mkChatMessage "user" "What's the weather in Berlin?" None None]
    (Some [get_weather]) false None.

(** Two objectives and a created-list of two entities, the directives in
    the order in which the README of the service lists them. *)
Definition directive_segments : list string :=
  ["Here are my objectives:";
   "USER_OBJECTIVE: Complete the project";
   "USER_OBJECTIVE:  Submit the report "].

Definition created_block : string := Js.LF ++ "[1, 2]" ++ Js.LF.

(** The same directives with the created-list last. *)
Definition created_last : string :=
  segments_text directive_segments ++ "CREATED:" ++ created_block.

(** The same directives with the created-list first. *)
Definition created_first : string :=
  "CREATED: [1, 2]" ++ Js.LF
  ++ "USER_OBJECTIVE: Complete the project" ++ Js.LF
  ++ "USER_OBJECTIVE: Submit the report".

(** The reply with one created entity, followed by a closing question as
    the system message of the README asks for one. *)
Definition created_then_question : string :=
  created_reply ++ Js.LF ++ Js.LF ++ "Is there anything else I can help with?".

(** A block that is not JSON. *)
Definition created_malformed : string :=
  "Done." ++ Js.LF ++ "CREATED:" ++ Js.LF ++ "[{id: 123}]".

(** As [stub_env], with a splitter that cuts a text in two halves. *)
Definition halving_env (reply : nat -> Completion) : Env :=
  mkEnv no_faults (Some PGRST116)
    (fun tr => ("id-" ++ Js.string_of_Z (Z.of_nat (List.length tr)))%string)
    (fun _ => "2025-01-01T00:00:00Z")
    (fun _ _ => 0%Q)
    (fun tr _ => inr (reply (model_invocations tr)))
    (fun tr _ =>
       inr ([Some (mkDelta (cm_content (reply (model_invocations tr))) None)], None))
    (fun _ text => inr [(Z.of_nat (String.length text), 0%Z)])
    (fun _ text =>
       let n := String.length text / 2 in
       inr [substring 0 n text; substring n (String.length text - n) text]).

(** The columns of a fragment that a turn decides. *)
Definition columns (r : MessageRow) : string * Z * Z * string :=
  (mr_role r, mr_order_index r, mr_chunk_index r, mr_content r).

End Fixtures.

(* ================================================================== *)
(** * Reasoning about computations                                     *)
(* ================================================================== *)

Lemma append_assoc (a b c : string) : ((a ++ b) ++ c = a ++ (b ++ c))%string.
Proof. induction a as [| x a IH]; simpl; [reflexivity | now rewrite IH]. Qed.

Lemma append_empty_r (a : string) : (a ++ EmptyString = a)%string.
Proof. induction a as [| x a IH]; simpl; [reflexivity | now rewrite IH]. Qed.

Lemma bind_Ret {A B} (m : M A) (k : A -> M B) w a w1 :
  m w = (Ret a, w1) -> bind m k w = k a w1.
Proof. intros H. unfold bind. now rewrite H. Qed.

Lemma bind_Throw {A B} (m : M A) (k : A -> M B) w e w1 :
  m w = (Throw e, w1) -> bind m k w = (Throw e, w1).
Proof. intros H. unfold bind. now rewrite H. Qed.

Lemma bind_Ret_inv {A B} (m : M A) (k : A -> M B) w b w' :
  bind m k w = (Ret b, w') ->
  exists a w1, m w = (Ret a, w1) /\ k a w1 = (Ret b, w').
Proof.
  unfold bind. destruct (m w) as [[a | e |] w1]; intros H; try discriminate.
  now exists a, w1.
Qed.

Lemma handleAppError_throws {A} (e : Exn) d w :
  exists a, @handleAppError A e d w = (Throw (AppErr a), w).
Proof.
  destruct e; cbn; eexists; reflexivity.
Qed.

Lemma handleAppError_AppErr {A} a d w :
  @handleAppError A (AppErr a) d w = (Throw (AppErr a), w).
Proof. reflexivity. Qed.

(** A [try] whose handler rethrows returns only what its body returns. *)
Lemma try_rethrow_Ret_inv {A} (m : M A) d w a w' :
  try_catch m (fun e => handleAppError e d) w = (Ret a, w') ->
  m w = (Ret a, w').
Proof.
  unfold try_catch. destruct (m w) as [[x | e |] w1]; intros H; try discriminate; auto.
  destruct (@handleAppError_throws A e d w1) as [x Hx]. rewrite Hx in H. discriminate.
Qed.

Lemma try_catch_Ret {A} (m : M A) h w a w1 :
  m w = (Ret a, w1) -> try_catch m h w = (Ret a, w1).
Proof. intros H. unfold try_catch. now rewrite H. Qed.

Lemma try_catch_Throw {A} (m : M A) h w e w1 :
  m w = (Throw e, w1) -> try_catch m h w = h e w1.
Proof. intros H. unfold try_catch. now rewrite H. Qed.

(* ================================================================== *)
(** * Validation                                                       *)
(* ================================================================== *)

(** C6.  A request whose message is the empty string is rejected by
    [Assistant.thread] with a [VALIDATION_ERROR], and the world is left as
    it was: no store request, no embedding, no model call, nothing in the
    trace. *)
Theorem thread_rejects_empty_message :
  forall env config fuel request w,
    rq_message request = EmptyString ->
    thread env config fuel request w
    = (Throw (AppErr (mkAppError "Invalid Assistant Request: " VALIDATION_ERROR)), w).
Proof.
  intros env config fuel request w Hmsg.
  unfold thread.
  assert (Hv : validateRequest config request w
               = (Throw (AppErr (mkAppError "Invalid Assistant Request: "
                                            VALIDATION_ERROR)), w)).
  { unfold validateRequest, assistantRequestSchema. rewrite Hmsg. reflexivity. }
  rewrite (try_catch_Throw _ _ _ _ _ (bind_Throw _ _ _ _ _ Hv)).
  reflexivity.
Qed.

Lemma thread_rejects_empty_message_witness :
  thread (Fixtures.stub_env Fixtures.no_faults (Fixtures.says "Hello"))
         Fixtures.plain_config 3
         (mkAssistantRequest EmptyString "u1" None None None) Fixtures.empty_world
  = (Throw (AppErr (mkAppError "Invalid Assistant Request: " VALIDATION_ERROR)),
     Fixtures.empty_world).
Proof.
  apply thread_rejects_empty_message. reflexivity.
Defined.

(* ================================================================== *)
(** * Order indices                                                    *)
(* ================================================================== *)

Lemma same_id_true (a : option string) (b : string) :
  Store.same_id a b = true <-> a = Some b.
Proof.
  destruct a as [x |]; simpl.
  - rewrite String.eqb_eq. split; [intros ->; reflexivity | intros [= ->]; reflexivity].
  - split; discriminate.
Qed.

Lemma top_order_index_None thread_id rows :
  Store.top_order_index thread_id rows = None <-> no_fragments thread_id rows.
Proof.
  unfold no_fragments. induction rows as [| r rows IH]; simpl.
  - split; [intros _ r [] | reflexivity].
  - destruct (Store.same_id (mr_thread_id r) thread_id) eqn:E.
    + split; [discriminate |].
      intros H. exfalso. apply (H r); [now left | now apply same_id_true].
    + rewrite IH. split.
      * intros H x [<- | Hx]; [| now apply H].
        intros Hc. apply same_id_true in Hc. congruence.
      * intros H x Hx. apply H. now right.
Qed.

Lemma top_order_index_highest thread_id rows m :
  Store.top_order_index thread_id rows = Some m ->
  highest_order_index thread_id rows m.
Proof.
  revert m. induction rows as [| r rows IH]; simpl; [discriminate |].
  intros m. destruct (Store.same_id (mr_thread_id r) thread_id) eqn:E.
  - apply same_id_true in E.
    destruct (Store.top_order_index thread_id rows) as [m' |] eqn:T; intros [= <-].
    + destruct (IH m' eq_refl) as [(x & Hin & Hid & Hx) Hle]. split.
      * destruct (Z.max_spec (mr_order_index r) m') as [[_ ->] | [_ ->]].
        -- exists x. simpl. auto.
        -- exists r. simpl. auto.
      * intros y [<- | Hy] Hyid; [lia |]. specialize (Hle y Hy Hyid). lia.
    + split.
      * exists r. simpl. auto.
      * intros y [<- | Hy] Hyid; [lia |].
        apply top_order_index_None in T. now destruct (T y Hy).
  - intros T. destruct (IH m T) as [(x & Hin & Hid & Hx) Hle]. split.
    + exists x. simpl. auto.
    + intros y [<- | Hy] Hyid; [| now apply Hle].
      apply same_id_true in Hyid. congruence.
Qed.

Lemma highest_order_index_top thread_id rows m :
  highest_order_index thread_id rows m ->
  Store.top_order_index thread_id rows = Some m.
Proof.
  intros [(x & Hin & Hid & Hx) Hle].
  destruct (Store.top_order_index thread_id rows) as [m' |] eqn:T.
  - destruct (top_order_index_highest _ _ _ T) as [(y & Hyin & Hyid & Hy) Hle'].
    specialize (Hle y Hyin Hyid). specialize (Hle' x Hin Hid). f_equal. lia.
  - apply top_order_index_None in T. now destruct (T x Hin).
Qed.

(** C10.  [getNextOrderIndex] answers with the highest order index of the
    thread plus one when the thread has fragments, with 1 when it has none,
    and with 1 as well when the store answers the read with an error other
    than PGRST116: that error is dropped, no [DATABASE_ERROR] is raised.
    Only PGRST116 is turned into an [UNAUTHORIZED] error. *)
Theorem getNextOrderIndex_next_or_first :
  forall env threadId w,
    (forall m,
        store_error env (trace w) (SelectTopOrderIndex threadId) = None ->
        highest_order_index threadId (messages w) m ->
        getNextOrderIndex env threadId w
        = (Ret (m + 1)%Z, logged (EvStore (SelectTopOrderIndex threadId)) w))
    /\ (store_error env (trace w) (SelectTopOrderIndex threadId) = None ->
        no_fragments threadId (messages w) ->
        getNextOrderIndex env threadId w
        = (Ret 1%Z, logged (EvStore (SelectTopOrderIndex threadId)) w))
    /\ (forall e,
        store_error env (trace w) (SelectTopOrderIndex threadId) = Some e ->
        pg_code e <> "PGRST116" ->
        getNextOrderIndex env threadId w
        = (Ret 1%Z, logged (EvStore (SelectTopOrderIndex threadId)) w))
    /\ (forall e,
        store_error env (trace w) (SelectTopOrderIndex threadId) = Some e ->
        pg_code e = "PGRST116" ->
        getNextOrderIndex env threadId w
        = (Throw (AppErr (mkAppError "Get Next Order Index Error: [object Object]"
                                     UNAUTHORIZED)),
           logged (EvStore (SelectTopOrderIndex threadId)) w)).
Proof.
  intros env threadId w.
  unfold getNextOrderIndex, Store.select_top_order_index, Store.request,
    try_catch, bind, logged.
  repeat split.
  - intros m Hok Hm. rewrite Hok. cbn.
    rewrite (highest_order_index_top _ _ _ Hm). cbn.
    destruct (m =? 0)%Z eqn:E; [apply Z.eqb_eq in E; subst |]; reflexivity.
  - intros Hok Hnone. rewrite Hok. cbn.
    apply top_order_index_None in Hnone. rewrite Hnone. reflexivity.
  - intros e He Hcode. rewrite He. cbn.
    apply String.eqb_neq in Hcode. rewrite Hcode. reflexivity.
  - intros e He Hcode. rewrite He. cbn.
    apply String.eqb_eq in Hcode. rewrite Hcode. reflexivity.
Qed.

Lemma getNextOrderIndex_next_or_first_witness :
  getNextOrderIndex (Fixtures.stub_env Fixtures.no_faults (Fixtures.says "Hello")) "t1"
    Fixtures.three_fragments
  = (Ret 4%Z, logged (EvStore (SelectTopOrderIndex "t1")) Fixtures.three_fragments)
  /\ getNextOrderIndex (Fixtures.stub_env Fixtures.no_faults (Fixtures.says "Hello")) "t3"
       Fixtures.three_fragments
     = (Ret 1%Z, logged (EvStore (SelectTopOrderIndex "t3")) Fixtures.three_fragments)
  /\ getNextOrderIndex (Fixtures.stub_env Fixtures.timeouts (Fixtures.says "Hello")) "t1"
       Fixtures.three_fragments
     = (Ret 1%Z, logged (EvStore (SelectTopOrderIndex "t1")) Fixtures.three_fragments).
Proof.
  split; [| split].
  - destruct (getNextOrderIndex_next_or_first
                (Fixtures.stub_env Fixtures.no_faults (Fixtures.says "Hello")) "t1"
                Fixtures.three_fragments) as (H & _).
    apply (H 3%Z).
    + reflexivity.
    + split.
      * exists (Fixtures.fragment "m3" "t1" 3 0 "user" "And tomorrow?"). simpl. auto.
      * intros r [<- | [<- | [<- | [<- | []]]]]; simpl; intros H'; try lia; discriminate.
  - destruct (getNextOrderIndex_next_or_first
                (Fixtures.stub_env Fixtures.no_faults (Fixtures.says "Hello")) "t3"
                Fixtures.three_fragments) as (_ & H & _).
    apply H.
    + reflexivity.
    + intros r [<- | [<- | [<- | [<- | []]]]]; simpl; discriminate.
  - destruct (getNextOrderIndex_next_or_first
                (Fixtures.stub_env Fixtures.timeouts (Fixtures.says "Hello")) "t1"
                Fixtures.three_fragments) as (_ & _ & H & _).
    apply (H Fixtures.timeout_error).
    + reflexivity.
    + simpl. discriminate.
Defined.

(* ================================================================== *)
(** * Tool calls                                                       *)
(* ================================================================== *)




(* ================================================================== *)
(** * Context preparation                                              *)
(* ================================================================== *)

Section SortByKey.
Context {A : Type}.
Variable key : A -> Z.

Let le (a b : A) : bool := (key a <=? key b)%Z.
Let R (a b : A) : Prop := (key a <= key b)%Z.

Lemma insert_by_perm x l : Permutation (insert_by le x l) (x :: l).
Proof.
  induction l as [| y l IH]; simpl; [reflexivity |].
  destruct (le x y); [reflexivity |].
  rewrite IH. apply perm_swap.
Qed.

Lemma sort_by_perm l : Permutation (sort_by le l) l.
Proof.
  induction l as [| x l IH]; simpl; [reflexivity |].
  rewrite insert_by_perm. now constructor.
Qed.

Lemma insert_by_sorted x l :
  StronglySorted R l -> StronglySorted R (insert_by le x l).
Proof.
  induction 1 as [| y l Hs IH Hy]; simpl.
  - constructor; constructor.
  - unfold le at 1. destruct (Z.leb_spec (key x) (key y)) as [Hxy | Hxy].
    + constructor; [now constructor |].
      constructor; [exact Hxy |].
      eapply Forall_impl; [| exact Hy]. unfold R. intros. lia.
    + constructor; [exact IH |].
      apply (Permutation_Forall (Permutation_sym (insert_by_perm x l))).
      constructor; [unfold R; lia | exact Hy].
Qed.

Lemma sort_by_sorted l : StronglySorted R (sort_by le l).
Proof.
  induction l as [| x l IH]; simpl; [constructor | now apply insert_by_sorted].
Qed.
End SortByKey.

Lemma system_content_objectives systemMessage objectives w :
  system_content systemMessage (JArr (map JStr objectives)) w
  = (Ret (system_text systemMessage objectives), w).
Proof.
  destruct objectives as [| o objectives]; [reflexivity |].
  unfold system_content, system_text, ret. cbn [map].
  rewrite map_map. reflexivity.
Qed.

Lemma validated_message_not_empty context request :
  assistantRequestSchema context request = true ->
  Js.is_empty (rq_message request) = false.
Proof.
  unfold assistantRequestSchema. destruct (rq_message request); simpl; [discriminate | reflexivity].
Qed.

(** C7.  For a validated request, once retrieval has returned, the history
    handed to the model invoker is: the system message (the configured text
    with the objectives of the thread appended as a bulleted list when
    there are any), then the retrieved fragments in ascending order of
    their order index, whatever the order in which retrieval ranked them,
    each as a message with the role and the content of its fragment and
    nothing else, then the new user message.  The invoker sends this list
    as it is. *)
Theorem prepareProcess_assembles_history :
  forall env config request thread objectives similar w w',
    assistantRequestSchema (cf_contextSchema config) request = true ->
    th_userObjectives thread = JArr (map JStr objectives) ->
    findSimilarMessages env (th_id thread) (rq_message request)
      (cf_similarity config) (cf_matchCount config) w = (Ret similar, w') ->
    exists sorted,
      Permutation sorted similar
      /\ StronglySorted (fun a b => (me_orderIndex a <= me_orderIndex b)%Z) sorted
      /\ let history :=
           mkChatMessage ChatRole_System
             (system_text (cf_systemMessage config) objectives) None None
           :: map (fun fragment =>
                     mkChatMessage (me_role fragment) (me_content fragment) None None)
                  sorted
           ++ [mkChatMessage ChatRole_User (rq_message request) None None] in
         prepareProcess env config request thread w
         = (Ret (mkAIExecutionConfig (cf_model config) (cf_systemMessage config) history
                   (cf_tools config) (cf_onToken config) None), w')
         /\ ensureSystemMessage history (cf_systemMessage config) = history.
Proof.
  intros env config request thread objectives similar w w' Hvalid Hobj Hsim.
  exists (sort_by (fun a b => (me_orderIndex a <=? me_orderIndex b)%Z) similar).
  split; [apply sort_by_perm |].
  split; [apply (sort_by_sorted me_orderIndex) |].
  cbv zeta. split; [| reflexivity].
  unfold prepareProcess.
  rewrite Hobj.
  apply try_catch_Ret.
  rewrite (bind_Ret _ _ _ _ _ (system_content_objectives _ _ _)).
  rewrite (validated_message_not_empty _ _ Hvalid).
  unfold bind at 1. unfold bind at 1. rewrite Hsim. reflexivity.
Qed.

Lemma prepareProcess_assembles_history_witness :
  exists sorted cfg' w',
    StronglySorted (fun a b => (me_orderIndex a <= me_orderIndex b)%Z) sorted
    /\ prepareProcess (Fixtures.stub_env Fixtures.no_faults (Fixtures.says "Hello"))
         Fixtures.plain_config Fixtures.hello_request Fixtures.thread_t1
         Fixtures.three_fragments
       = (Ret cfg', w')
    /\ cfg_messages cfg'
       = mkChatMessage "system"
           (system_text "You are a helpful test assistant." ["Learn Rocq"]) None None
         :: map (fun fragment =>
                   mkChatMessage (me_role fragment) (me_content fragment) None None)
                sorted
         ++ [mkChatMessage "user" "And the day after?" None None].
Proof.
  assert (E : match findSimilarMessages
                      (Fixtures.stub_env Fixtures.no_faults (Fixtures.says "Hello"))
                      "t1" "And the day after?" (7 # 10)%Q 5 Fixtures.three_fragments with
              | (Ret _, _) => True
              | _ => False
              end) by (vm_compute; exact I).
  destruct (findSimilarMessages _ _ _ _ _ _) as [[similar | |] w'] eqn:Hsim;
    try contradiction.
  destruct (prepareProcess_assembles_history
              (Fixtures.stub_env Fixtures.no_faults (Fixtures.says "Hello"))
              Fixtures.plain_config Fixtures.hello_request Fixtures.thread_t1
              ["Learn Rocq"] similar Fixtures.three_fragments w')
    as (sorted & Hperm & Hsorted & Hrun & _).
  - reflexivity.
  - reflexivity.
  - exact Hsim.
  - exists sorted. do 2 eexists.
    split; [exact Hsorted |].
    split; [exact Hrun | reflexivity].
Defined.

(** The same turn by evaluation: retrieval ranks the fragments of the
    thread as they are stored (1, 3, 2); the history lists them as 1, 2, 3
    between the system message and the new user message. *)
Example prepareProcess_example :
  match fst (prepareProcess (Fixtures.stub_env Fixtures.no_faults (Fixtures.says "Hello"))
               Fixtures.plain_config Fixtures.hello_request Fixtures.thread_t1
               Fixtures.three_fragments) with
  | Ret cfg' => map msg_content (cfg_messages cfg')
  | _ => []
  end
  = [system_text "You are a helpful test assistant." ["Learn Rocq"];
     "Hi"; "Hello"; "And tomorrow?"; "And the day after?"].
Proof. vm_compute. reflexivity. Qed.

(* ================================================================== *)
(** * Post-processing of replies                                       *)
(* ================================================================== *)

(** C5 (the code departs from the claim).  The same reply, with a
    [CREATED:] block, goes through the invoker in both modes.  With a token
    callback, [processAIResponse] extracts the block.  Without one,
    [executeDefaultAICall] extracts the objectives only: the three entity
    lists of its result are left undefined, and [Assistant.thread] reports
    empty lists. *)
Theorem executeDefaultAICall_skips_entity_changes :
  let env := Fixtures.stub_env Fixtures.no_faults (Fixtures.says Fixtures.created_reply) in
  let entity := JObj [("id", JStr "123"); ("type", JStr "task")] in
  fst (executeAICall env (Fixtures.ai_config true) Fixtures.empty_world)
  = Ret (mkAIExecutionResult Fixtures.created_reply None [] None
           (Some [entity]) (Some []) (Some []))
  /\ fst (executeAICall env (Fixtures.ai_config false) Fixtures.empty_world)
     = Ret (mkAIExecutionResult Fixtures.created_reply None [] None None None None)
  /\ fst (thread env Fixtures.streaming_config 1 Fixtures.first_request Fixtures.empty_world)
     = Ret (mkAssistantResponse Fixtures.created_reply "id-0"
              (Some [entity]) (Some []) (Some []))
  /\ fst (thread env Fixtures.plain_config 1 Fixtures.first_request Fixtures.empty_world)
     = Ret (mkAssistantResponse Fixtures.created_reply "id-0"
              (Some []) (Some []) (Some [])).
Proof.
  cbv zeta. repeat split; vm_compute; reflexivity.
Qed.

(** On every path without a token callback the entity lists stay
    undefined, whatever the reply says. *)
Lemma executeDefaultAICall_no_entity_lists env config w r w' :
  executeDefaultAICall env config w = (Ret r, w') ->
  ar_created r = None /\ ar_updated r = None /\ ar_deleted r = None.
Proof.
  unfold executeDefaultAICall. intros H.
  apply bind_Ret_inv in H. destruct H as (completion & w1 & _ & H).
  apply bind_Ret_inv in H. destruct H as (sd & w2 & _ & H).
  injection H as <- _. auto.
Qed.

(* ================================================================== *)
(** * Objectives of a thread                                           *)
(* ================================================================== *)

(** C4 (the code departs from the claim).  The model's reply carries an
    objective and the update of the thread fails.  With a tool configured
    the failure is logged and the turn returns the reply.  Without tools
    the same failure ends the turn: [Assistant.thread] throws the error of
    [updateThread].  The failure is either a refusal by the store
    (PGRST116) or the one that follows every stored update: the row comes
    back with the objectives as an array, on which [JSON.parse] throws. *)
Theorem thread_objectives_update_failure :
  let refused := Fixtures.stub_env Fixtures.update_refused
                   (Fixtures.says Fixtures.objective_reply) in
  let plain := Fixtures.stub_env Fixtures.no_faults
                 (Fixtures.says Fixtures.objective_reply) in
  fst (thread refused Fixtures.plain_config 1 Fixtures.first_request Fixtures.empty_world)
  = Throw (AppErr (mkAppError "Update Thread Error: [object Object]" UNAUTHORIZED))
  /\ fst (thread plain Fixtures.plain_config 1 Fixtures.first_request Fixtures.empty_world)
     = Throw (AppErr (mkAppError "Update Thread Error: " DATABASE_ERROR))
  /\ fst (thread refused Fixtures.weather_config 1 Fixtures.first_request
            Fixtures.empty_world)
     = Ret (mkAssistantResponse Fixtures.objective_reply "id-0"
              (Some []) (Some []) (Some []))
  /\ filter Fixtures.is_console_error
       (trace (snd (thread refused Fixtures.weather_config 1 Fixtures.first_request
                      Fixtures.empty_world)))
     = [EvConsole LogError "Fehler beim Aktualisieren der Benutzerziele:"].
Proof.
  cbv zeta. repeat split; vm_compute; reflexivity.
Qed.

(* ================================================================== *)
(** * Thread resolution                                                *)
(* ================================================================== *)

Lemma readThread_misses env w threadId :
  read_misses env w threadId ->
  readThread env threadId w = (Ret None, logged (EvStore (SelectThread threadId)) w).
Proof.
  unfold read_misses, readThread, Store.select_thread, Store.request, try_catch, bind, logged.
  destruct (store_error env (trace w) (SelectThread threadId)) as [e |].
  - intros Hcode. cbn. apply String.eqb_neq in Hcode. rewrite Hcode. reflexivity.
  - intros [Hfind Hcode]. rewrite Hfind. cbn. rewrite Hcode. reflexivity.
Qed.

Lemma processToolCalls_threadId env fuel aiConfig tools thread w resp w' :
  processToolCalls env fuel aiConfig tools thread w = (Ret resp, w') ->
  rs_threadId resp = th_id thread.
Proof.
  unfold processToolCalls. intros H.
  apply try_rethrow_Ret_inv in H.
  apply bind_Ret_inv in H. destruct H as (aiResult & w1 & _ & H).
  apply bind_Ret_inv in H. destruct H as (st & w2 & _ & H).
  apply bind_Ret_inv in H. destruct H as (u & w3 & _ & H).
  injection H as <- _. reflexivity.
Qed.

Lemma processRequest_threadId env config fuel aiConfig thread w resp w' :
  processRequest env config fuel aiConfig thread w = (Ret resp, w') ->
  rs_threadId resp = th_id thread.
Proof.
  unfold processRequest. intros H.
  apply try_rethrow_Ret_inv in H.
  assert (Hplain :
            forall w0,
              (aiResult <- executeAICall env aiConfig ;;
               embeddingPromise <- start (generateEmbeddings env (ar_message aiResult)) ;;
               threadUpdatePromise <-
                 start (match ar_userObjectives aiResult with
                        | [] => ret tt
                        | objectives =>
                            updateThread env (th_id thread) None (Some objectives) ;;; ret tt
                        end) ;;
               orderIndexPromise <- start (getNextOrderIndex env (th_id thread)) ;;
               embedding <- await embeddingPromise ;;
               orderIndex <- await orderIndexPromise ;;
               createMessage env (th_id thread) orderIndex 0 ChatRole_Assistant
                 (ar_message aiResult) embedding ;;;
               await threadUpdatePromise ;;;
               ret (mkAssistantResponse (ar_message aiResult) (th_id thread)
                      (or_empty (ar_created aiResult)) (or_empty (ar_updated aiResult))
                      (or_empty (ar_deleted aiResult)))) w0 = (Ret resp, w') ->
              rs_threadId resp = th_id thread).
  { intros w0 H0.
    repeat (apply bind_Ret_inv in H0; destruct H0 as (? & ? & _ & H0)).
    injection H0 as <- _. reflexivity. }
  destruct (cf_tools config) as [[| t ts] |].
  - now apply (Hplain w).
  - now apply processToolCalls_threadId in H.
  - now apply (Hplain w).
Qed.

Lemma turn_on_threadId env config fuel request thread w resp w' :
  turn_on env config fuel request thread w = (Ret resp, w') ->
  rs_threadId resp = th_id thread.
Proof.
  unfold turn_on. intros H.
  apply try_rethrow_Ret_inv in H.
  apply bind_Ret_inv in H. destruct H as (pc & w1 & _ & H).
  apply bind_Ret_inv in H. destruct H as (r & w2 & Hr & H).
  apply bind_Ret_inv in H. destruct H as (u & w3 & _ & H).
  injection H as <- _. now apply processRequest_threadId in Hr.
Qed.

(** C1 (as the code has it).  A validated request names a thread; the read
    of that thread comes back without a row and without PGRST116; the store
    accepts the insertion.  Then [getThread] returns a new thread that the
    requesting user owns and whose title is the one of the configuration,
    the row is added to the table, the turn goes on with that thread, and
    every response that the turn returns carries the identifier of the new
    thread. *)
Theorem thread_creates_thread_on_miss :
  forall env config fuel request threadId w,
    let w1 := logged (EvStore (SelectThread threadId)) w in
    let title := title_or_null (cf_title config) in
    let insertion := InsertThread (meta_userId request) title (JStr "[]") in
    let id := gen_random_uuid env (trace w1) in
    let row := mkThreadRow id (Some (meta_userId request)) title (Some (JStr "[]"))
                 (Some (now env (trace w1))) (Some (now env (trace w1))) in
    let created := mkThread id (Some (meta_userId request)) title (JArr [])
                     (Some (now env (trace w1))) (Some (now env (trace w1))) in
    let w2 := mkWorld (threads w ++ [row]) (messages w) (trace w1 ++ [EvStore insertion]) in
    assistantRequestSchema (cf_contextSchema config) request = true ->
    meta_threadId request = Some threadId ->
    threadId <> EmptyString ->
    read_misses env w threadId ->
    store_error env (trace w1) insertion = None ->
    Store.find_thread id (threads w) = None ->
    getThread env config request w = (Ret created, w2)
    /\ thread env config fuel request w = turn_on env config fuel request created w2
    /\ (forall resp w',
           thread env config fuel request w = (Ret resp, w') -> rs_threadId resp = id).
Proof.
  intros env config fuel request threadId w. cbv zeta.
  unfold title_or_null, logged. cbn [trace threads messages].
  intros Hvalid Hid Hnonempty Hmiss Hinsert Hfresh.
  match goal with
  | |- getThread _ _ _ _ = (Ret ?c, ?w2) /\ _ =>
      assert (Hget : getThread env config request w = (Ret c, w2))
  end.
  { unfold getThread. rewrite Hid.
    destruct threadId as [| c s]; [congruence |]. cbn [Js.is_empty].
    apply try_catch_Ret.
    rewrite (bind_Ret _ _ _ _ _ (readThread_misses _ _ _ Hmiss)).
    unfold createThread, Store.insert_thread, Store.request, try_catch, bind, logged.
    cbn [trace threads messages].
    rewrite Hinsert. rewrite Hfresh. reflexivity. }
  match goal with
  | |- _ /\ thread _ _ _ _ _ = ?t /\ _ =>
      assert (Hturn : thread env config fuel request w = t)
  end.
  { unfold thread, turn_on, try_catch.
    assert (Hv : validateRequest config request w = (Ret request, w)).
    { unfold validateRequest. rewrite Hvalid. reflexivity. }
    rewrite (bind_Ret _ _ _ _ _ Hv).
    rewrite (bind_Ret _ _ _ _ _ Hget). reflexivity. }
  split; [exact Hget |]. split; [exact Hturn |].
  intros resp w' H. rewrite Hturn in H.
  now apply turn_on_threadId in H.
Qed.

Lemma thread_creates_thread_on_miss_witness :
  let env := Fixtures.stub_env Fixtures.rejects_malformed_id (Fixtures.says "Hello") in
  getThread env Fixtures.plain_config Fixtures.malformed_id_request Fixtures.empty_world
  = (Ret (mkThread "id-1" (Some "u1") (Some "Test Assistant") (JArr [])
            (Some "2025-01-01T00:00:00Z") (Some "2025-01-01T00:00:00Z")),
     mkWorld [mkThreadRow "id-1" (Some "u1") (Some "Test Assistant") (Some (JStr "[]"))
                (Some "2025-01-01T00:00:00Z") (Some "2025-01-01T00:00:00Z")]
       []
       [EvStore (SelectThread "<nonexistent>");
        EvStore (InsertThread "u1" (Some "Test Assistant") (JStr "[]"))])
  /\ (forall resp w',
         thread env Fixtures.plain_config 1 Fixtures.malformed_id_request
           Fixtures.empty_world = (Ret resp, w') ->
         rs_threadId resp = "id-1").
Proof.
  cbv zeta.
  destruct (thread_creates_thread_on_miss
              (Fixtures.stub_env Fixtures.rejects_malformed_id (Fixtures.says "Hello"))
              Fixtures.plain_config 1 Fixtures.malformed_id_request "<nonexistent>"
              Fixtures.empty_world) as (Hget & _ & Hid).
  - reflexivity.
  - reflexivity.
  - discriminate.
  - unfold read_misses. simpl. discriminate.
  - reflexivity.
  - reflexivity.
  - split; [exact Hget | exact Hid].
Defined.

(** The turn of the witness returns: the response names the new thread,
    not the identifier that the request supplied. *)
Example thread_on_malformed_id :
  fst (thread (Fixtures.stub_env Fixtures.rejects_malformed_id (Fixtures.says "Hello"))
         Fixtures.plain_config 1 Fixtures.malformed_id_request Fixtures.empty_world)
  = Ret (mkAssistantResponse "Hello" "id-1" (Some []) (Some []) (Some [])).
Proof. vm_compute. reflexivity. Qed.

(** C1 (as stated) fails.  The request names a well-formed identifier that
    no thread has, and the client reports the missing row the way
    [.single()] does, with the code PGRST116.  [readThread] turns that
    into an UNAUTHORIZED error: the turn fails, no thread is created. *)
Lemma thread_fails_on_absent_thread :
  let env := Fixtures.stub_env Fixtures.no_faults (Fixtures.says "Hello") in
  Store.find_thread Fixtures.absent_id (threads Fixtures.empty_world) = None
  /\ thread env Fixtures.plain_config 1 Fixtures.absent_thread_request Fixtures.empty_world
     = (Throw (AppErr (mkAppError "Get Thread Error: [object Object]" UNAUTHORIZED)),
        mkWorld [] [] [EvStore (SelectThread Fixtures.absent_id)]).
Proof. cbv zeta. split; vm_compute; reflexivity. Qed.

(* ================================================================== *)
(** * What a computation leaves unchanged                              *)
(* ================================================================== *)

#[export] Instance same_events_frame p : Frame (same_events p).
Proof.
  split; unfold same_events; [reflexivity | intros a b c H1 H2; congruence].
Qed.

#[export] Instance same_messages_frame : Frame same_messages.
Proof.
  split; unfold same_messages; [reflexivity | intros a b c H1 H2; congruence].
Qed.

Section Preserves.
Context {R : World -> World -> Prop} `{Frame R}.

Lemma preserves_ret {A} (a : A) : preserves R (ret a).
Proof. intros w. apply frame_refl. Qed.

Lemma preserves_throw {A} e : preserves R (@throw A e).
Proof. intros w. apply frame_refl. Qed.

Lemma preserves_await {A} (p : Promise A) : preserves R (await p).
Proof. intros w. unfold await. destruct p; apply frame_refl. Qed.

Lemma preserves_current_trace : preserves R current_trace.
Proof. intros w. apply frame_refl. Qed.

Lemma preserves_out_of_fuel {A} : preserves R (@out_of_fuel A).
Proof. intros w. apply frame_refl. Qed.

Lemma preserves_bind {A B} (m : M A) (k : A -> M B) :
  preserves R m -> (forall a, preserves R (k a)) -> preserves R (bind m k).
Proof.
  intros Hm Hk w. unfold bind. specialize (Hm w).
  destruct (m w) as [[a | e |] w1]; simpl in *; auto.
  eapply frame_trans; [exact Hm | apply Hk].
Qed.

Lemma preserves_try_catch {A} (m : M A) (h : Exn -> M A) :
  preserves R m -> (forall e, preserves R (h e)) -> preserves R (try_catch m h).
Proof.
  intros Hm Hh w. unfold try_catch. specialize (Hm w).
  destruct (m w) as [[a | e |] w1]; simpl in *; auto.
  eapply frame_trans; [exact Hm | apply Hh].
Qed.

Lemma preserves_start {A} (m : M A) : preserves R m -> preserves R (start m).
Proof.
  intros Hm w. unfold start. specialize (Hm w).
  destruct (m w) as [[a | e |] w1]; simpl in *; auto.
Qed.

Lemma preserves_throwAppError {A} d r : preserves R (@throwAppError A d r).
Proof. apply preserves_throw. Qed.

Lemma preserves_handleAppError {A} e d : preserves R (@handleAppError A e d).
Proof. destruct e; apply preserves_throw. Qed.

Lemma preserves_Promise_all {A} (ps : list (Promise A)) : preserves R (Promise_all ps).
Proof. apply preserves_await. Qed.

Lemma preserves_start_each {A B} (f : A -> M B) xs :
  (forall x, preserves R (f x)) -> preserves R (start_each f xs).
Proof.
  intros Hf. induction xs as [| x xs IH]; simpl.
  - apply preserves_ret.
  - apply preserves_bind; [apply preserves_start, Hf |]. intros p.
    apply preserves_bind; [exact IH |]. intros ps. apply preserves_ret.
Qed.

Lemma preserves_start_each_indexed {A B} (f : A -> Z -> M B) i xs :
  (forall x j, preserves R (f x j)) -> preserves R (start_each_indexed f i xs).
Proof.
  intros Hf. revert i. induction xs as [| x xs IH]; intros i; simpl.
  - apply preserves_ret.
  - apply preserves_bind; [apply preserves_start, Hf |]. intros p.
    apply preserves_bind; [apply IH |]. intros ps. apply preserves_ret.
Qed.
End Preserves.

Section Halts.
Lemma halts_ret {A} (a : A) : halts (ret a).
Proof. intros w. discriminate. Qed.

Lemma halts_throw {A} e : halts (@throw A e).
Proof. intros w. discriminate. Qed.

Lemma halts_await {A} (p : Promise A) : halts (await p).
Proof. intros w. unfold await. destruct p; discriminate. Qed.

Lemma halts_bind {A B} (m : M A) (k : A -> M B) :
  halts m -> (forall a, halts (k a)) -> halts (bind m k).
Proof.
  intros Hm Hk w. unfold bind. specialize (Hm w).
  destruct (m w) as [[a | e |] w1]; simpl in *;
    [apply Hk | discriminate | congruence].
Qed.

Lemma halts_try_catch {A} (m : M A) (h : Exn -> M A) :
  halts m -> (forall e, halts (h e)) -> halts (try_catch m h).
Proof.
  intros Hm Hh w. unfold try_catch. specialize (Hm w).
  destruct (m w) as [[a | e |] w1]; simpl in *;
    [discriminate | apply Hh | congruence].
Qed.

Lemma halts_start {A} (m : M A) : halts m -> halts (start m).
Proof.
  intros Hm w. unfold start. specialize (Hm w).
  destruct (m w) as [[a | e |] w1]; simpl in *;
    [discriminate | discriminate | congruence].
Qed.

Lemma halts_handleAppError {A} e d : halts (@handleAppError A e d).
Proof. destruct e; apply halts_throw. Qed.

Lemma halts_call_service {A} ev (answer : list Event -> Exn + A) :
  halts (call_service ev answer).
Proof. intros w. unfold call_service. destruct (answer (trace w)); discriminate. Qed.

Lemma halts_emit ev : halts (emit ev).
Proof. intros w. discriminate. Qed.

Lemma halts_request {A} env op
      (exec : World -> DbResponse A * (list ThreadRow * list MessageRow)) :
  halts (Store.request env op exec).
Proof.
  intros w. unfold Store.request.
  destruct (store_error env (trace w) op); [discriminate |].
  destruct (exec w). discriminate.
Qed.
End Halts.

(** The two kinds of goals are solved by following the structure of the
    term. *)
Ltac frame_step :=
  match goal with
  | |- preserves _ (bind _ _) => apply preserves_bind; [| intros ?]
  | |- preserves _ (try_catch _ _) => apply preserves_try_catch; [| intros ?]
  | |- preserves _ (ret _) => apply preserves_ret
  | |- preserves _ (throw _) => apply preserves_throw
  | |- preserves _ (await _) => apply preserves_await
  | |- preserves _ (Promise_all _) => apply preserves_Promise_all
  | |- preserves _ (start _) => apply preserves_start
  | |- preserves _ (start_each _ _) => apply preserves_start_each; intros ?
  | |- preserves _ (start_each_indexed _ _ _) => apply preserves_start_each_indexed; intros ? ?
  | |- preserves _ (throwAppError _ _) => apply preserves_throwAppError
  | |- preserves _ (handleAppError _ _) => apply preserves_handleAppError
  | |- preserves _ current_trace => apply preserves_current_trace
  | |- preserves _ out_of_fuel => apply preserves_out_of_fuel
  | |- halts (bind _ _) => apply halts_bind; [| intros ?]
  | |- halts (try_catch _ _) => apply halts_try_catch; [| intros ?]
  | |- halts (ret _) => apply halts_ret
  | |- halts (throw _) => apply halts_throw
  | |- halts (await _) => apply halts_await
  | |- halts (start _) => apply halts_start
  | |- halts (throwAppError _ _) => apply halts_throw
  | |- halts (handleAppError _ _) => apply halts_handleAppError
  | |- halts (call_service _ _) => apply halts_call_service
  | |- halts (emit _) => apply halts_emit
  | |- halts (console _ _) => apply halts_emit
  | |- halts (Store.request _ _ _) => apply halts_request
  | |- context [match ?x with _ => _ end] => destruct x
  end.

Ltac frame := repeat frame_step; auto.

Lemma filter_logged p ev w :
  filter p (trace (logged ev w)) = filter p (trace w) ++ (if p ev then [ev] else []).
Proof. simpl. rewrite filter_app. simpl. now destruct (p ev). Qed.

Lemma preserves_events_emit p ev : p ev = false -> preserves (same_events p) (emit ev).
Proof.
  intros Hp w. unfold same_events. simpl. rewrite filter_app. simpl. rewrite Hp.
  apply app_nil_r.
Qed.

Lemma preserves_events_call_service {A} p ev (answer : list Event -> Exn + A) :
  p ev = false -> preserves (same_events p) (call_service ev answer).
Proof.
  intros Hp w. unfold same_events, call_service.
  destruct (answer (trace w)); simpl; rewrite filter_app; simpl; rewrite Hp;
    apply app_nil_r.
Qed.

Lemma preserves_events_request {A} p env op
      (exec : World -> DbResponse A * (list ThreadRow * list MessageRow)) :
  p (EvStore op) = false -> preserves (same_events p) (Store.request env op exec).
Proof.
  intros Hp w. unfold same_events, Store.request.
  destruct (store_error env (trace w) op); [| destruct (exec w)];
    simpl; rewrite filter_app; simpl; rewrite Hp; apply app_nil_r.
Qed.

Lemma preserves_messages_emit ev : preserves same_messages (emit ev).
Proof. intros w. reflexivity. Qed.

Lemma preserves_messages_call_service {A} ev (answer : list Event -> Exn + A) :
  preserves same_messages (call_service ev answer).
Proof. intros w. unfold call_service. destruct (answer (trace w)); reflexivity. Qed.

Lemma preserves_messages_request {A} env op
      (exec : World -> DbResponse A * (list ThreadRow * list MessageRow)) :
  (forall w, snd (snd (exec w)) = messages w) ->
  preserves same_messages (Store.request env op exec).
Proof.
  intros Hexec w. unfold same_messages, Store.request.
  destruct (store_error env (trace w) op); [reflexivity |].
  specialize (Hexec w). destruct (exec w) as [r [ts ms]]. exact Hexec.
Qed.

(** Events of the store, of the console, of the embedding provider, of the
    splitter and of the token callback are neither model invocations nor
    tool runs. *)
Section Quiet.
Variable p : Event -> bool.
Hypothesis p_store : forall op, p (EvStore op) = false.
Hypothesis p_console : forall level text, p (EvConsole level text) = false.
Hypothesis p_token : forall token, p (EvToken token) = false.

Lemma updateThread_quiet env threadId title objectives :
  preserves (same_events p) (updateThread env threadId title objectives).
Proof.
  unfold updateThread, Store.update_thread, to_thread, read_user_objectives, JSON_parse.
  frame; try (apply preserves_events_request; apply p_store).
Qed.

Lemma extractEntitiesFromToolResponse_quiet response :
  preserves (same_events p) (extractEntitiesFromToolResponse response).
Proof.
  unfold extractEntitiesFromToolResponse, console.
  frame; apply preserves_events_emit, p_console.
Qed.

Lemma parse_block_quiet label m : preserves (same_events p) (parse_block label m).
Proof.
  unfold parse_block, console. frame; apply preserves_events_emit, p_console.
Qed.

Lemma processAIResponse_quiet content toolCalls structuredData :
  preserves (same_events p) (processAIResponse content toolCalls structuredData).
Proof.
  unfold processAIResponse, extractEntityChanges.
  apply preserves_bind; [| intros ?; apply preserves_ret].
  repeat (apply preserves_bind; [apply parse_block_quiet | intros ?]).
  apply preserves_ret.
Qed.

Lemma consume_stream_quiet chunks fullContent toolCalls :
  preserves (same_events p) (consume_stream chunks fullContent toolCalls).
Proof.
  revert fullContent toolCalls. induction chunks as [| d chunks IH]; intros; simpl.
  - apply preserves_ret.
  - apply preserves_bind; [| intros ?; apply IH].
    destruct (Js.is_empty _); [apply preserves_ret | apply preserves_events_emit, p_token].
Qed.
End Quiet.

Lemma updateThread_halts env threadId title objectives :
  halts (updateThread env threadId title objectives).
Proof.
  unfold updateThread, Store.update_thread, to_thread, read_user_objectives, JSON_parse.
  frame.
Qed.

Lemma extractEntitiesFromToolResponse_returns response w :
  exists changes w',
    extractEntitiesFromToolResponse response w = (Ret changes, w').
Proof.
  unfold extractEntitiesFromToolResponse, console, emit, bind, ret.
  destruct (JSON.parse (msg_content response)) as [content |]; [| eauto].
  destruct (_ && _); eauto.
Qed.

Ltac frame_events :=
  frame;
  try (first [ apply preserves_events_call_service
             | apply preserves_events_emit
             | apply preserves_events_request ]; reflexivity).

Lemma emits_one_call {A B} p ev (answer : list Event -> Exn + A) (k : A -> M B) :
  p ev = true ->
  (forall a, preserves (same_events p) (k a)) ->
  emits_one p (bind (call_service ev answer) k).
Proof.
  intros Hp Hk w. exists ev. split; [exact Hp |].
  unfold bind, call_service.
  destruct (answer (trace w)) as [e | a].
  - simpl. rewrite filter_app. simpl. now rewrite Hp.
  - rewrite (Hk a). simpl. rewrite filter_app. simpl. now rewrite Hp.
Qed.

Lemma emits_one_after_console {A} p level text (m : M A) :
  p (EvConsole level text) = false ->
  emits_one p m -> emits_one p (bind (console level text) (fun _ => m)).
Proof.
  intros Hp Hm w. unfold bind, console, emit.
  destruct (Hm (mkWorld (threads w) (messages w) (trace w ++ [EvConsole level text])))
    as (ev & Hev & Htr).
  exists ev. split; [exact Hev |]. rewrite Htr. simpl. rewrite filter_app. simpl.
  rewrite Hp. now rewrite app_nil_r.
Qed.

Lemma emits_one_try {A} p (m : M A) (h : Exn -> M A) :
  emits_one p m -> (forall e, preserves (same_events p) (h e)) ->
  emits_one p (try_catch m h).
Proof.
  intros Hm Hh w. destruct (Hm w) as (ev & Hev & Htr). exists ev. split; [exact Hev |].
  unfold try_catch. destruct (m w) as [[a | e |] w1]; simpl in *; auto.
  rewrite (Hh e). exact Htr.
Qed.

Lemma executeDefaultAICall_emits_one env config :
  emits_one is_chat (executeDefaultAICall env config).
Proof.
  unfold executeDefaultAICall. apply emits_one_call; [reflexivity |].
  intros completion. unfold console. frame_events.
Qed.

(** Every call of [executeAICall] is one call of the model provider... *)
Lemma executeAICall_emits_one env config : emits_one is_chat (executeAICall env config).
Proof.
  unfold executeAICall. apply emits_one_try; [| intros e; frame].
  destruct (onToken config); [| apply executeDefaultAICall_emits_one].
  unfold executeStreamingAICall. destruct (responseFormat config) as [f |].
  - apply emits_one_after_console; [reflexivity | apply executeDefaultAICall_emits_one].
  - apply emits_one_call; [reflexivity |]. intros stream.
    apply preserves_bind; [apply consume_stream_quiet; reflexivity | intros r].
    destruct (snd stream); [apply preserves_throw |].
    apply processAIResponse_quiet. reflexivity.
Qed.

Lemma executeAICall_invokes_once env config w :
  model_invocations (trace (snd (executeAICall env config w)))
  = S (model_invocations (trace w)).
Proof.
  destruct (executeAICall_emits_one env config w) as (ev & _ & H).
  unfold model_invocations. rewrite H, length_app. simpl. lia.
Qed.

(** ...and no run of a tool. *)
Lemma executeAICall_runs_no_tool env config :
  preserves (same_events is_tool_run) (executeAICall env config).
Proof.
  unfold executeAICall, executeStreamingAICall, executeDefaultAICall, console.
  frame_events;
    try (apply consume_stream_quiet; reflexivity);
    try (apply processAIResponse_quiet; reflexivity).
Qed.

Lemma handleToolCall_invokes_no_model toolCall tools messages :
  preserves (same_events is_chat) (handleToolCall toolCall tools messages).
Proof.
  unfold handleToolCall, getTool, parseToolArguments, validateArgs, execute.
  frame_events.
Qed.

(** A tool call runs the function of a tool at most once, and once when
    the tool is found and its arguments are accepted. *)
Lemma handleToolCall_tool_runs toolCall tools messages w :
  let w' := snd (handleToolCall toolCall tools messages w) in
  tool_runs (trace w') <= tool_runs (trace w) + 1
  /\ (forall tool args validated,
         find (fun t => String.eqb (name t) (tc_name toolCall)) tools = Some tool ->
         JSON.parse (tc_arguments toolCall) = Some args ->
         argsSchema tool args = Some validated ->
         tool_runs (trace w') = tool_runs (trace w) + 1).
Proof.
  unfold handleToolCall, getTool, parseToolArguments, validateArgs, execute,
    call_service, try_catch, bind, ret, throwAppError, throw, tool_runs.
  destruct (find _ tools) as [tool |]; cbn.
  2: { split; [lia | intros; discriminate]. }
  destruct (JSON.parse (tc_arguments toolCall)) as [args |]; cbn.
  2: { split; [lia | intros; discriminate]. }
  destruct (argsSchema tool args) as [validated |] eqn:Hvalid; cbn.
  2: { split; [lia |]. intros t a v [= <-] [= <-]. congruence. }
  assert (Hrun : forall tr,
             List.length (filter is_tool_run (tr ++ [EvToolRun (name tool) validated]))
             = List.length (filter is_tool_run tr) + 1).
  { intros tr. rewrite filter_app, length_app. reflexivity. }
  destruct (callFunction tool (trace w) validated) as [e | result]; cbn.
  - destruct e; cbn; rewrite Hrun; (split; [lia | reflexivity]).
  - rewrite Hrun. split; [lia | reflexivity].
Qed.

(** The update of the objectives at the end of [processToolCalls]: it
    returns, whatever the store does. *)
Lemma objectives_update_returns env threadId objectives w :
  exists w',
    match objectives with
    | [] => ret tt
    | o :: l =>
        try_catch (updateThread env threadId None (Some (o :: l)) ;;; ret tt)
          (fun _ => console LogError "Fehler beim Aktualisieren der Benutzerziele:")
    end w = (Ret tt, w')
    /\ same_events is_chat w w' /\ same_events is_tool_run w w'.
Proof.
  destruct objectives as [| o objectives].
  - exists w. repeat split; reflexivity.
  - set (objs := o :: objectives).
    pose proof (updateThread_quiet is_chat (fun _ => eq_refl) env threadId None (Some objs) w)
      as Hchat.
    pose proof (updateThread_quiet is_tool_run (fun _ => eq_refl) env threadId None
                  (Some objs) w) as Htool.
    pose proof (updateThread_halts env threadId None (Some objs) w) as Hhalt.
    unfold try_catch, bind, console, emit, ret.
    destruct (updateThread env threadId None (Some objs) w) as [[t | e |] w1];
      simpl in *; [| | congruence].
    + exists w1. auto.
    + eexists. split; [reflexivity |].
      unfold same_events in *. simpl. rewrite !filter_app. simpl.
      rewrite Hchat, Htool, !app_nil_r. auto.
Qed.

(* ================================================================== *)
(** * The tool-call resolution loop                                    *)
(* ================================================================== *)

Lemma tool_loop_done fuel env config tools st w :
  requests_tools (ls_aiResult st) = false ->
  tool_loop env fuel config tools st w = (Ret st, w).
Proof.
  unfold requests_tools. intros H.
  destruct fuel; simpl; destruct (ar_toolCalls (ls_aiResult st)) as [[| tc tcs] |];
    try discriminate; reflexivity.
Qed.

(** C8.  The first invocation of the model returns exactly one tool call,
    and the second invocation, made with the history extended by the
    assistant message and the tool response, returns none.  Then, with any
    bound of at least one round, [processToolCalls] returns a response
    whose message is the text of the second invocation; the model has been
    invoked exactly twice, the one call has been handled once, and the
    function of the tool has run once (never more than once, and once as
    soon as the call names a registered tool with accepted arguments). *)
Theorem processToolCalls_one_round :
  forall env fuel config tools thread w toolCall first w1 response w2 changes w3 second w4,
    let history := cfg_messages config ++ [assistant_message first] in
    executeAICall env config w = (Ret first, w1) ->
    ar_toolCalls first = Some [toolCall] ->
    handleToolCall toolCall tools history w1 = (Ret response, w2) ->
    extractEntitiesFromToolResponse response w2 = (Ret changes, w3) ->
    executeAICall env (with_messages config (history ++ [response])) w3 = (Ret second, w4) ->
    requests_tools second = false ->
    exists w',
      processToolCalls env (S fuel) config tools thread w
      = (Ret (mkAssistantResponse (ar_message second) (th_id thread)
                (Some (created changes)) (Some (updated changes))
                (Some (deleted changes))), w')
      /\ model_invocations (trace w') = model_invocations (trace w) + 2
      /\ tool_runs (trace w') <= tool_runs (trace w) + 1
      /\ (forall tool args validated,
             find (fun t => String.eqb (name t) (tc_name toolCall)) tools = Some tool ->
             JSON.parse (tc_arguments toolCall) = Some args ->
             argsSchema tool args = Some validated ->
             tool_runs (trace w') = tool_runs (trace w) + 1).
Proof.
  intros env fuel config tools thread w toolCall first w1 response w2 changes w3 second w4
    history Hfirst Hcalls Hhandle Hextract Hsecond Hdone.
  (* one round of the loop *)
  assert (Hround :
            tool_round env config tools [toolCall]
              (mkLoopState first history (mkEntityChanges [] [] [])) w1
            = (Ret (mkLoopState second
                      ((history ++ [response]) ++ [assistant_message second]) changes),
               w4)).
  { unfold tool_round. apply try_catch_Ret. cbn [start_each ls_messages ls_changes].
    assert (Hcall : processToolCallWithEntities toolCall tools history w1
                    = (Ret (response, changes), w3)).
    { unfold processToolCallWithEntities. apply try_catch_Ret.
      rewrite (bind_Ret _ _ _ _ _ Hhandle).
      rewrite (bind_Ret _ _ _ _ _ Hextract). reflexivity. }
    assert (Hstart : start (processToolCallWithEntities toolCall tools history) w1
                     = (Ret (Fulfilled (response, changes)), w3)).
    { unfold start. now rewrite Hcall. }
    unfold bind at 1. unfold bind at 1. rewrite Hstart. cbn.
    unfold bind at 1. cbn [map fst]. rewrite Hsecond.
    destruct changes as [c u d]. reflexivity. }
  (* the end of the turn *)
  destruct (objectives_update_returns env (th_id thread) (ar_userObjectives second) w4)
    as (w' & Hupdate & Hchat & Htool).
  exists w'.
  split.
  - unfold processToolCalls. apply try_catch_Ret.
    rewrite (bind_Ret _ _ _ _ _ Hfirst). fold history.
    assert (Hloop :
              tool_loop env (S fuel) config tools
                (mkLoopState first history (mkEntityChanges [] [] [])) w1
              = (Ret (mkLoopState second
                        ((history ++ [response]) ++ [assistant_message second]) changes),
                 w4)).
    { cbn [tool_loop ls_aiResult]. rewrite Hcalls.
      rewrite (bind_Ret _ _ _ _ _ Hround).
      now apply tool_loop_done. }
    rewrite (bind_Ret _ _ _ _ _ Hloop). cbn [ls_aiResult ls_changes].
    rewrite (bind_Ret _ _ _ _ _ Hupdate). reflexivity.
  - pose proof (executeAICall_invokes_once env config w) as C1.
    rewrite Hfirst in C1. cbn [snd] in C1.
    pose proof (handleToolCall_invokes_no_model toolCall tools history w1) as C2.
    rewrite Hhandle in C2. cbn [snd] in C2.
    pose proof (extractEntitiesFromToolResponse_quiet is_chat (fun _ _ => eq_refl)
                  response w2) as C3.
    rewrite Hextract in C3. cbn [snd] in C3.
    pose proof (executeAICall_invokes_once env (with_messages config (history ++ [response]))
                  w3) as C4.
    rewrite Hsecond in C4. cbn [snd] in C4.
    pose proof (executeAICall_runs_no_tool env config w) as T1.
    rewrite Hfirst in T1. cbn [snd] in T1.
    pose proof (handleToolCall_tool_runs toolCall tools history w1) as T2.
    rewrite Hhandle in T2. cbn [snd] in T2. cbv zeta in T2. destruct T2 as [T2 T2'].
    pose proof (extractEntitiesFromToolResponse_quiet is_tool_run (fun _ _ => eq_refl)
                  response w2) as T3.
    rewrite Hextract in T3. cbn [snd] in T3.
    pose proof (executeAICall_runs_no_tool env (with_messages config (history ++ [response]))
                  w3) as T4.
    rewrite Hsecond in T4. cbn [snd] in T4.
    unfold same_events, model_invocations, tool_runs in *.
    repeat split.
    + rewrite Hchat, C4, C3, C2, C1. lia.
    + rewrite Htool, T4, T3. rewrite T1 in T2. exact T2.
    + intros tool args validated Hf Hp Hv.
      rewrite Htool, T4, T3. rewrite (T2' tool args validated Hf Hp Hv), T1. reflexivity.
Qed.

Lemma processToolCalls_one_round_witness :
  exists w',
    processToolCalls (Fixtures.stub_env Fixtures.no_faults Fixtures.asks_weather_once) 1
      Fixtures.weather_ai_config [Fixtures.get_weather] Fixtures.thread_t1
      Fixtures.three_fragments
    = (Ret (mkAssistantResponse "It is 22 degrees and sunny in Berlin." "t1"
              (Some []) (Some []) (Some [])), w')
    /\ model_invocations (trace w') = 2
    /\ tool_runs (trace w') = 1.
Proof.
  edestruct (processToolCalls_one_round
               (Fixtures.stub_env Fixtures.no_faults Fixtures.asks_weather_once) 0
               Fixtures.weather_ai_config [Fixtures.get_weather] Fixtures.thread_t1
               Fixtures.three_fragments Fixtures.weather_call)
    as (w' & Hrun & Hmodel & _ & Htool).
  - reflexivity.
  - reflexivity.
  - reflexivity.
  - reflexivity.
  - reflexivity.
  - reflexivity.
  - exists w'. split; [exact Hrun |]. split; [exact Hmodel |].
    apply (Htool Fixtures.get_weather (JObj [("location", JStr "Berlin")])
             (JObj [("location", JStr "Berlin")])); reflexivity.
Defined.

(* ================================================================== *)
(** * Directive extraction                                             *)
(* ================================================================== *)

Section Strings.
Local Open Scope string_scope.

Lemma length_append (a b : string) :
  String.length (a ++ b) = String.length a + String.length b.
Proof. induction a as [| x a IH]; simpl; [reflexivity | now rewrite IH]. Qed.

Lemma strip_prefix_app fold p x : Js.strip_prefix fold p (p ++ x) = Some x.
Proof.
  induction p as [| q p IH]; simpl; [reflexivity |].
  now rewrite Ascii.eqb_refl.
Qed.

Lemma starts_with_app fold p x : Js.starts_with fold p (p ++ x) = true.
Proof. unfold Js.starts_with. now rewrite strip_prefix_app. Qed.

(** A match that ends before the end of [a] is a match in [a]. *)
Lemma strip_prefix_within fold p a x r :
  Js.strip_prefix fold p (a ++ x) = Some r ->
  String.length p <= String.length a ->
  Js.starts_with fold p a = true.
Proof.
  unfold Js.starts_with. revert a. induction p as [| q p IH]; intros a; simpl.
  - reflexivity.
  - destruct a as [| b a]; simpl; [lia |].
    destruct (Ascii.eqb (fold q) (fold b)); [| discriminate].
    intros H Hlen. apply IH; [exact H | lia].
Qed.

(** No match runs across a character that the pattern does not have. *)
Lemma strip_prefix_across fold p a c x r :
  all_chars (fun q => negb (Ascii.eqb (fold q) (fold c))) p = true ->
  Js.strip_prefix fold p (a ++ String c x) = Some r ->
  Js.starts_with fold p a = true.
Proof.
  unfold Js.starts_with. revert a. induction p as [| q p IH]; intros a; simpl.
  - reflexivity.
  - intros Hp. apply andb_prop in Hp. destruct Hp as [Hq Hp].
    destruct a as [| b a]; simpl.
    + apply negb_true_iff in Hq. rewrite Hq. discriminate.
    + destruct (Ascii.eqb (fold q) (fold b)); [| discriminate].
      now apply IH.
Qed.

Lemma strip_prefix_get fold p s r :
  Js.strip_prefix fold p s = Some r ->
  forall i c, String.get i p = Some c ->
  exists d, String.get i s = Some d /\ fold c = fold d.
Proof.
  revert s. induction p as [| q p IH]; intros s; simpl.
  - intros _ i c H. destruct i; discriminate.
  - destruct s as [| b s]; [discriminate |].
    destruct (Ascii.eqb_spec (fold q) (fold b)) as [E |]; [| discriminate].
    intros H [| i] c Hc; simpl in *.
    + injection Hc as <-. eauto.
    + eapply IH; eauto.
Qed.

Lemma get_app_r (a b : string) i :
  String.get (String.length a + i) (a ++ b) = String.get i b.
Proof. induction a as [| x a IH]; simpl; auto. Qed.

Lemma get_app_l (a b : string) i :
  i < String.length a -> String.get i (a ++ b) = String.get i a.
Proof.
  revert i. induction a as [| x a IH]; simpl; intros i Hi; [lia |].
  destruct i; [reflexivity |]. apply IH. lia.
Qed.

Lemma occurs_false_inv fold p c s :
  Js.occurs fold p (String c s) = false ->
  Js.starts_with fold p (String c s) = false /\ Js.occurs fold p s = false.
Proof. simpl. intros H. now apply orb_false_elim in H. Qed.

Lemma occurs_false_starts fold p s :
  Js.occurs fold p s = false -> Js.starts_with fold p s = false.
Proof.
  destruct s; simpl; intros H; apply orb_false_elim in H; tauto.
Qed.

Lemma is_lt_is_ws c : Js.is_lt c = true -> Js.is_ws c = true.
Proof.
  unfold Js.is_lt, Js.is_ws. intros H.
  apply orb_true_iff in H. destruct H as [H | H]; apply Nat.eqb_eq in H; rewrite H;
    reflexivity.
Qed.

(** ** The marker of objectives *)

Lemma colon_closes_marker j :
  j < 14 -> String.get j USER_OBJECTIVE <> Some ":"%char.
Proof.
  intros Hj. do 14 (destruct j as [| j]; [discriminate |]). lia.
Qed.

(** The marker does not begin inside text that lacks it, even when the
    marker follows that text. *)
Lemma marker_not_inside a x :
  a <> EmptyString ->
  Js.starts_with Js.exact USER_OBJECTIVE a = false ->
  Js.strip_prefix Js.exact USER_OBJECTIVE (a ++ USER_OBJECTIVE ++ x) = None.
Proof.
  intros Ha Hstart.
  destruct (Js.strip_prefix Js.exact USER_OBJECTIVE (a ++ USER_OBJECTIVE ++ x))
    as [r |] eqn:E; [| reflexivity].
  exfalso.
  destruct (le_lt_dec (String.length USER_OBJECTIVE) (String.length a)) as [Hlen | Hlen].
  - rewrite (strip_prefix_within _ _ _ _ _ E Hlen) in Hstart. discriminate.
  - destruct (strip_prefix_get _ _ _ _ E 14 ":"%char eq_refl) as (d & Hd & Hc).
    unfold Js.exact in Hc. subst d.
    assert (Hn : 0 < String.length a) by (destruct a; [congruence | simpl; lia]).
    change (String.length USER_OBJECTIVE) with 15 in Hlen.
    replace 14 with (String.length a + (14 - String.length a)) in Hd by lia.
    rewrite get_app_r in Hd.
    rewrite get_app_l in Hd by (change (String.length USER_OBJECTIVE) with 15; lia).
    apply colon_closes_marker in Hd; [exact Hd | lia].
Qed.

Lemma objective_at_None s :
  Js.strip_prefix Js.exact USER_OBJECTIVE s = None -> objective_at s = None.
Proof. unfold objective_at. now intros ->. Qed.

Lemma scan_skip a k s :
  scan_objectives (String.length a + k) (a ++ s) = scan_objectives k s.
Proof. induction a as [| x a IH]; simpl; auto. Qed.

(** Text without the marker yields no objective. *)
Lemma scan_marker_free s :
  Js.occurs Js.exact USER_OBJECTIVE s = false -> scan_objectives 0 s = [].
Proof.
  induction s as [| c s IH]; [reflexivity |].
  intros H. apply occurs_false_inv in H. destruct H as [Hs Ho].
  cbn [scan_objectives]. rewrite objective_at_None; [now apply IH |].
  unfold Js.starts_with in Hs.
  now destruct (Js.strip_prefix Js.exact USER_OBJECTIVE (String c s)).
Qed.

Lemma scan_line_feed rest :
  scan_objectives 0 (Js.LF ++ rest) = scan_objectives 0 rest.
Proof. reflexivity. Qed.

(** A plain piece and its line feed are passed over. *)
Lemma scan_plain l rest :
  Js.occurs Js.exact USER_OBJECTIVE l = false ->
  scan_objectives 0 (l ++ Js.LF ++ rest) = scan_objectives 0 rest.
Proof.
  induction l as [| c l IH]; [intros _; apply scan_line_feed |].
  intros H. apply occurs_false_inv in H. destruct H as [Hs Ho].
  change ((String c l ++ Js.LF ++ rest)) with (String c (l ++ Js.LF ++ rest)).
  cbn [scan_objectives]. rewrite objective_at_None; [now apply IH |].
  destruct (Js.strip_prefix Js.exact USER_OBJECTIVE (String c (l ++ Js.LF ++ rest)))
    as [r |] eqn:E; [| reflexivity].
  exfalso.
  change (String c (l ++ Js.LF ++ rest))
    with (String c l ++ String "010"%char rest) in E.
  apply strip_prefix_across in E; [| reflexivity].
  rewrite E in Hs. discriminate.
Qed.

(** The text before the marker of a directive piece is passed over. *)
Lemma scan_before_marker pre x :
  Js.occurs Js.exact USER_OBJECTIVE pre = false ->
  scan_objectives 0 (pre ++ USER_OBJECTIVE ++ x) = scan_objectives 0 (USER_OBJECTIVE ++ x).
Proof.
  induction pre as [| c pre IH]; [reflexivity |].
  intros H. apply occurs_false_inv in H. destruct H as [Hs Ho].
  change (String c pre ++ USER_OBJECTIVE ++ x)
    with (String c (pre ++ USER_OBJECTIVE ++ x)).
  cbn [scan_objectives]. rewrite objective_at_None; [now apply IH |].
  apply (marker_not_inside (String c pre) x); [discriminate | exact Hs].
Qed.

Lemma line_rest_body body rest :
  all_chars (fun x => negb (Js.is_lt x)) body = true ->
  line_rest (body ++ Js.LF ++ rest) = (body, Js.LF ++ rest).
Proof.
  induction body as [| c body IH]; [reflexivity |].
  simpl. intros H. apply andb_prop in H. destruct H as [Hc Hb].
  apply negb_true_iff in Hc. rewrite Hc.
  change (body ++ String "010"%char rest) with (body ++ Js.LF ++ rest).
  now rewrite (IH Hb).
Qed.

Lemma ws_then_line_directive ws c body rest :
  all_chars Js.is_ws ws = true ->
  Js.is_ws c = false ->
  all_chars (fun x => negb (Js.is_lt x)) body = true ->
  ws_then_line (ws ++ String c body ++ Js.LF ++ rest)
  = Some (String c body, Js.LF ++ rest).
Proof.
  intros Hws Hc Hbody.
  assert (Hline : dot_plus_eol (String c body ++ Js.LF ++ rest)
                  = Some (String c body, Js.LF ++ rest)).
  { unfold dot_plus_eol.
    rewrite (line_rest_body (String c body) rest); [reflexivity |].
    simpl. rewrite Hbody. destruct (Js.is_lt c) eqn:E; [| reflexivity].
    apply is_lt_is_ws in E. congruence. }
  induction ws as [| b ws IH].
  - change (EmptyString ++ String c body ++ Js.LF ++ rest)
      with (String c (body ++ Js.LF ++ rest)).
    cbn [ws_then_line]. rewrite Hc. exact Hline.
  - simpl in Hws. apply andb_prop in Hws. destruct Hws as [Hb Hws].
    change (String b ws ++ String c body ++ Js.LF ++ rest)
      with (String b (ws ++ String c body ++ Js.LF ++ rest)).
    cbn [ws_then_line]. rewrite Hb. now rewrite (IH Hws).
Qed.

(** A directive piece yields its objective, and the scan goes on after
    the line feed. *)
Lemma scan_directive pre ws c body rest :
  Js.occurs Js.exact USER_OBJECTIVE pre = false ->
  all_chars Js.is_ws ws = true ->
  Js.is_ws c = false ->
  all_chars (fun x => negb (Js.is_lt x)) body = true ->
  scan_objectives 0 ((pre ++ USER_OBJECTIVE ++ ws ++ String c body) ++ Js.LF ++ rest)
  = Js.trim (String c body) :: scan_objectives 0 rest.
Proof.
  intros Hpre Hws Hc Hbody.
  rewrite !append_assoc.
  rewrite (scan_before_marker pre _ Hpre).
  set (tail := ws ++ String c body ++ Js.LF ++ rest).
  assert (Hat : objective_at (USER_OBJECTIVE ++ tail)
                = Some (String c body, Js.LF ++ rest)).
  { unfold objective_at. rewrite strip_prefix_app.
    apply ws_then_line_directive; assumption. }
  change (USER_OBJECTIVE ++ tail) with (String "U" ("SER_OBJECTIVE:" ++ tail)) in *.
  cbn [scan_objectives]. rewrite Hat. f_equal.
  set (inside := "SER_OBJECTIVE:" ++ ws ++ String c body).
  assert (Hsplit : "SER_OBJECTIVE:" ++ tail = inside ++ Js.LF ++ rest).
  { unfold inside, tail. now rewrite !append_assoc. }
  rewrite Hsplit.
  replace (String.length (String "U" (inside ++ Js.LF ++ rest))
           - String.length (Js.LF ++ rest) - 1)
    with (String.length inside + 0).
  - rewrite scan_skip. apply scan_line_feed.
  - cbn [String.length]. rewrite length_append. lia.
Qed.

(** The objectives of a text made of pieces. *)
Lemma scan_segments segments marks tail :
  Forall2 Segment segments marks ->
  Js.occurs Js.exact USER_OBJECTIVE tail = false ->
  extractUserObjectives (segments_text segments ++ tail) = objectives_of marks.
Proof.
  unfold extractUserObjectives.
  induction 1 as [| l m segments marks Hseg Hrest IH]; intros Htail.
  - apply scan_marker_free, Htail.
  - cbn [segments_text].
    rewrite (append_assoc l), (append_assoc Js.LF).
    destruct Hseg as [l Hl | pre ws c body Hpre Hws Hc Hbody].
    + rewrite (scan_plain l _ Hl). cbn [objectives_of]. now apply IH.
    + rewrite (scan_directive pre ws c body _ Hpre Hws Hc Hbody).
      cbn [objectives_of]. f_equal. now apply IH.
Qed.
End Strings.

Section Blocks.
Local Open Scope string_scope.

Lemma no_stop_here stops s :
  Forall (fun stop => Js.occurs Js.upper stop s = false) stops ->
  existsb (fun p => Js.starts_with Js.upper p s) stops = false.
Proof.
  induction 1 as [| stop stops Hstop _ IH]; [reflexivity |].
  simpl. rewrite IH. now rewrite (occurs_false_starts _ _ _ Hstop).
Qed.

Lemma lazy_until_free stops block :
  Forall (fun stop => Js.occurs Js.upper stop block = false) stops ->
  lazy_until stops block = block.
Proof.
  induction block as [| c block IH]; [reflexivity |].
  intros H. cbn [lazy_until]. rewrite (no_stop_here _ _ H). f_equal. apply IH.
  eapply Forall_impl; [| exact H]. intros stop Hs.
  now apply occurs_false_inv in Hs.
Qed.

(** A piece without the marker of created entities, and its line feed,
    are passed over by the search for that marker. *)
Lemma match_block_plain stops l rest :
  Js.occurs Js.upper "CREATED:" l = false ->
  match_block "CREATED:" stops (l ++ Js.LF ++ rest) = match_block "CREATED:" stops rest.
Proof.
  induction l as [| c l IH].
  - intros _. destruct rest; reflexivity.
  - intros H. apply occurs_false_inv in H. destruct H as [Hs Ho].
    change (String c l ++ Js.LF ++ rest) with (String c (l ++ Js.LF ++ rest)).
    cbn [match_block].
    destruct (Js.strip_prefix Js.upper "CREATED:" (String c (l ++ Js.LF ++ rest)))
      as [r |] eqn:E; [| now apply IH].
    exfalso.
    change (String c (l ++ Js.LF ++ rest)) with (String c l ++ String "010"%char rest) in E.
    apply strip_prefix_across in E; [| reflexivity].
    rewrite E in Hs. discriminate.
Qed.

Lemma match_block_after_segments stops segments block :
  Forall (fun l => Js.occurs Js.upper "CREATED:" l = false) segments ->
  match_block "CREATED:" stops (segments_text segments ++ "CREATED:" ++ block)
  = Some (lazy_until stops block).
Proof.
  induction 1 as [| l segments Hl _ IH]; cbn [segments_text].
  - change (EmptyString ++ "CREATED:" ++ block) with ("CREATED:" ++ block).
    destruct block; reflexivity.
  - rewrite (append_assoc l), (append_assoc Js.LF).
    rewrite (match_block_plain stops l _ Hl). exact IH.
Qed.

Lemma parse_block_returns label m w :
  exists w',
    parse_block label m w
    = (Ret (match m with Some group => block_entities group | None => [] end), w').
Proof.
  unfold parse_block, block_entities, console, emit, bind, ret.
  destruct m as [group |]; [| eauto].
  destruct group as [| c group]; [eauto |]. cbn [Js.is_empty].
  destruct (Js.trim (String c group)) as [| d t]; [eauto |]. cbn [Js.is_empty].
  destruct (JSON.parse (String d t)); eauto.
Qed.
End Blocks.

(** [extractEntityChanges] returns for every text: a block that is not
    JSON is logged and leaves its list empty.  The created-list is what the
    text between the first [CREATED:] and the next [UPDATED:] or [DELETED:],
    or else the end of the text, yields. *)
Lemma extractEntityChanges_returns content w :
  exists changes w',
    extractEntityChanges content w = (Ret changes, w')
    /\ created changes
       = match match_block "CREATED:" ["UPDATED:"; "DELETED:"] content with
         | Some group => block_entities group
         | None => []
         end.
Proof.
  unfold extractEntityChanges.
  destruct (parse_block_returns "CREATED"
              (match_block "CREATED:" ["UPDATED:"; "DELETED:"] content) w) as (w1 & H1).
  destruct (parse_block_returns "UPDATED"
              (match_block "UPDATED:" ["CREATED:"; "DELETED:"] content) w1) as (w2 & H2).
  destruct (parse_block_returns "DELETED"
              (match_block "DELETED:" ["CREATED:"; "UPDATED:"] content) w2) as (w3 & H3).
  rewrite (bind_Ret _ _ _ _ _ H1), (bind_Ret _ _ _ _ _ H2), (bind_Ret _ _ _ _ _ H3).
  do 2 eexists. split; reflexivity.
Qed.

(** What the code does when the created-list comes last.  The text is made
    of pieces that end at a line feed, followed by one [CREATED:] block
    that runs to the end of the text; neither the pieces nor the block
    contain a further marker.  Then [extractUserObjectives] returns the
    objectives of the directive pieces, trimmed and in order, and the
    created-list of [extractEntityChanges] is the array of the block. *)
Lemma extraction_with_the_block_last :
  forall segments marks block items w,
    Forall2 Segment segments marks ->
    Forall (fun l => Js.occurs Js.upper "CREATED:" l = false) segments ->
    Js.occurs Js.exact USER_OBJECTIVE block = false ->
    Js.occurs Js.upper "UPDATED:" block = false ->
    Js.occurs Js.upper "DELETED:" block = false ->
    JSON.parse (Js.trim block) = Some (JArr items) ->
    let content := (segments_text segments ++ "CREATED:" ++ block)%string in
    extractUserObjectives content = objectives_of marks
    /\ exists changes w',
        extractEntityChanges content w = (Ret changes, w')
        /\ created changes = items.
Proof.
  intros segments marks block items w Hseg Hcreated Hobj Hupd Hdel Hitems content.
  split.
  - apply scan_segments; [exact Hseg |]. cbn. exact Hobj.
  - destruct (extractEntityChanges_returns content w) as (changes & w' & Hrun & Hlist).
    exists changes, w'. split; [exact Hrun |].
    rewrite Hlist. unfold content.
    rewrite match_block_after_segments by exact Hcreated.
    rewrite lazy_until_free by (repeat constructor; assumption).
    unfold block_entities. rewrite Hitems. reflexivity.
Qed.

(** C9 (the code departs from the claim).  A reply has two objective lines
    and the well-formed created-list [[1, 2]].  With the created-list last,
    extraction returns the two objectives and the two entities.  With the
    created-list first, the block runs on to the end of the text, takes
    the objective lines with it and is not JSON any more: the two
    objectives are returned, the failure is logged and the created-list is
    empty.  The same happens to the reply of the README, whose entity is
    returned when the array ends the reply and lost when a closing sentence
    follows the array.  The second half of the claim holds: a block that is
    not JSON gives an empty created-list, and no text makes the extraction
    throw. *)
Theorem created_list_lost_before_further_text :
  let objectives := ["Complete the project"; "Submit the report"] in
  let failed := EvConsole LogDebug "Failed to parse CREATED entities:" in
  JSON.parse "[1, 2]" = Some (JArr [JNum 1 0; JNum 2 0])
  /\ extractUserObjectives Fixtures.created_last = objectives
  /\ extractEntityChanges Fixtures.created_last Fixtures.empty_world
     = (Ret (mkEntityChanges [JNum 1 0; JNum 2 0] [] []), Fixtures.empty_world)
  /\ extractUserObjectives Fixtures.created_first = objectives
  /\ extractEntityChanges Fixtures.created_first Fixtures.empty_world
     = (Ret (mkEntityChanges [] [] []), logged failed Fixtures.empty_world)
  /\ extractEntityChanges Fixtures.created_reply Fixtures.empty_world
     = (Ret (mkEntityChanges [JObj [("id", JStr "123"); ("type", JStr "task")]] [] []),
        Fixtures.empty_world)
  /\ extractEntityChanges Fixtures.created_then_question Fixtures.empty_world
     = (Ret (mkEntityChanges [] [] []), logged failed Fixtures.empty_world)
  /\ extractEntityChanges Fixtures.created_malformed Fixtures.empty_world
     = (Ret (mkEntityChanges [] [] []), logged failed Fixtures.empty_world)
  /\ forall content w, exists changes w',
       extractEntityChanges content w = (Ret changes, w').
Proof.
  cbv zeta.
  do 8 (split; [vm_compute; reflexivity |]).
  intros content w.
  destruct (extractEntityChanges_returns content w) as (changes & w' & Hrun & _).
  now exists changes, w'.
Qed.

(** The pieces of [Fixtures.created_last] are of the kind that
    [extraction_with_the_block_last] speaks of. *)
Example extraction_with_the_block_last_example :
  extractUserObjectives Fixtures.created_last
  = ["Complete the project"; "Submit the report"]
  /\ exists changes w',
      extractEntityChanges Fixtures.created_last Fixtures.empty_world = (Ret changes, w')
      /\ created changes = [JNum 1 0; JNum 2 0].
Proof.
  apply (extraction_with_the_block_last
           Fixtures.directive_segments
           [None; Some "Complete the project"; Some "Submit the report"]
           Fixtures.created_block [JNum 1 0; JNum 2 0] Fixtures.empty_world).
  - constructor; [apply Plain; reflexivity |].
    constructor;
      [apply (Directive EmptyString " " "C" "omplete the project"); reflexivity |].
    constructor;
      [apply (Directive EmptyString "  " "S" "ubmit the report "); reflexivity |].
    constructor.
  - repeat constructor.
  - reflexivity.
  - reflexivity.
  - reflexivity.
  - reflexivity.
Qed.

(* ================================================================== *)
(** * Persistence of a turn                                            *)
(* ================================================================== *)

Ltac frame_messages :=
  frame;
  try (first [ apply preserves_messages_call_service
             | apply preserves_messages_emit
             | apply preserves_messages_request;
               let w := fresh "w" in
               intros w;
               repeat match goal with
                 | |- context [match ?x with _ => _ end] => destruct x
                 end;
               reflexivity ]).

Section MessagesFrame.
Variable env : Env.

Lemma generateEmbeddings_keeps_messages text :
  preserves same_messages (generateEmbeddings env text).
Proof. unfold generateEmbeddings. frame_messages. Qed.

Lemma updateThread_keeps_messages threadId title objectives :
  preserves same_messages (updateThread env threadId title objectives).
Proof.
  unfold updateThread, Store.update_thread, to_thread, read_user_objectives, JSON_parse.
  frame_messages.
Qed.

Lemma getNextOrderIndex_keeps_messages threadId :
  preserves same_messages (getNextOrderIndex env threadId).
Proof. unfold getNextOrderIndex, Store.select_top_order_index. frame_messages. Qed.

Lemma readThread_keeps_messages threadId :
  preserves same_messages (readThread env threadId).
Proof.
  unfold readThread, Store.select_thread, to_thread, read_user_objectives, JSON_parse.
  frame_messages.
Qed.

Lemma createThread_keeps_messages userId title :
  preserves same_messages (createThread env userId title).
Proof.
  unfold createThread, Store.insert_thread, to_thread, read_user_objectives, JSON_parse.
  frame_messages.
Qed.

Lemma findSimilarMessages_keeps_messages threadId query similarity matchCount :
  preserves same_messages (findSimilarMessages env threadId query similarity matchCount).
Proof.
  unfold findSimilarMessages, Store.rpc_match_embeddings.
  frame_messages; apply generateEmbeddings_keeps_messages.
Qed.

Lemma getThread_keeps_messages config request :
  preserves same_messages (getThread env config request).
Proof.
  unfold getThread.
  frame_messages; first [apply readThread_keeps_messages | apply createThread_keeps_messages].
Qed.

Lemma prepareProcess_keeps_messages config request thread :
  preserves same_messages (prepareProcess env config request thread).
Proof.
  unfold prepareProcess, system_content.
  frame_messages; apply findSimilarMessages_keeps_messages.
Qed.

Lemma consume_stream_keeps_messages chunks fullContent toolCalls :
  preserves same_messages (consume_stream chunks fullContent toolCalls).
Proof.
  revert fullContent toolCalls. induction chunks as [| d chunks IH]; intros; simpl.
  - apply preserves_ret.
  - apply preserves_bind; [| intros ?; apply IH].
    destruct (Js.is_empty _); [apply preserves_ret | apply preserves_messages_emit].
Qed.

Lemma processAIResponse_keeps_messages content toolCalls structuredData :
  preserves same_messages (processAIResponse content toolCalls structuredData).
Proof.
  unfold processAIResponse, extractEntityChanges, parse_block, console.
  frame_messages.
Qed.

Lemma executeAICall_keeps_messages config :
  preserves same_messages (executeAICall env config).
Proof.
  unfold executeAICall, executeStreamingAICall, executeDefaultAICall, console.
  frame_messages;
    first [apply consume_stream_keeps_messages | apply processAIResponse_keeps_messages].
Qed.

Lemma processToolCallWithEntities_keeps_messages toolCall tools history :
  preserves same_messages (processToolCallWithEntities toolCall tools history).
Proof.
  unfold processToolCallWithEntities, handleToolCall, getTool, parseToolArguments,
    validateArgs, execute, extractEntitiesFromToolResponse, console.
  frame_messages.
Qed.

Lemma tool_loop_keeps_messages fuel config tools st :
  preserves same_messages (tool_loop env fuel config tools st).
Proof.
  revert st. induction fuel as [| fuel IH]; intros st; simpl;
    destruct (ar_toolCalls (ls_aiResult st)) as [[| tc tcs] |];
    try apply preserves_ret; try apply preserves_out_of_fuel.
  apply preserves_bind; [| intros st'; apply IH].
  unfold tool_round.
  frame_messages;
    first [apply processToolCallWithEntities_keeps_messages
          | apply executeAICall_keeps_messages].
Qed.

Lemma processToolCalls_keeps_messages fuel config tools thread :
  preserves same_messages (processToolCalls env fuel config tools thread).
Proof.
  unfold processToolCalls, console.
  frame_messages;
    first [apply executeAICall_keeps_messages
          | apply tool_loop_keeps_messages
          | apply updateThread_keeps_messages].
Qed.
End MessagesFrame.

#[export] Instance trace_extends_frame : Frame trace_extends.
Proof.
  split.
  - intros w. exists []. now rewrite app_nil_r.
  - intros a b c [x Hx] [y Hy]. exists (x ++ y). now rewrite Hy, Hx, app_assoc.
Qed.

Lemma extends_emit ev : preserves trace_extends (emit ev).
Proof. intros w. now exists [ev]. Qed.

Lemma extends_call_service {A} ev (answer : list Event -> Exn + A) :
  preserves trace_extends (call_service ev answer).
Proof. intros w. unfold call_service. destruct (answer (trace w)); now exists [ev]. Qed.

Lemma extends_request {A} env op
      (exec : World -> DbResponse A * (list ThreadRow * list MessageRow)) :
  preserves trace_extends (Store.request env op exec).
Proof.
  intros w. unfold Store.request.
  destruct (store_error env (trace w) op); [| destruct (exec w)]; now exists [EvStore op].
Qed.

Ltac frame_trace :=
  frame;
  try (first [ apply extends_call_service
             | apply extends_emit
             | apply extends_request ]).

(** Every step of a turn adds to the trace and takes nothing from it. *)
Section TraceFrame.
Variable env : Env.

Lemma generateEmbeddings_extends text :
  preserves trace_extends (generateEmbeddings env text).
Proof. unfold generateEmbeddings. frame_trace. Qed.

Lemma updateThread_extends threadId title objectives :
  preserves trace_extends (updateThread env threadId title objectives).
Proof.
  unfold updateThread, Store.update_thread, to_thread, read_user_objectives, JSON_parse.
  frame_trace.
Qed.

Lemma readThread_extends threadId : preserves trace_extends (readThread env threadId).
Proof.
  unfold readThread, Store.select_thread, to_thread, read_user_objectives, JSON_parse.
  frame_trace.
Qed.

Lemma createThread_extends userId title :
  preserves trace_extends (createThread env userId title).
Proof.
  unfold createThread, Store.insert_thread, to_thread, read_user_objectives, JSON_parse.
  frame_trace.
Qed.

Lemma createMessage_extends threadId orderIndex chunkIndex role content embedding :
  preserves trace_extends
    (createMessage env threadId orderIndex chunkIndex role content embedding).
Proof. unfold createMessage, Store.insert_message. frame_trace. Qed.

Lemma findSimilarMessages_extends threadId query similarity matchCount :
  preserves trace_extends (findSimilarMessages env threadId query similarity matchCount).
Proof.
  unfold findSimilarMessages, Store.rpc_match_embeddings.
  frame_trace; apply generateEmbeddings_extends.
Qed.

Lemma getThread_extends config request :
  preserves trace_extends (getThread env config request).
Proof.
  unfold getThread.
  frame_trace; first [apply readThread_extends | apply createThread_extends].
Qed.

Lemma prepareProcess_extends config request thread :
  preserves trace_extends (prepareProcess env config request thread).
Proof.
  unfold prepareProcess, system_content.
  frame_trace; apply findSimilarMessages_extends.
Qed.

Lemma consume_stream_extends chunks fullContent toolCalls :
  preserves trace_extends (consume_stream chunks fullContent toolCalls).
Proof.
  revert fullContent toolCalls. induction chunks as [| d chunks IH]; intros; simpl.
  - apply preserves_ret.
  - apply preserves_bind; [| intros ?; apply IH].
    destruct (Js.is_empty _); [apply preserves_ret | apply extends_emit].
Qed.

Lemma processAIResponse_extends content toolCalls structuredData :
  preserves trace_extends (processAIResponse content toolCalls structuredData).
Proof.
  unfold processAIResponse, extractEntityChanges, parse_block, console.
  frame_trace.
Qed.

Lemma executeAICall_extends config : preserves trace_extends (executeAICall env config).
Proof.
  unfold executeAICall, executeStreamingAICall, executeDefaultAICall, console.
  frame_trace;
    first [apply consume_stream_extends | apply processAIResponse_extends].
Qed.

Lemma processToolCallWithEntities_extends toolCall tools history :
  preserves trace_extends (processToolCallWithEntities toolCall tools history).
Proof.
  unfold processToolCallWithEntities, handleToolCall, getTool, parseToolArguments,
    validateArgs, execute, extractEntitiesFromToolResponse, console.
  frame_trace.
Qed.

Lemma tool_loop_extends fuel config tools st :
  preserves trace_extends (tool_loop env fuel config tools st).
Proof.
  revert st. induction fuel as [| fuel IH]; intros st; simpl;
    destruct (ar_toolCalls (ls_aiResult st)) as [[| tc tcs] |];
    try apply preserves_ret; try apply preserves_out_of_fuel.
  apply preserves_bind; [| intros st'; apply IH].
  unfold tool_round.
  frame_trace;
    first [apply processToolCallWithEntities_extends | apply executeAICall_extends].
Qed.

Lemma processToolCalls_extends fuel config tools thread :
  preserves trace_extends (processToolCalls env fuel config tools thread).
Proof.
  unfold processToolCalls, console.
  frame_trace;
    first [apply executeAICall_extends
          | apply tool_loop_extends
          | apply updateThread_extends].
Qed.

Lemma generateEmbeddingChunks_extends text :
  preserves trace_extends (generateEmbeddingChunks env text).
Proof.
  unfold generateEmbeddingChunks, splitTextIntoChunks.
  frame_trace; apply generateEmbeddings_extends.
Qed.

Lemma updateMessages_extends text threadId role orderIndex :
  preserves trace_extends (updateMessages env text threadId role orderIndex).
Proof.
  unfold updateMessages.
  frame_trace; first [apply generateEmbeddingChunks_extends | apply createMessage_extends].
Qed.
End TraceFrame.

(** The step [m] has run from [w] to [w']. *)
Lemma extends_run {A} (m : M A) w o w' :
  preserves trace_extends m -> m w = (o, w') -> trace_extends w w'.
Proof. intros P H. specialize (P w). now rewrite H in P. Qed.

Lemma start_Ret_inv {A} (m : M A) w p w' :
  start m w = (Ret p, w') ->
  (exists a, p = Fulfilled a /\ m w = (Ret a, w'))
  \/ (exists e, p = Rejected e /\ m w = (Throw e, w')).
Proof.
  unfold start. destruct (m w) as [[a | e |] w1]; intros H; inversion H; subst; eauto.
Qed.

Lemma await_Ret_inv {A} (p : Promise A) w a w' :
  await p w = (Ret a, w') -> p = Fulfilled a /\ w' = w.
Proof. unfold await. destruct p; intros H; inversion H; auto. Qed.

Lemma start_fulfilled_inv {A} (m : M A) w a w' :
  start m w = (Ret (Fulfilled a), w') -> m w = (Ret a, w').
Proof.
  intros H. apply start_Ret_inv in H.
  destruct H as [(x & Hx & H) | (e & He & _)]; [| discriminate].
  now injection Hx as <-.
Qed.

Section TurnPersistence.
Variable env : Env.

Lemma createMessage_Ret_inv threadId orderIndex chunkIndex role content embedding w me w' :
  createMessage env threadId orderIndex chunkIndex role content embedding w = (Ret me, w') ->
  exists row,
    messages w' = messages w ++ [row]
    /\ is_fragment row threadId orderIndex chunkIndex role content embedding.
Proof.
  unfold createMessage, Store.insert_message, Store.request, try_catch, bind.
  destruct (store_error env (trace w) _) as [e |].
  - cbn. destruct (String.eqb (pg_code e) "PGRST116"); cbn; discriminate.
  - destruct (negb (Store.role_allowed role)); [cbn; discriminate |].
    destruct (Store.find_thread threadId (threads w)); [| cbn; discriminate].
    destruct (Store.fragment_exists threadId orderIndex chunkIndex (messages w));
      [cbn; discriminate |].
    cbn. intros H. injection H as _ <-. cbn.
    eexists. split; [reflexivity |]. repeat split.
Qed.

Lemma generateEmbeddings_Ret_inv text w e w' :
  generateEmbeddings env text w = (Ret e, w') -> embedding_of env text e.
Proof.
  unfold generateEmbeddings. intros H. apply try_rethrow_Ret_inv in H.
  unfold bind, call_service, ret in H.
  destruct (embedQuery env (trace w) text) as [x | v] eqn:E; [discriminate |].
  injection H as <- _. now exists (trace w), v.
Qed.

Lemma getNextOrderIndex_Ret_inv threadId w k w' :
  getNextOrderIndex env threadId w = (Ret k, w') ->
  messages w' = messages w
  /\ trace w' = trace w ++ [EvStore (SelectTopOrderIndex threadId)]
  /\ next_order_index env (trace w) threadId (messages w) k.
Proof.
  intros H.
  unfold getNextOrderIndex, Store.select_top_order_index, Store.request,
    try_catch, bind, next_order_index in *.
  destruct (store_error env (trace w) _) as [e |].
  - cbn in H. destruct (String.eqb (pg_code e) "PGRST116"); cbn in H; [discriminate |].
    injection H as <- <-. auto.
  - cbn in H.
    destruct (Store.top_order_index threadId (messages w)) as [m |] eqn:T; cbn in H.
    + injection H as <- <-. repeat split. left. exists m. split.
      * now apply top_order_index_highest.
      * destruct (m =? 0)%Z eqn:E; [apply Z.eqb_eq in E; subst |]; reflexivity.
    + injection H as <- <-. repeat split. right.
      split; [now apply top_order_index_None | reflexivity].
Qed.

(** The rows that the [createMessage] calls of [updateMessages] add, when
    all of them succeed. *)
Lemma chunk_inserts threadId orderIndex role chunks :
  forall i w ps w' l,
    start_each_indexed
      (fun embedding j =>
         createMessage env threadId orderIndex j role
           (ec_content embedding) (ec_embedding embedding)) i chunks w = (Ret ps, w') ->
    all_settled ps = Fulfilled l ->
    exists rows,
      messages w' = messages w ++ rows
      /\ chunk_rows threadId orderIndex role i chunks rows.
Proof.
  induction chunks as [| ch chunks IH]; intros i w ps w' l H Hall; cbn in H.
  - injection H as <- <-. exists []. split; [now rewrite app_nil_r | exact I].
  - apply bind_Ret_inv in H. destruct H as (p & w1 & Hp & H).
    apply bind_Ret_inv in H. destruct H as (ps' & w2 & Hps & H).
    injection H as <- <-. cbn in Hall.
    destruct p as [me | e]; [| discriminate].
    destruct (all_settled ps') as [l' | e] eqn:Hall'; [| discriminate].
    apply start_fulfilled_inv in Hp.
    apply createMessage_Ret_inv in Hp. destruct Hp as (row & Hrow & Hfrag).
    destruct (IH _ _ _ _ _ Hps Hall') as (rows & Hrows & Hchunks).
    exists (row :: rows). split.
    + rewrite Hrows, Hrow, <- app_assoc. reflexivity.
    + split; assumption.
Qed.

Lemma snippet_embeddings snippets :
  forall w ps w' chunks,
    start_each
      (fun snippet =>
         embedding <- generateEmbeddings env snippet ;;
         ret (mkEmbeddingChunk snippet embedding)) snippets w = (Ret ps, w') ->
    all_settled ps = Fulfilled chunks ->
    map ec_content chunks = snippets
    /\ Forall (fun ch => embedding_of env (ec_content ch) (ec_embedding ch)) chunks.
Proof.
  induction snippets as [| s snippets IH]; intros w ps w' chunks H Hall; cbn in H.
  - injection H as <- _. cbn in Hall. injection Hall as <-. split; constructor.
  - apply bind_Ret_inv in H. destruct H as (p & w1 & Hp & H).
    apply bind_Ret_inv in H. destruct H as (ps' & w2 & Hps & H).
    injection H as <- _. cbn in Hall.
    destruct p as [ch | e]; [| discriminate].
    destruct (all_settled ps') as [l' | e] eqn:Hall'; [| discriminate].
    injection Hall as <-.
    apply start_fulfilled_inv in Hp.
    apply bind_Ret_inv in Hp. destruct Hp as (emb & w3 & Hemb & Hch).
    injection Hch as <- _.
    apply generateEmbeddings_Ret_inv in Hemb.
    destruct (IH _ _ _ _ Hps Hall') as (Hmap & Hall'').
    split; [cbn; now rewrite Hmap | now constructor].
Qed.

Lemma generateEmbeddingChunks_keeps_messages text :
  preserves same_messages (generateEmbeddingChunks env text).
Proof.
  unfold generateEmbeddingChunks, splitTextIntoChunks.
  frame_messages; apply generateEmbeddings_keeps_messages.
Qed.

Lemma generateEmbeddingChunks_Ret_inv text w chunks w' :
  generateEmbeddingChunks env text w = (Ret chunks, w') ->
  messages w' = messages w /\ chunks_of env text chunks.
Proof.
  intros H. split.
  - pose proof (generateEmbeddingChunks_keeps_messages text w) as F.
    now rewrite H in F.
  - unfold generateEmbeddingChunks in H. apply try_rethrow_Ret_inv in H.
    apply bind_Ret_inv in H. destruct H as (snippets & w1 & Hsplit & H).
    apply bind_Ret_inv in H. destruct H as (ps & w2 & Hps & H).
    apply await_Ret_inv in H. destruct H as [Hall _].
    destruct (snippet_embeddings _ _ _ _ _ Hps Hall) as (Hmap & Hemb).
    split; [| exact Hemb].
    unfold splitTextIntoChunks in Hsplit. apply try_rethrow_Ret_inv in Hsplit.
    unfold call_service in Hsplit.
    destruct (splitText env (trace w) text) as [x | l] eqn:E; [discriminate |].
    injection Hsplit as <- _. exists (trace w). now rewrite Hmap.
Qed.

Lemma updateMessages_Ret_inv text threadId role orderIndex w u w' :
  updateMessages env text threadId role orderIndex w = (Ret u, w') ->
  exists chunks rows,
    messages w' = messages w ++ rows
    /\ chunks_of env text chunks
    /\ chunk_rows threadId orderIndex role 0 chunks rows.
Proof.
  unfold updateMessages. intros H. apply try_rethrow_Ret_inv in H.
  apply bind_Ret_inv in H. destruct H as (chunks & w1 & Hchunks & H).
  apply bind_Ret_inv in H. destruct H as (ps & w2 & Hps & H).
  apply bind_Ret_inv in H. destruct H as (l & w3 & Hall & H).
  injection H as _ <-.
  apply await_Ret_inv in Hall. destruct Hall as [Hall ->].
  apply generateEmbeddingChunks_Ret_inv in Hchunks. destruct Hchunks as [Hm Hc].
  destruct (chunk_inserts _ _ _ _ _ _ _ _ _ Hps Hall) as (rows & Hrows & Hcr).
  exists chunks, rows. rewrite Hrows, Hm. auto.
Qed.

(** The post-process step reads the next order index first, then stores
    the chunks of the two messages. *)
Lemma postProcess_Ret_inv request thread response w u w' :
  postProcess env request thread response w = (Ret u, w') ->
  exists k userChunks replyChunks userRows replyRows after,
    messages w' = messages w ++ userRows ++ replyRows
    /\ trace w' = trace w ++ EvStore (SelectTopOrderIndex (th_id thread)) :: after
    /\ next_order_index env (trace w) (th_id thread) (messages w) k
    /\ chunks_of env (rq_message request) userChunks
    /\ chunk_rows (th_id thread) k ChatRole_User 0 userChunks userRows
    /\ chunks_of env (rs_message response) replyChunks
    /\ chunk_rows (th_id thread) (k + 1) ChatRole_Assistant 0 replyChunks replyRows.
Proof.
  unfold postProcess. intros H. apply try_rethrow_Ret_inv in H.
  apply bind_Ret_inv in H. destruct H as (k & w1 & Hk & H).
  apply bind_Ret_inv in H. destruct H as (pu & w2 & Hu & H).
  apply bind_Ret_inv in H. destruct H as (pa & w3 & Ha & H).
  apply bind_Ret_inv in H. destruct H as (l & w4 & Hall & H).
  injection H as _ <-.
  apply await_Ret_inv in Hall. destruct Hall as [Hall ->].
  cbn in Hall. destruct pu as [uu | e]; [| discriminate].
  destruct pa as [ua | e]; [| discriminate].
  apply start_fulfilled_inv in Hu. apply start_fulfilled_inv in Ha.
  destruct (extends_run _ _ _ _ (updateMessages_extends env _ _ _ _) Hu) as [tu Htu].
  destruct (extends_run _ _ _ _ (updateMessages_extends env _ _ _ _) Ha) as [ta Hta].
  apply getNextOrderIndex_Ret_inv in Hk. destruct Hk as (Hm & Htr & Hk).
  apply updateMessages_Ret_inv in Hu.
  destruct Hu as (userChunks & userRows & Hur & Huc & Hucr).
  apply updateMessages_Ret_inv in Ha.
  destruct Ha as (replyChunks & replyRows & Har & Hac & Hacr).
  exists k, userChunks, replyChunks, userRows, replyRows, (tu ++ ta).
  split; [rewrite Har, Hur, Hm, <- app_assoc; reflexivity |].
  split; [rewrite Hta, Htu, Htr, <- !app_assoc; reflexivity |].
  auto 10.
Qed.
End TurnPersistence.

Section ProcessStep.
Variable env : Env.
Variable config : AssistantConfig.

(** The process step of an assistant without tools: one row, for the
    reply, at the order index read before. *)
Lemma processRequest_plain_Ret_inv fuel aiConfig thread w resp w' :
  match cf_tools config with Some (_ :: _) => False | _ => True end ->
  processRequest env config fuel aiConfig thread w = (Ret resp, w') ->
  exists row e k0 before between,
    messages w' = messages w ++ [row]
    /\ trace w'
       = trace w ++ before ++ EvStore (SelectTopOrderIndex (th_id thread)) :: between
    /\ is_fragment row (th_id thread) k0 0 ChatRole_Assistant (rs_message resp) e
    /\ embedding_of env (rs_message resp) e
    /\ next_order_index env (trace w ++ before) (th_id thread) (messages w) k0.
Proof.
  intros Hplain H. unfold processRequest in H. apply try_rethrow_Ret_inv in H.
  assert (H' :
            (aiResult <- executeAICall env aiConfig ;;
             embeddingPromise <- start (generateEmbeddings env (ar_message aiResult)) ;;
             threadUpdatePromise <-
               start (match ar_userObjectives aiResult with
                      | [] => ret tt
                      | o :: l =>
                          updateThread env (th_id thread) None (Some (o :: l)) ;;; ret tt
                      end) ;;
             orderIndexPromise <- start (getNextOrderIndex env (th_id thread)) ;;
             embedding <- await embeddingPromise ;;
             orderIndex <- await orderIndexPromise ;;
             createMessage env (th_id thread) orderIndex 0 ChatRole_Assistant
               (ar_message aiResult) embedding ;;;
             await threadUpdatePromise ;;;
             ret (mkAssistantResponse (ar_message aiResult) (th_id thread)
                    (or_empty (ar_created aiResult)) (or_empty (ar_updated aiResult))
                    (or_empty (ar_deleted aiResult)))) w = (Ret resp, w')).
  { destruct (cf_tools config) as [[| t ts] |]; [exact H | contradiction | exact H]. }
  clear H Hplain.
  apply bind_Ret_inv in H'. destruct H' as (aiResult & w1 & Hai & H).
  apply bind_Ret_inv in H. destruct H as (pe & w2 & Hpe & H).
  apply bind_Ret_inv in H. destruct H as (pu & w3 & Hpu & H).
  apply bind_Ret_inv in H. destruct H as (po & w4 & Hpo & H).
  apply bind_Ret_inv in H. destruct H as (embedding & w5 & He & H).
  apply bind_Ret_inv in H. destruct H as (orderIndex & w6 & Ho & H).
  apply bind_Ret_inv in H. destruct H as (me & w7 & Hcreate & H).
  apply bind_Ret_inv in H. destruct H as (u & w8 & Hu & H).
  injection H as <- <-.
  apply await_Ret_inv in He. destruct He as [-> ->].
  apply await_Ret_inv in Ho. destruct Ho as [-> ->].
  apply await_Ret_inv in Hu. destruct Hu as [_ ->].
  pose proof (executeAICall_keeps_messages env aiConfig w) as F1.
  rewrite Hai in F1. cbn in F1.
  pose proof (preserves_start _ (generateEmbeddings_keeps_messages env (ar_message aiResult))
                w1) as F2.
  rewrite Hpe in F2. cbn in F2.
  assert (P3 : forall R `{Frame R},
             (forall id title objectives, preserves R (updateThread env id title objectives)) ->
             preserves R
               (start (match ar_userObjectives aiResult with
                       | [] => ret tt
                       | o :: l =>
                           updateThread env (th_id thread) None (Some (o :: l)) ;;; ret tt
                       end))).
  { intros R HR Hupdate. frame. }
  pose proof (P3 _ _ (updateThread_keeps_messages env) w2) as F3.
  rewrite Hpu in F3. cbn in F3.
  destruct (extends_run _ _ _ _ (executeAICall_extends env aiConfig) Hai) as [t1 T1].
  destruct (extends_run _ _ _ _
              (preserves_start _ (generateEmbeddings_extends env _)) Hpe) as [t2 T2].
  destruct (extends_run _ _ _ _ (P3 _ _ (updateThread_extends env)) Hpu) as [t3 T3].
  destruct (extends_run _ _ _ _ (createMessage_extends env _ _ _ _ _ _) Hcreate)
    as [t7 T7].
  apply start_fulfilled_inv in Hpe. apply generateEmbeddings_Ret_inv in Hpe.
  apply start_fulfilled_inv in Hpo. apply getNextOrderIndex_Ret_inv in Hpo.
  destruct Hpo as (F4 & T4 & Hk).
  apply createMessage_Ret_inv in Hcreate. destruct Hcreate as (row & Hrow & Hfrag).
  unfold same_messages in *.
  exists row, embedding, orderIndex, (t1 ++ t2 ++ t3), t7. cbn [rs_message].
  split; [rewrite Hrow, F4, F3, F2, F1; reflexivity |].
  split; [rewrite T7, T4, T3, T2, T1, <- !app_assoc; reflexivity |].
  rewrite T3, T2, T1, <- !app_assoc, F3, F2, F1 in Hk. auto.
Qed.

(** With tools the process step adds no row. *)
Lemma processRequest_tools_Ret_inv fuel aiConfig thread w resp w' :
  match cf_tools config with Some (_ :: _) => True | _ => False end ->
  processRequest env config fuel aiConfig thread w = (Ret resp, w') ->
  messages w' = messages w.
Proof.
  intros Htools H. unfold processRequest in H. apply try_rethrow_Ret_inv in H.
  destruct (cf_tools config) as [[| t ts] |]; try contradiction.
  pose proof (processToolCalls_keeps_messages env fuel aiConfig (t :: ts) thread w) as F.
  now rewrite H in F.
Qed.
End ProcessStep.

(** With tools the process step adds to the trace only. *)
Lemma processRequest_extends env config fuel aiConfig thread :
  preserves trace_extends (processRequest env config fuel aiConfig thread).
Proof.
  unfold processRequest.
  frame_trace;
    first [ apply processToolCalls_extends
          | apply executeAICall_extends
          | apply generateEmbeddings_extends
          | apply updateThread_extends
          | apply createMessage_extends
          | unfold getNextOrderIndex, Store.select_top_order_index; frame_trace ].
Qed.

(** C2 (as the code has it).  After a turn of [Assistant.thread] that
    returns, the table of fragments has grown by the following rows, in
    this order.  The process step adds one row when no tool is configured:
    the reply as a single fragment, chunk index 0, embedded from the full
    text of the reply, at the next available order index of the thread;
    with tools configured the process step adds no row.  The post-process
    step then adds the chunks of the user message at the order index that
    is the next available one by then, and the chunks of the reply at the
    one after it, the chunks of a message numbered 0, 1, 2, ...  The next
    available order index is the one that the store gives when it is read,
    which the trace of the turn records: [before0] and [before] are the
    events of the turn up to the read of the process step and up to the
    read of the post-process step. *)
Theorem thread_persists_turn :
  forall env config fuel request w resp w',
    thread env config fuel request w = (Ret resp, w') ->
    let read := EvStore (SelectTopOrderIndex (rs_threadId resp)) in
    exists single k userChunks replyChunks userRows replyRows before after,
      messages w' = messages w ++ single ++ userRows ++ replyRows
      /\ trace w' = trace w ++ before ++ read :: after
      /\ match cf_tools config with
         | Some (_ :: _) => single = []
         | _ =>
             exists row e k0 before0 between,
               single = [row]
               /\ is_fragment row (rs_threadId resp) k0 0 ChatRole_Assistant
                    (rs_message resp) e
               /\ embedding_of env (rs_message resp) e
               /\ before = before0 ++ read :: between
               /\ next_order_index env (trace w ++ before0) (rs_threadId resp)
                    (messages w) k0
         end
      /\ next_order_index env (trace w ++ before) (rs_threadId resp)
           (messages w ++ single) k
      /\ chunks_of env (rq_message request) userChunks
      /\ chunk_rows (rs_threadId resp) k ChatRole_User 0 userChunks userRows
      /\ chunks_of env (rs_message resp) replyChunks
      /\ chunk_rows (rs_threadId resp) (k + 1) ChatRole_Assistant 0 replyChunks replyRows.
Proof.
  intros env config fuel request w resp w' H. cbv zeta.
  unfold thread in H. apply try_rethrow_Ret_inv in H.
  apply bind_Ret_inv in H. destruct H as (validated & w0 & Hv & H).
  apply bind_Ret_inv in H. destruct H as (thr & w1 & Hthread & H).
  apply bind_Ret_inv in H. destruct H as (pc & w2 & Hprepare & H).
  apply bind_Ret_inv in H. destruct H as (response & w3 & Hprocess & H).
  apply bind_Ret_inv in H. destruct H as (u & w4 & Hpost & H).
  injection H as -> ->.
  assert (Hreq : validated = request /\ w0 = w).
  { unfold validateRequest in Hv. apply try_rethrow_Ret_inv in Hv.
    destruct (assistantRequestSchema _ _); [| discriminate].
    now injection Hv as <- <-. }
  destruct Hreq as [-> ->].
  pose proof (getThread_keeps_messages env config request w) as F1.
  rewrite Hthread in F1. cbn in F1.
  pose proof (prepareProcess_keeps_messages env config request thr w1) as F2.
  rewrite Hprepare in F2. cbn in F2.
  destruct (extends_run _ _ _ _ (getThread_extends env config request) Hthread)
    as [t1 T1].
  destruct (extends_run _ _ _ _ (prepareProcess_extends env config request thr) Hprepare)
    as [t2 T2].
  pose proof (processRequest_threadId _ _ _ _ _ _ _ _ Hprocess) as Hid.
  apply postProcess_Ret_inv in Hpost.
  destruct Hpost as (k & userChunks & replyChunks & userRows & replyRows & after
                     & Hrows & Htrace & Hk & Huc & Hur & Hrc & Hrr).
  unfold same_messages in *. rewrite Hid.
  assert (Hplain :
            match cf_tools config with Some (_ :: _) => False | _ => True end ->
            exists before,
              trace w3 = trace w ++ before
              /\ exists row e k0 before0 between,
                  messages w3 = messages w ++ [row]
                  /\ is_fragment row (th_id thr) k0 0 ChatRole_Assistant (rs_message resp) e
                  /\ embedding_of env (rs_message resp) e
                  /\ before
                     = before0 ++ EvStore (SelectTopOrderIndex (th_id thr)) :: between
                  /\ next_order_index env (trace w ++ before0) (th_id thr) (messages w) k0).
  { intros Hp.
    destruct (processRequest_plain_Ret_inv env config fuel pc thr w2 resp w3 Hp Hprocess)
      as (row & e & k0 & before0 & between & Hsingle & T3 & Hfrag & Hemb & Hk0).
    exists ((t1 ++ t2 ++ before0) ++ EvStore (SelectTopOrderIndex (th_id thr)) :: between).
    split; [rewrite T3, T2, T1, <- !app_assoc; reflexivity |].
    exists row, e, k0, (t1 ++ t2 ++ before0), between.
    split; [rewrite Hsingle, F2, F1; reflexivity |].
    rewrite T2, T1, <- !app_assoc, F2, F1 in Hk0. auto. }
  destruct (cf_tools config) as [[| t ts] |] eqn:Htools.
  - destruct (Hplain I)
      as (before & T3 & row & e & k0 & before0 & between & Hsingle & Hfrag & Hemb
          & Hbefore & Hk0).
    exists [row], k, userChunks, replyChunks, userRows, replyRows, before, after.
    rewrite T3, Hsingle in Hk.
    split; [rewrite Hrows, Hsingle, <- app_assoc; reflexivity |].
    split; [rewrite Htrace, T3, <- app_assoc; reflexivity |].
    split; [exists row, e, k0, before0, between; auto |].
    repeat (split; [assumption |]); assumption.
  - clear Hplain.
    pose proof (processRequest_tools_Ret_inv env config fuel pc thr w2 resp w3) as F3.
    rewrite Htools in F3. specialize (F3 I Hprocess).
    destruct (extends_run _ _ _ _ (processRequest_extends env config fuel pc thr) Hprocess)
      as [t3 T3].
    exists [], k, userChunks, replyChunks, userRows, replyRows, (t1 ++ t2 ++ t3), after.
    rewrite T3, T2, T1, <- !app_assoc, F3, F2, F1 in Hk. rewrite app_nil_r.
    split; [rewrite Hrows, F3, F2, F1; reflexivity |].
    split; [rewrite Htrace, T3, T2, T1, <- !app_assoc; reflexivity |].
    split; [reflexivity |].
    repeat (split; [assumption |]); assumption.
  - destruct (Hplain I)
      as (before & T3 & row & e & k0 & before0 & between & Hsingle & Hfrag & Hemb
          & Hbefore & Hk0).
    exists [row], k, userChunks, replyChunks, userRows, replyRows, before, after.
    rewrite T3, Hsingle in Hk.
    split; [rewrite Hrows, Hsingle, <- app_assoc; reflexivity |].
    split; [rewrite Htrace, T3, <- app_assoc; reflexivity |].
    split; [exists row, e, k0, before0, between; auto |].
    repeat (split; [assumption |]); assumption.
Qed.

Lemma thread_persists_turn_witness :
  let env := Fixtures.halving_env (Fixtures.says "Hi there!") in
  exists resp w',
    thread env Fixtures.plain_config 1 Fixtures.first_request Fixtures.empty_world
    = (Ret resp, w')
    /\ let read := EvStore (SelectTopOrderIndex (rs_threadId resp)) in
       exists single k userChunks replyChunks userRows replyRows before after,
        messages w' = messages Fixtures.empty_world ++ single ++ userRows ++ replyRows
        /\ trace w' = trace Fixtures.empty_world ++ before ++ read :: after
        /\ (exists row e k0 before0 between,
               single = [row]
               /\ is_fragment row (rs_threadId resp) k0 0 ChatRole_Assistant
                    (rs_message resp) e
               /\ embedding_of env (rs_message resp) e
               /\ before = before0 ++ read :: between
               /\ next_order_index env (trace Fixtures.empty_world ++ before0)
                    (rs_threadId resp) (messages Fixtures.empty_world) k0)
        /\ next_order_index env (trace Fixtures.empty_world ++ before)
             (rs_threadId resp) (messages Fixtures.empty_world ++ single) k
        /\ chunks_of env "Hello" userChunks
        /\ chunk_rows (rs_threadId resp) k ChatRole_User 0 userChunks userRows
        /\ chunks_of env (rs_message resp) replyChunks
        /\ chunk_rows (rs_threadId resp) (k + 1) ChatRole_Assistant 0 replyChunks replyRows.
Proof.
  cbv zeta.
  assert (E : match thread (Fixtures.halving_env (Fixtures.says "Hi there!"))
                      Fixtures.plain_config 1 Fixtures.first_request
                      Fixtures.empty_world with
              | (Ret _, _) => True
              | _ => False
              end) by (vm_compute; exact I).
  destruct (thread _ _ _ _ _) as [[resp | |] w'] eqn:H; try contradiction.
  exists resp, w'. split; [reflexivity |].
  exact (thread_persists_turn _ _ _ _ _ _ _ H).
Defined.

(** The rows of that turn: the reply once as a whole, at order index 1,
    then the two halves of the user message at order index 2 and the two
    halves of the reply at order index 3. *)
Example thread_persists_turn_rows :
  map Fixtures.columns
    (messages (snd (thread (Fixtures.halving_env (Fixtures.says "Hi there!"))
                      Fixtures.plain_config 1 Fixtures.first_request
                      Fixtures.empty_world)))
  = [("assistant", 1%Z, 0%Z, "Hi there!");
     ("user", 2%Z, 0%Z, "He"); ("user", 2%Z, 1%Z, "llo");
     ("assistant", 3%Z, 0%Z, "Hi t"); ("assistant", 3%Z, 1%Z, "here!")].
Proof. vm_compute. reflexivity. Qed.

(** C2 (as stated) fails.  With a tool configured the turn returns and the
    reply is stored once only, by the post-process step, after the user
    message: the process step, which is [processToolCalls] then, has stored
    no fragment. *)
Lemma process_step_with_tools_stores_nothing :
  let env := Fixtures.halving_env (Fixtures.says "Hi there!") in
  let turn := thread env Fixtures.weather_config 1 Fixtures.first_request
                Fixtures.empty_world in
  fst turn = Ret (mkAssistantResponse "Hi there!" "id-0" (Some []) (Some []) (Some []))
  /\ map Fixtures.columns (messages (snd turn))
     = [("user", 1%Z, 0%Z, "He"); ("user", 1%Z, 1%Z, "llo");
        ("assistant", 2%Z, 0%Z, "Hi t"); ("assistant", 2%Z, 1%Z, "here!")].
Proof. cbv zeta. split; vm_compute; reflexivity. Qed.

(* ================================================================== *)
(** * Threads in the store                                             *)
(* ================================================================== *)

Lemma find_thread_app_new id rows row :
  Store.find_thread id rows = None ->
  tr_id row = id ->
  Store.find_thread id (rows ++ [row]) = Some row.
Proof.
  unfold Store.find_thread. intros Hnone Hid.
  induction rows as [| r rows IH]; simpl in *.
  - rewrite Hid, String.eqb_refl. reflexivity.
  - destruct (String.eqb (tr_id r) id); [discriminate | auto].
Qed.

Lemma find_thread_id id rows row :
  Store.find_thread id rows = Some row -> tr_id row = id.
Proof.
  unfold Store.find_thread. intros H. apply find_some in H.
  now apply String.eqb_eq.
Qed.

(** What a successful [createThread] has done. *)
Lemma createThread_Ret_inv env userId title w th w1 :
  createThread env userId title w = (Ret th, w1) ->
  Store.find_thread (gen_random_uuid env (trace w)) (threads w) = None
  /\ store_error env (trace w) (InsertThread userId (title_or_null title) (JStr "[]")) = None
  /\ th = mkThread (gen_random_uuid env (trace w)) (Some userId) (title_or_null title)
            (JArr []) (Some (now env (trace w))) (Some (now env (trace w)))
  /\ w1 = mkWorld
            (threads w ++
             [mkThreadRow (gen_random_uuid env (trace w)) (Some userId) (title_or_null title)
                (Some (JStr "[]")) (Some (now env (trace w))) (Some (now env (trace w)))])
            (messages w)
            (trace w ++ [EvStore (InsertThread userId (title_or_null title) (JStr "[]"))]).
Proof.
  intros H. apply try_rethrow_Ret_inv in H.
  unfold Store.insert_thread, Store.request, bind, title_or_null in *.
  destruct (store_error env (trace w) _) as [e |].
  - cbn in H. destruct (String.eqb (pg_code e) "PGRST116"); discriminate.
  - destruct (Store.find_thread _ (threads w)); cbn in H; [discriminate |].
    injection H as <- <-. auto.
Qed.

(** X1.  A thread that [createThread] has returned can be read back:
    [readThread] on its identifier gives the same thread, with the empty
    list of objectives that the creation stored as the text ["[]"]. *)
Theorem readThread_after_createThread :
  forall env userId title w th w1,
    createThread env userId title w = (Ret th, w1) ->
    store_error env (trace w1) (SelectThread (th_id th)) = None ->
    readThread env (th_id th) w1
    = (Ret (Some th), logged (EvStore (SelectThread (th_id th))) w1)
    /\ th_userId th = Some userId
    /\ th_userObjectives th = JArr [].
Proof.
  intros env userId title w th w1 Hcreate Hok.
  apply createThread_Ret_inv in Hcreate.
  destruct Hcreate as (Hfresh & _ & -> & ->). cbn [th_id] in *.
  split; [| split; reflexivity].
  unfold readThread, Store.select_thread, Store.request, try_catch, bind, logged.
  rewrite Hok. cbn [threads messages trace].
  erewrite find_thread_app_new by (exact Hfresh || reflexivity). reflexivity.
Qed.

Lemma readThread_after_createThread_witness :
  let env := Fixtures.stub_env Fixtures.no_faults (Fixtures.says "Hello") in
  let th := mkThread "id-0" (Some "u1") (Some "Notes") (JArr [])
              (Some "2025-01-01T00:00:00Z") (Some "2025-01-01T00:00:00Z") in
  exists w1,
    createThread env "u1" "Notes" Fixtures.empty_world = (Ret th, w1)
    /\ fst (readThread env "id-0" w1) = Ret (Some th).
Proof.
  cbv zeta. eexists. split; [reflexivity |].
  match goal with
  | |- fst (readThread ?env _ ?w1) = _ =>
      destruct (readThread_after_createThread env "u1" "Notes" Fixtures.empty_world
                  (mkThread "id-0" (Some "u1") (Some "Notes") (JArr [])
                     (Some "2025-01-01T00:00:00Z") (Some "2025-01-01T00:00:00Z"))
                  w1 eq_refl eq_refl) as (H & _)
  end.
  cbn [th_id] in H. rewrite H. reflexivity.
Defined.

Lemma to_string_strings (l : list string) :
  JsValue.to_string (JArr (map JStr l)) = Js.join "," l.
Proof.
  cbn [JsValue.to_string]. f_equal. rewrite map_map. cbn.
  induction l as [| x l IH]; simpl; [reflexivity | now rewrite IH].
Qed.

Lemma find_thread_map_update id rows row row' :
  Store.find_thread id rows = Some row ->
  tr_id row' = id ->
  Store.find_thread id (map (fun r => if String.eqb (tr_id r) id then row' else r) rows)
  = Some row'.
Proof.
  unfold Store.find_thread. intros Hfind Hid.
  induction rows as [| r rows IH]; simpl in *; [discriminate |].
  destruct (String.eqb (tr_id r) id) eqn:E.
  - rewrite Hid, String.eqb_refl. reflexivity.
  - rewrite E. auto.
Qed.

(** A row whose objectives are an array of strings that do not happen to
    read as one JSON text cannot be turned into a [Thread]. *)
Lemma to_thread_array_fails row objectives w :
  tr_user_objectives row = Some (JArr (map JStr objectives)) ->
  JSON.parse (Js.join "," objectives) = None ->
  to_thread row w = (Throw syntax_error, w).
Proof.
  intros Hrow Hparse. unfold to_thread, read_user_objectives, JSON_parse, bind.
  rewrite Hrow. cbn [JsValue.truthy]. rewrite to_string_strings, Hparse. reflexivity.
Qed.

Lemma readThread_array_fails env threadId row objectives w :
  store_error env (trace w) (SelectThread threadId) = None ->
  Store.find_thread threadId (threads w) = Some row ->
  tr_user_objectives row = Some (JArr (map JStr objectives)) ->
  JSON.parse (Js.join "," objectives) = None ->
  readThread env threadId w
  = (Throw (AppErr (mkAppError "Get Thread Error: " DATABASE_ERROR)),
     logged (EvStore (SelectThread threadId)) w).
Proof.
  intros Hok Hfind Hrow Hparse.
  unfold readThread, Store.select_thread, Store.request, try_catch, bind, logged.
  rewrite Hok, Hfind. cbn.
  rewrite (to_thread_array_fails _ _ _ Hrow Hparse). reflexivity.
Qed.

(** X2.  [updateThread] with a list of objectives writes the list into the
    row as an array and then fails on its own result: the row comes back
    with the array, [JSON.parse] is applied to it, and unless the strings
    joined by commas happen to be a JSON text the call throws a
    [DATABASE_ERROR].  The update stays in the store, and from then on
    [readThread] fails on that thread in the same way. *)
Theorem updateThread_stores_objectives_then_fails :
  forall env threadId objectives w row,
    Store.find_thread threadId (threads w) = Some row ->
    store_error env (trace w) (UpdateThread threadId None (Some objectives)) = None ->
    JSON.parse (Js.join "," objectives) = None ->
    exists w1 row',
      updateThread env threadId None (Some objectives) w
      = (Throw (AppErr (mkAppError "Update Thread Error: " DATABASE_ERROR)), w1)
      /\ Store.find_thread threadId (threads w1) = Some row'
      /\ tr_user_objectives row' = Some (JArr (map JStr objectives))
      /\ messages w1 = messages w
      /\ (store_error env (trace w1) (SelectThread threadId) = None ->
          fst (readThread env threadId w1)
          = Throw (AppErr (mkAppError "Get Thread Error: " DATABASE_ERROR))).
Proof.
  intros env threadId objectives w row Hfind Hok Hparse.
  pose (row' := Store.apply_update None (Some objectives) (now env (trace w)) row).
  pose (w1 := mkWorld
                (map (fun r => if String.eqb (tr_id r) threadId then row' else r) (threads w))
                (messages w)
                (trace w ++ [EvStore (UpdateThread threadId None (Some objectives))])).
  assert (Hfind' : Store.find_thread threadId (threads w1) = Some row').
  { apply (find_thread_map_update _ _ row); [exact Hfind |].
    exact (find_thread_id _ _ _ Hfind). }
  exists w1, row'. split; [| split; [exact Hfind' | split; [reflexivity | split; [reflexivity |]]]].
  - unfold updateThread, Store.update_thread, Store.request, try_catch, bind.
    cbn [andb]. cbn. rewrite Hok, Hfind. cbn.
    fold row'.
    rewrite (to_thread_array_fails row' objectives _ eq_refl Hparse). reflexivity.
  - intros Hread.
    rewrite (readThread_array_fails env threadId row' objectives w1 Hread Hfind' eq_refl Hparse).
    reflexivity.
Qed.

Lemma updateThread_stores_objectives_then_fails_witness :
  let env := Fixtures.stub_env Fixtures.no_faults (Fixtures.says "Hello") in
  let w := mkWorld [Fixtures.thread_row "t1" (JStr "[]")] [] [] in
  exists w1 row',
    updateThread env "t1" None (Some ["Learn Rocq"; "Ship it"]) w
    = (Throw (AppErr (mkAppError "Update Thread Error: " DATABASE_ERROR)), w1)
    /\ Store.find_thread "t1" (threads w1) = Some row'
    /\ tr_user_objectives row' = Some (JArr [JStr "Learn Rocq"; JStr "Ship it"])
    /\ messages w1 = []
    /\ (store_error env (trace w1) (SelectThread "t1") = None ->
        fst (readThread env "t1" w1)
        = Throw (AppErr (mkAppError "Get Thread Error: " DATABASE_ERROR))).
Proof.
  cbv zeta.
  exact (updateThread_stores_objectives_then_fails
           (Fixtures.stub_env Fixtures.no_faults (Fixtures.says "Hello"))
           "t1" ["Learn Rocq"; "Ship it"]
           (mkWorld [Fixtures.thread_row "t1" (JStr "[]")] [] [])
           (Fixtures.thread_row "t1" (JStr "[]")) eq_refl eq_refl eq_refl).
Defined.

(** X3.  A thread whose objectives have been stored by [updateThread] can
    no longer be used: a valid request that names it fails in
    [Assistant.thread] with the [DATABASE_ERROR] of [readThread], after the
    one read of the row and before any embedding or model call. *)
Theorem thread_fails_on_stored_objectives :
  forall env config fuel request threadId objectives w row,
    assistantRequestSchema (cf_contextSchema config) request = true ->
    meta_threadId request = Some threadId ->
    threadId <> EmptyString ->
    store_error env (trace w) (SelectThread threadId) = None ->
    Store.find_thread threadId (threads w) = Some row ->
    tr_user_objectives row = Some (JArr (map JStr objectives)) ->
    JSON.parse (Js.join "," objectives) = None ->
    thread env config fuel request w
    = (Throw (AppErr (mkAppError "Get Thread Error: " DATABASE_ERROR)),
       logged (EvStore (SelectThread threadId)) w).
Proof.
  intros env config fuel request threadId objectives w row
         Hvalid Hid Hnonempty Hok Hfind Hrow Hparse.
  assert (Hv : validateRequest config request w = (Ret request, w)).
  { unfold validateRequest. rewrite Hvalid. reflexivity. }
  assert (Hget : getThread env config request w
                 = (Throw (AppErr (mkAppError "Get Thread Error: " DATABASE_ERROR)),
                    logged (EvStore (SelectThread threadId)) w)).
  { unfold getThread. rewrite Hid.
    destruct threadId as [| c s]; [congruence |]. cbn [Js.is_empty].
    pose proof (readThread_array_fails env _ row objectives w Hok Hfind Hrow Hparse)
      as Hread.
    rewrite (try_catch_Throw _ _ _ _ _ (bind_Throw _ _ _ _ _ Hread)). reflexivity. }
  unfold thread.
  match goal with
  | |- try_catch ?m _ w = _ =>
      assert (Hbody : m w
                      = (Throw (AppErr (mkAppError "Get Thread Error: " DATABASE_ERROR)),
                         logged (EvStore (SelectThread threadId)) w))
  end.
  { rewrite (bind_Ret _ _ _ _ _ Hv). apply bind_Throw. exact Hget. }
  rewrite (try_catch_Throw _ _ _ _ _ Hbody). reflexivity.
Qed.

(** The first turn of an assistant with a tool stores an objective (the
    failure of the update is logged and dropped); the second turn on the
    same thread fails. *)
Lemma thread_fails_on_stored_objectives_witness :
  let env := Fixtures.stub_env Fixtures.no_faults (Fixtures.says Fixtures.objective_reply) in
  let first := thread env Fixtures.weather_config 1 Fixtures.first_request
                 Fixtures.empty_world in
  let again := mkAssistantRequest "And now?" "u1" (Some "id-0") None None in
  fst first
  = Ret (mkAssistantResponse Fixtures.objective_reply "id-0" (Some []) (Some []) (Some []))
  /\ fst (thread env Fixtures.weather_config 1 again (snd first))
     = Throw (AppErr (mkAppError "Get Thread Error: " DATABASE_ERROR)).
Proof.
  cbv zeta. split; [vm_compute; reflexivity |].
  rewrite (thread_fails_on_stored_objectives
             (Fixtures.stub_env Fixtures.no_faults (Fixtures.says Fixtures.objective_reply))
             Fixtures.weather_config 1
             (mkAssistantRequest "And now?" "u1" (Some "id-0") None None)
             "id-0" ["Learn Rocq"]
             (snd (thread (Fixtures.stub_env Fixtures.no_faults
                             (Fixtures.says Fixtures.objective_reply))
                          Fixtures.weather_config 1 Fixtures.first_request
                          Fixtures.empty_world))
             (mkThreadRow "id-0" (Some "u1") (Some "Weather Assistant")
                (Some (JArr [JStr "Learn Rocq"]))
                (Some "2025-01-01T00:00:00Z") (Some "2025-01-01T00:00:00Z")));
    solve [reflexivity | discriminate].
Defined.

(** X4.  The failures that [updateThread] reports, and the one it hides.
    Without a change to make (no objectives, and no title or an empty one)
    it throws a [DATABASE_ERROR] before any request to the store.  When the
    store answers with PGRST116 it throws UNAUTHORIZED.  When the store
    answers with any other error it returns normally, with an object whose
    fields are all undefined, and nothing has been written. *)
Theorem updateThread_failures :
  forall env threadId title objectives w,
    (objectives = None ->
     title = None \/ title = Some EmptyString ->
     updateThread env threadId title objectives w
     = (Throw (AppErr (mkAppError "Update Thread Error: " DATABASE_ERROR)), w))
    /\ (forall e,
        objectives <> None \/ (exists t, title = Some t /\ t <> EmptyString) ->
        store_error env (trace w) (UpdateThread threadId title objectives) = Some e ->
        pg_code e = "PGRST116" ->
        updateThread env threadId title objectives w
        = (Throw (AppErr (mkAppError "Update Thread Error: [object Object]" UNAUTHORIZED)),
           logged (EvStore (UpdateThread threadId title objectives)) w))
    /\ (forall e,
        objectives <> None \/ (exists t, title = Some t /\ t <> EmptyString) ->
        store_error env (trace w) (UpdateThread threadId title objectives) = Some e ->
        pg_code e <> "PGRST116" ->
        updateThread env threadId title objectives w
        = (Ret None, logged (EvStore (UpdateThread threadId title objectives)) w)).
Proof.
  intros env threadId title objectives w.
  assert (Hguard : objectives <> None \/ (exists t, title = Some t /\ t <> EmptyString) ->
                   match title with Some t => Js.is_empty t | None => true end
                   && match objectives with Some _ => false | None => true end = false).
  { intros [Ho | (t & -> & Ht)].
    - destruct objectives; [apply andb_false_r | congruence].
    - destruct t; [congruence | reflexivity]. }
  split; [| split].
  - intros -> [-> | ->]; reflexivity.
  - intros e Hchange He Hcode. unfold updateThread.
    rewrite (Hguard Hchange).
    unfold Store.update_thread, Store.request, try_catch, bind, ret, logged.
    cbn beta iota. rewrite He. cbn. apply String.eqb_eq in Hcode. rewrite Hcode. reflexivity.
  - intros e Hchange He Hcode. unfold updateThread.
    rewrite (Hguard Hchange).
    unfold Store.update_thread, Store.request, try_catch, bind, ret, logged.
    cbn beta iota. rewrite He. cbn. apply String.eqb_neq in Hcode. rewrite Hcode. reflexivity.
Qed.

Lemma updateThread_failures_witness :
  let quiet := Fixtures.stub_env Fixtures.no_faults (Fixtures.says "Hello") in
  let refusing := Fixtures.stub_env Fixtures.update_refused (Fixtures.says "Hello") in
  let failing := Fixtures.stub_env Fixtures.timeouts (Fixtures.says "Hello") in
  let w := mkWorld [Fixtures.thread_row "t1" (JStr "[]")] [] [] in
  updateThread quiet "t1" (Some EmptyString) None w
  = (Throw (AppErr (mkAppError "Update Thread Error: " DATABASE_ERROR)), w)
  /\ updateThread refusing "t1" (Some "Trip") None w
     = (Throw (AppErr (mkAppError "Update Thread Error: [object Object]" UNAUTHORIZED)),
        logged (EvStore (UpdateThread "t1" (Some "Trip") None)) w)
  /\ updateThread failing "t1" None (Some ["Learn Rocq"]) w
     = (Ret None, logged (EvStore (UpdateThread "t1" None (Some ["Learn Rocq"]))) w).
Proof.
  cbv zeta. split; [| split].
  - apply (updateThread_failures
             (Fixtures.stub_env Fixtures.no_faults (Fixtures.says "Hello"))
             "t1" (Some EmptyString) None); [reflexivity | now right].
  - apply (updateThread_failures
             (Fixtures.stub_env Fixtures.update_refused (Fixtures.says "Hello"))
             "t1" (Some "Trip") None) with (e := Fixtures.PGRST116);
      [right; exists "Trip"; split; [reflexivity | discriminate] | reflexivity | reflexivity].
  - apply (updateThread_failures
             (Fixtures.stub_env Fixtures.timeouts (Fixtures.says "Hello"))
             "t1" None (Some ["Learn Rocq"])) with (e := Fixtures.timeout_error);
      [left; discriminate | reflexivity | discriminate].
Defined.

Lemma bind_ret_l {A B} (a : A) (k : A -> M B) w : bind (ret a) k w = k a w.
Proof. reflexivity. Qed.

Lemma update_thread_found env threadId title objectives w row :
  Store.find_thread threadId (threads w) = Some row ->
  store_error env (trace w) (UpdateThread threadId title objectives) = None ->
  Store.update_thread env threadId title objectives w
  = (Ret (mkDbResponse
            (Some (Store.apply_update title objectives (now env (trace w)) row)) None),
     mkWorld
       (map (fun r => if String.eqb (tr_id r) threadId
                      then Store.apply_update title objectives (now env (trace w)) row
                      else r) (threads w))
       (messages w)
       (trace w ++ [EvStore (UpdateThread threadId title objectives)])).
Proof.
  intros Hfind Hok. unfold Store.update_thread, Store.request.
  rewrite Hok, Hfind. reflexivity.
Qed.

Lemma select_thread_found env threadId w row :
  Store.find_thread threadId (threads w) = Some row ->
  store_error env (trace w) (SelectThread threadId) = None ->
  Store.select_thread env threadId w
  = (Ret (mkDbResponse (Some row) None), logged (EvStore (SelectThread threadId)) w).
Proof.
  intros Hfind Hok. unfold Store.select_thread, Store.request.
  rewrite Hok, Hfind. reflexivity.
Qed.

(** X5.  Renaming a thread: [updateThread] with a title alone returns the
    thread with the new title and the time of the update, leaves the
    objectives and the fragments as they are, and [readThread] then gives
    the same thread. *)
Theorem readThread_after_updateThread_title :
  forall env threadId title w row objectives,
    title <> EmptyString ->
    Store.find_thread threadId (threads w) = Some row ->
    store_error env (trace w) (UpdateThread threadId (Some title) None) = None ->
    (forall w0, read_user_objectives (tr_user_objectives row) w0 = (Ret objectives, w0)) ->
    exists w1,
      updateThread env threadId (Some title) None w
      = (Ret (Some (mkThread threadId (tr_user_id row) (Some title) objectives
                      (tr_created_at row) (Some (now env (trace w))))), w1)
      /\ messages w1 = messages w
      /\ (store_error env (trace w1) (SelectThread threadId) = None ->
          fst (readThread env threadId w1)
          = Ret (Some (mkThread threadId (tr_user_id row) (Some title) objectives
                         (tr_created_at row) (Some (now env (trace w)))))).
Proof.
  intros env threadId title w row objectives Htitle Hfind Hok Hobj.
  pose (row' := Store.apply_update (Some title) None (now env (trace w)) row).
  pose (w1 := mkWorld
                (map (fun r => if String.eqb (tr_id r) threadId then row' else r) (threads w))
                (messages w)
                (trace w ++ [EvStore (UpdateThread threadId (Some title) None)])).
  pose proof (find_thread_id _ _ _ Hfind) as Hid.
  assert (Hfind' : Store.find_thread threadId (threads w1) = Some row').
  { apply (find_thread_map_update _ _ row); [exact Hfind | exact Hid]. }
  assert (Hto : forall w0,
             to_thread row' w0
             = (Ret (mkThread threadId (tr_user_id row) (Some title) objectives
                       (tr_created_at row) (Some (now env (trace w)))), w0)).
  { intros w0. unfold to_thread, bind. cbn [row' Store.apply_update tr_user_objectives].
    rewrite Hobj. cbn. rewrite Hid. reflexivity. }
  exists w1. split; [| split; [reflexivity |]].
  - unfold updateThread.
    destruct title as [| c t]; [congruence |]. cbn [Js.is_empty andb].
    rewrite bind_ret_l. apply try_catch_Ret.
    rewrite (bind_Ret _ _ _ _ _ (update_thread_found env _ _ _ _ _ Hfind Hok)).
    cbn [error data is_PGRST116]. rewrite bind_ret_l.
    fold row'. fold w1. rewrite (bind_Ret _ _ _ _ _ (Hto w1)). reflexivity.
  - intros Hread.
    unfold readThread.
    erewrite try_catch_Ret; [reflexivity |].
    rewrite (bind_Ret _ _ _ _ _ (select_thread_found env _ _ _ Hfind' Hread)).
    cbn [error data is_PGRST116]. rewrite bind_ret_l.
    rewrite (bind_Ret _ _ _ _ _ (Hto _)). reflexivity.
Qed.

Lemma readThread_after_updateThread_title_witness :
  let env := Fixtures.stub_env Fixtures.no_faults (Fixtures.says "Hello") in
  let w := mkWorld [Fixtures.thread_row "t1" (JStr "[]")] [] [] in
  let renamed := mkThread "t1" (Some "u1") (Some "Trip") (JArr [])
                   (Some "2025-01-01T00:00:00Z") (Some "2025-01-01T00:00:00Z") in
  exists w1,
    updateThread env "t1" (Some "Trip") None w = (Ret (Some renamed), w1)
    /\ messages w1 = []
    /\ (store_error env (trace w1) (SelectThread "t1") = None ->
        fst (readThread env "t1" w1) = Ret (Some renamed)).
Proof.
  cbv zeta.
  exact (readThread_after_updateThread_title
           (Fixtures.stub_env Fixtures.no_faults (Fixtures.says "Hello"))
           "t1" "Trip" (mkWorld [Fixtures.thread_row "t1" (JStr "[]")] [] [])
           (Fixtures.thread_row "t1" (JStr "[]")) (JArr [])
           ltac:(discriminate) eq_refl eq_refl (fun w0 => eq_refl)).
Defined.

(* ================================================================== *)
(** * Fragments in the store                                           *)
(* ================================================================== *)

Lemma fragment_exists_app thread_id order_index chunk_index rows rows' :
  Store.fragment_exists thread_id order_index chunk_index (rows ++ rows')
  = Store.fragment_exists thread_id order_index chunk_index rows
    || Store.fragment_exists thread_id order_index chunk_index rows'.
Proof. unfold Store.fragment_exists. apply existsb_app. Qed.

Lemma fragment_exists_is_fragment row thread_id order_index chunk_index
      role content embedding :
  is_fragment row thread_id order_index chunk_index role content embedding ->
  Store.fragment_exists thread_id order_index chunk_index [row] = true.
Proof.
  intros (Ht & Ho & Hc & _). unfold Store.fragment_exists. cbn.
  rewrite Ht, Ho, Hc. cbn. rewrite String.eqb_refl, !Z.eqb_refl. reflexivity.
Qed.

(** The three ways in which the store refuses a fragment all end in the
    same error. *)
Lemma createMessage_refused env threadId orderIndex chunkIndex role content embedding w :
  store_error env (trace w)
    (InsertMessage threadId orderIndex chunkIndex role content embedding) = None ->
  Store.role_allowed role = false
  \/ Store.find_thread threadId (threads w) = None
  \/ Store.fragment_exists threadId orderIndex chunkIndex (messages w) = true ->
  createMessage env threadId orderIndex chunkIndex role content embedding w
  = (Throw (AppErr (mkAppError "Create Message Embedding Error: " DATABASE_ERROR)),
     logged (EvStore (InsertMessage threadId orderIndex chunkIndex role content embedding))
       w).
Proof.
  intros Hok Hwhy.
  unfold createMessage, Store.insert_message, Store.request, try_catch, bind, logged.
  rewrite Hok.
  destruct (Store.role_allowed role); cbn [negb]; [| reflexivity].
  destruct (Store.find_thread threadId (threads w)); [| reflexivity].
  destruct (Store.fragment_exists threadId orderIndex chunkIndex (messages w));
    [reflexivity |].
  destruct Hwhy as [H | [H | H]]; discriminate.
Qed.

(** X6.  The store refuses a fragment whose role is not one of the four
    that the table allows, whose thread does not exist, or whose place
    (thread, order index, chunk index) is taken; [createMessage] then
    throws a [DATABASE_ERROR] and the table is unchanged. *)
Theorem createMessage_rejections :
  forall env threadId orderIndex chunkIndex role content embedding w,
    store_error env (trace w)
      (InsertMessage threadId orderIndex chunkIndex role content embedding) = None ->
    Store.role_allowed role = false
    \/ Store.find_thread threadId (threads w) = None
    \/ Store.fragment_exists threadId orderIndex chunkIndex (messages w) = true ->
    exists w1,
      createMessage env threadId orderIndex chunkIndex role content embedding w
      = (Throw (AppErr (mkAppError "Create Message Embedding Error: " DATABASE_ERROR)), w1)
      /\ messages w1 = messages w
      /\ threads w1 = threads w.
Proof.
  intros env threadId orderIndex chunkIndex role content embedding w Hok Hwhy.
  eexists. split; [apply (createMessage_refused env _ _ _ _ _ _ _ Hok Hwhy) |].
  split; reflexivity.
Qed.

(** The role [function] of [ChatRole] is not among the roles of the
    table. *)
Lemma createMessage_rejections_witness :
  let env := Fixtures.stub_env Fixtures.no_faults (Fixtures.says "Hello") in
  exists w1,
    createMessage env "t1" 4 0 "function" "{}" "[1]" Fixtures.three_fragments
    = (Throw (AppErr (mkAppError "Create Message Embedding Error: " DATABASE_ERROR)), w1)
    /\ messages w1 = messages Fixtures.three_fragments
    /\ threads w1 = threads Fixtures.three_fragments.
Proof.
  cbv zeta.
  apply (createMessage_rejections
           (Fixtures.stub_env Fixtures.no_faults (Fixtures.says "Hello"))
           "t1" 4%Z 0%Z "function" "{}" "[1]" Fixtures.three_fragments).
  - reflexivity.
  - left. reflexivity.
Defined.

(** X7.  A place is filled once.  After [createMessage] has stored a
    fragment, another [createMessage] for the same thread, order index and
    chunk index fails with a [DATABASE_ERROR], whatever it carries and
    however much has been stored in between. *)
Theorem createMessage_once :
  forall env threadId orderIndex chunkIndex role content embedding w me w1,
    createMessage env threadId orderIndex chunkIndex role content embedding w
    = (Ret me, w1) ->
    forall role' content' embedding' later w2,
      messages w2 = messages w1 ++ later ->
      threads w2 = threads w1 ->
      store_error env (trace w2)
        (InsertMessage threadId orderIndex chunkIndex role' content' embedding') = None ->
      createMessage env threadId orderIndex chunkIndex role' content' embedding' w2
      = (Throw (AppErr (mkAppError "Create Message Embedding Error: " DATABASE_ERROR)),
         logged (EvStore (InsertMessage threadId orderIndex chunkIndex role' content'
                            embedding')) w2).
Proof.
  intros env threadId orderIndex chunkIndex role content embedding w me w1 Hfirst
         role' content' embedding' later w2 Hmsgs Hthreads Hok.
  apply createMessage_Ret_inv in Hfirst. destruct Hfirst as (row & Hrows & Hrow).
  apply createMessage_refused; [exact Hok |].
  right. right. rewrite Hmsgs, Hrows, !fragment_exists_app.
  rewrite (fragment_exists_is_fragment _ _ _ _ _ _ _ Hrow).
  now rewrite orb_true_r.
Qed.

Lemma createMessage_once_witness :
  let env := Fixtures.stub_env Fixtures.no_faults (Fixtures.says "Hello") in
  exists me w1,
    createMessage env "t1" 4 0 "user" "Hi again" "[1]" Fixtures.three_fragments
    = (Ret me, w1)
    /\ fst (createMessage env "t1" 4 0 "assistant" "Hello again" "[2]" w1)
       = Throw (AppErr (mkAppError "Create Message Embedding Error: " DATABASE_ERROR)).
Proof.
  cbv zeta. eexists. eexists. split; [reflexivity |].
  match goal with
  | |- fst (createMessage ?env _ _ _ _ _ _ ?w1) = _ =>
      rewrite (createMessage_once env "t1" 4%Z 0%Z "user" "Hi again" "[1]"
                 Fixtures.three_fragments _ w1 eq_refl
                 "assistant" "Hello again" "[2]" [] w1)
  end; reflexivity.
Defined.

Lemma top_order_index_bound thread_id rows m :
  Store.top_order_index thread_id rows = Some m ->
  forall r, In r rows -> Store.same_id (mr_thread_id r) thread_id = true ->
            (mr_order_index r <= m)%Z.
Proof.
  intros Htop r Hin Hid.
  apply top_order_index_highest in Htop. destruct Htop as (_ & Hle).
  apply Hle; [exact Hin | now apply same_id_true].
Qed.

Lemma fragment_exists_false thread_id order_index chunk_index rows :
  (forall r, In r rows -> Store.same_id (mr_thread_id r) thread_id = true ->
             mr_order_index r <> order_index) ->
  Store.fragment_exists thread_id order_index chunk_index rows = false.
Proof.
  intros H. unfold Store.fragment_exists.
  apply not_true_is_false. intros E. apply existsb_exists in E.
  destruct E as (r & Hin & Hr).
  apply andb_prop in Hr. destruct Hr as (Hr & _).
  apply andb_prop in Hr. destruct Hr as (Hid & Ho).
  apply Z.eqb_eq in Ho. exact (H r Hin Hid Ho).
Qed.

(** X8.  The order index that [getNextOrderIndex] hands out when the store
    answers its read is free: no fragment of the thread has it, and a
    [createMessage] at that index in an existing thread, with a role that
    the table allows, succeeds. *)
Theorem getNextOrderIndex_is_free :
  forall env threadId w k w1,
    store_error env (trace w) (SelectTopOrderIndex threadId) = None ->
    getNextOrderIndex env threadId w = (Ret k, w1) ->
    (forall chunkIndex,
        Store.fragment_exists threadId k chunkIndex (messages w1) = false)
    /\ (forall chunkIndex role content embedding row,
        Store.role_allowed role = true ->
        Store.find_thread threadId (threads w1) = Some row ->
        store_error env (trace w1)
          (InsertMessage threadId k chunkIndex role content embedding) = None ->
        exists me w2,
          createMessage env threadId k chunkIndex role content embedding w1
          = (Ret me, w2)
          /\ me_orderIndex me = k
          /\ me_chunkIndex me = chunkIndex
          /\ me_content me = content).
Proof.
  intros env threadId w k w1 Hok Hnext.
  assert (Hfree : forall chunkIndex,
             Store.fragment_exists threadId k chunkIndex (messages w1) = false).
  { intros chunkIndex.
    unfold getNextOrderIndex, Store.select_top_order_index, Store.request,
      try_catch, bind in Hnext.
    rewrite Hok in Hnext. cbn in Hnext.
    destruct (Store.top_order_index threadId (messages w)) as [m |] eqn:T;
      cbn in Hnext; injection Hnext as <- <-; cbn [messages].
    - apply fragment_exists_false. intros r Hin Hid.
      pose proof (top_order_index_bound _ _ _ T r Hin Hid) as Hle.
      destruct (m =? 0)%Z eqn:E; [apply Z.eqb_eq in E |]; lia.
    - apply fragment_exists_false. intros r Hin Hid.
      apply top_order_index_None in T. apply same_id_true in Hid.
      now destruct (T r Hin). }
  split; [exact Hfree |].
  intros chunkIndex role content embedding row Hrole Hthread Hins.
  unfold createMessage, Store.insert_message, Store.request, try_catch, bind.
  rewrite Hins, Hrole, Hthread, Hfree. cbn.
  eexists. eexists. split; [reflexivity |]. repeat split.
Qed.

Lemma getNextOrderIndex_is_free_witness :
  let env := Fixtures.stub_env Fixtures.no_faults (Fixtures.says "Hello") in
  exists w1,
    getNextOrderIndex env "t1" Fixtures.three_fragments = (Ret 4%Z, w1)
    /\ Store.fragment_exists "t1" 4 0 (messages w1) = false
    /\ exists me w2,
         createMessage env "t1" 4 0 "user" "Hi again" "[1]" w1 = (Ret me, w2)
         /\ me_orderIndex me = 4%Z.
Proof.
  cbv zeta. eexists. split; [reflexivity |].
  match goal with
  | |- Store.fragment_exists _ _ _ (messages ?w1) = _ /\ _ =>
      destruct (getNextOrderIndex_is_free
                  (Fixtures.stub_env Fixtures.no_faults (Fixtures.says "Hello"))
                  "t1" Fixtures.three_fragments 4%Z w1 eq_refl eq_refl)
        as (Hfree & Hstore)
  end.
  split; [apply Hfree |].
  destruct (Hstore 0%Z "user" "Hi again" "[1]" (Fixtures.thread_row "t1" (JStr "[]"))
              eq_refl eq_refl eq_refl) as (me & w2 & Hc & Ho & _).
  exists me, w2. split; [exact Hc | exact Ho].
Defined.

(* ================================================================== *)
(** * Deleting a thread                                                *)
(* ================================================================== *)

Lemma find_thread_deleted id rows :
  Store.find_thread id (filter (fun r => negb (String.eqb (tr_id r) id)) rows) = None.
Proof.
  unfold Store.find_thread.
  induction rows as [| r rows IH]; simpl; [reflexivity |].
  destruct (String.eqb (tr_id r) id) eqn:E; simpl; [exact IH |].
  rewrite E. exact IH.
Qed.

Lemma find_thread_other id other rows :
  other <> id ->
  Store.find_thread other (filter (fun r => negb (String.eqb (tr_id r) id)) rows)
  = Store.find_thread other rows.
Proof.
  intros Hneq. unfold Store.find_thread.
  induction rows as [| r rows IH]; simpl; [reflexivity |].
  destruct (String.eqb (tr_id r) id) eqn:E; simpl.
  - apply String.eqb_eq in E.
    destruct (String.eqb (tr_id r) other) eqn:E'; [| exact IH].
    apply String.eqb_eq in E'. congruence.
  - destruct (String.eqb (tr_id r) other); [reflexivity | exact IH].
Qed.

Lemma fragments_of_other id other rows :
  other <> id ->
  filter (fun r => Store.same_id (mr_thread_id r) other)
    (filter (fun r => negb (Store.same_id (mr_thread_id r) id)) rows)
  = filter (fun r => Store.same_id (mr_thread_id r) other) rows.
Proof.
  intros Hneq.
  induction rows as [| r rows IH]; simpl; [reflexivity |].
  destruct (Store.same_id (mr_thread_id r) id) eqn:E; simpl.
  - apply same_id_true in E.
    destruct (Store.same_id (mr_thread_id r) other) eqn:E'; [| exact IH].
    apply same_id_true in E'. congruence.
  - destruct (Store.same_id (mr_thread_id r) other); [now rewrite IH | exact IH].
Qed.

(** X9.  [deleteThread] on a store that answers returns [true], whether
    or not the thread existed.  Afterwards no row has the identifier, the
    fragments of the thread are gone with it, and every other thread has
    its row and its fragments as before.  A later [readThread] of the
    identifier meets the missing row: with the code PGRST116 of the client
    it throws UNAUTHORIZED. *)
Theorem deleteThread_removes_thread_and_fragments :
  forall env threadId w,
    store_error env (trace w) (DeleteThread threadId) = None ->
    exists w1,
      deleteThread env threadId w = (Ret true, w1)
      /\ Store.find_thread threadId (threads w1) = None
      /\ no_fragments threadId (messages w1)
      /\ (forall other,
             other <> threadId ->
             Store.find_thread other (threads w1) = Store.find_thread other (threads w)
             /\ filter (fun r => Store.same_id (mr_thread_id r) other) (messages w1)
                = filter (fun r => Store.same_id (mr_thread_id r) other) (messages w))
      /\ (store_error env (trace w1) (SelectThread threadId) = None ->
          is_PGRST116 (single_no_rows env) = true ->
          fst (readThread env threadId w1)
          = Throw (AppErr (mkAppError "Get Thread Error: [object Object]" UNAUTHORIZED))).
Proof.
  intros env threadId w Hok.
  eexists. split.
  { unfold deleteThread, Store.delete_thread, Store.request, try_catch, bind.
    rewrite Hok. cbn. reflexivity. }
  cbn [threads messages trace fst snd].
  split; [apply find_thread_deleted |].
  split.
  { intros r Hin. apply filter_In in Hin. destruct Hin as (_ & Hr).
    intros Hid. apply same_id_true in Hid. rewrite Hid in Hr. discriminate. }
  split.
  { intros other Hneq. split;
      [now apply find_thread_other | now apply fragments_of_other]. }
  intros Hread Hcode.
  unfold readThread, Store.select_thread, Store.request, try_catch, bind.
  cbn [threads messages trace].
  rewrite Hread, find_thread_deleted. cbn. rewrite Hcode. reflexivity.
Qed.

Lemma deleteThread_removes_thread_and_fragments_witness :
  let env := Fixtures.stub_env Fixtures.no_faults (Fixtures.says "Hello") in
  exists w1,
    deleteThread env "t1" Fixtures.three_fragments = (Ret true, w1)
    /\ map mr_id (messages w1) = ["m9"]
    /\ map tr_id (threads w1) = ["t2"]
    /\ no_fragments "t1" (messages w1).
Proof.
  cbv zeta.
  destruct (deleteThread_removes_thread_and_fragments
              (Fixtures.stub_env Fixtures.no_faults (Fixtures.says "Hello"))
              "t1" Fixtures.three_fragments eq_refl) as (w1 & Hdel & _ & Hnone & _).
  exists w1. split; [exact Hdel |].
  assert (E : w1 = snd (deleteThread
                          (Fixtures.stub_env Fixtures.no_faults (Fixtures.says "Hello"))
                          "t1" Fixtures.three_fragments)).
  { now rewrite Hdel. }
  split; [rewrite E; reflexivity |].
  split; [rewrite E; reflexivity | exact Hnone].
Defined.

(** X10.  When the store answers the deletion with an error other than
    PGRST116, [deleteThread] still returns [true]: the error is dropped and
    the thread and its fragments stay where they are.  Only PGRST116 makes
    it throw. *)
Theorem deleteThread_hides_store_error :
  forall env threadId w e,
    store_error env (trace w) (DeleteThread threadId) = Some e ->
    (pg_code e <> "PGRST116" ->
     deleteThread env threadId w
     = (Ret true, logged (EvStore (DeleteThread threadId)) w))
    /\ (pg_code e = "PGRST116" ->
        deleteThread env threadId w
        = (Throw (AppErr (mkAppError "Delete Thread Error: [object Object]" UNAUTHORIZED)),
           logged (EvStore (DeleteThread threadId)) w)).
Proof.
  intros env threadId w e He.
  unfold deleteThread, Store.delete_thread, Store.request, try_catch, bind, logged.
  rewrite He. cbn. split; intros Hcode.
  - apply String.eqb_neq in Hcode. rewrite Hcode. reflexivity.
  - apply String.eqb_eq in Hcode. rewrite Hcode. reflexivity.
Qed.

Lemma deleteThread_hides_store_error_witness :
  let env := Fixtures.stub_env Fixtures.timeouts (Fixtures.says "Hello") in
  deleteThread env "t1" Fixtures.three_fragments
  = (Ret true, logged (EvStore (DeleteThread "t1")) Fixtures.three_fragments)
  /\ messages (snd (deleteThread env "t1" Fixtures.three_fragments))
     = messages Fixtures.three_fragments.
Proof.
  cbv zeta.
  destruct (deleteThread_hides_store_error
              (Fixtures.stub_env Fixtures.timeouts (Fixtures.says "Hello"))
              "t1" Fixtures.three_fragments Fixtures.timeout_error eq_refl) as (H & _).
  rewrite (H ltac:(discriminate)). split; reflexivity.
Defined.

(* ================================================================== *)
(** * Similar fragments                                                *)
(* ================================================================== *)

Lemma insert_by_In {A} (le : A -> A -> bool) x y l :
  In y (insert_by le x l) <-> y = x \/ In y l.
Proof.
  induction l as [| z l IH]; simpl.
  - intuition congruence.
  - destruct (le x z); simpl; [intuition congruence |].
    rewrite IH. intuition congruence.
Qed.

Lemma sort_by_In {A} (le : A -> A -> bool) y l :
  In y (sort_by le l) <-> In y l.
Proof.
  induction l as [| x l IH]; simpl; [reflexivity |].
  rewrite insert_by_In, IH. intuition congruence.
Qed.

Lemma firstn_incl {A} (n : nat) (l : list A) x : In x (firstn n l) -> In x l.
Proof.
  revert l. induction n as [| n IH]; intros [| y l]; simpl; try tauto.
  intros [H | H]; [now left | right; now apply IH].
Qed.

Lemma similar_rows_In env q similarity matchCount threadId rows row :
  In row (Store.similar_rows env q similarity matchCount threadId rows) ->
  In row rows
  /\ mr_thread_id row = Some threadId
  /\ exists e, mr_embedding row = Some e
               /\ Qle_bool (1 - cosine_distance env e q) similarity = false.
Proof.
  unfold Store.similar_rows. intros H.
  apply firstn_incl in H. apply sort_by_In in H. apply filter_In in H.
  destruct H as (Hin & Hkeep). split; [exact Hin |].
  destruct (mr_embedding row) as [e |]; [| discriminate].
  apply andb_prop in Hkeep. destruct Hkeep as (Hsim & Hid).
  split; [now apply same_id_true |].
  exists e. split; [reflexivity |]. now apply negb_true_iff.
Qed.

Lemma similar_rows_length env q similarity matchCount threadId rows :
  List.length (Store.similar_rows env q similarity matchCount threadId rows) <= matchCount.
Proof. unfold Store.similar_rows. apply firstn_le_length. Qed.

(** X11.  What [findSimilarMessages] returns stays inside the thread and
    inside the bounds of the search: at most [matchCount] fragments, each
    one a stored fragment of the thread that was asked for, with a
    similarity to the query above the threshold.  The search stores
    nothing. *)
Theorem findSimilarMessages_within_thread :
  forall env threadId query similarity matchCount w found w1,
    findSimilarMessages env threadId query similarity matchCount w = (Ret found, w1) ->
    List.length found <= matchCount
    /\ messages w1 = messages w
    /\ exists q,
         embedding_of env query q
         /\ forall me, In me found ->
              me_threadId me = Some threadId
              /\ exists row e,
                   In row (messages w)
                   /\ mr_thread_id row = Some threadId
                   /\ mr_embedding row = Some e
                   /\ Qle_bool (1 - cosine_distance env e q) similarity = false
                   /\ me_id me = mr_id row
                   /\ me_orderIndex me = mr_order_index row
                   /\ me_chunkIndex me = mr_chunk_index row
                   /\ me_role me = mr_role row
                   /\ me_content me = mr_content row.
Proof.
  intros env threadId query similarity matchCount w found w1 H.
  unfold findSimilarMessages in H. apply try_rethrow_Ret_inv in H.
  apply bind_Ret_inv in H. destruct H as (q & wa & Hq & H).
  pose proof (generateEmbeddings_keeps_messages env query w) as Hkeep.
  rewrite Hq in Hkeep. unfold same_messages in Hkeep. cbn in Hkeep.
  apply generateEmbeddings_Ret_inv in Hq.
  apply bind_Ret_inv in H. destruct H as (r & wb & Hr & H).
  unfold Store.rpc_match_embeddings, Store.request in Hr.
  destruct (store_error env (trace wa) _) as [e |].
  { injection Hr as <- <-. cbn in H. discriminate. }
  injection Hr as <- <-. cbn [error data] in H.
  set (rows := Store.similar_rows env q similarity matchCount threadId (messages wa)) in *.
  assert (Hrows : forall row, In row rows ->
             In row (messages w) /\ mr_thread_id row = Some threadId
             /\ exists e, mr_embedding row = Some e
                          /\ Qle_bool (1 - cosine_distance env e q) similarity = false).
  { intros row Hin. apply similar_rows_In in Hin. now rewrite Hkeep in Hin. }
  assert (Hlen : List.length rows <= matchCount) by apply similar_rows_length.
  destruct rows as [| row0 rows'] eqn:E.
  - injection H as <- <-. cbn. repeat split; [lia | exact Hkeep |].
    exists q. split; [exact Hq |]. intros me [].
  - unfold bind, current_trace in H. cbn in H. injection H as <- <-.
    cbn [messages]. split; [| split; [exact Hkeep |]].
    + cbn [List.length map]. rewrite length_map. exact Hlen.
    + exists q. split; [exact Hq |]. intros me Hme.
      change (In me (map (fun item =>
                  mkMessageEmbedding (mr_id item)
                    (Some (match mr_thread_id item with
                           | Some t => t
                           | None => EmptyString
                           end))
                    (mr_chunk_index item) (mr_order_index item) (mr_role item)
                    (mr_content item)
                    (match mr_embedding item with
                     | Some e => if Js.is_empty e then None else Some e
                     | None => None
                     end)
                    (Some (match mr_created_at item with
                           | Some t => if Js.is_empty t then now env (trace wa ++
                               [EvStore (MatchEmbeddings q similarity matchCount threadId)])
                                       else t
                           | None => now env (trace wa ++
                               [EvStore (MatchEmbeddings q similarity matchCount threadId)])
                           end)))
                  (row0 :: rows'))) in Hme.
      apply in_map_iff in Hme. destruct Hme as (row & <- & Hin).
      destruct (Hrows row Hin) as (Hin' & Hid & e & He & Hsim).
      cbn. rewrite Hid. split; [reflexivity |].
      exists row, e. repeat split; assumption.
Qed.

Lemma findSimilarMessages_within_thread_witness :
  let env := Fixtures.stub_env Fixtures.no_faults (Fixtures.says "Hello") in
  exists found w1,
    findSimilarMessages env "t1" "And the day after?" (7 # 10)%Q 2 Fixtures.three_fragments
    = (Ret found, w1)
    /\ List.length found <= 2
    /\ forall me, In me found -> me_threadId me = Some "t1".
Proof.
  cbv zeta. eexists. eexists. split; [reflexivity |].
  match goal with
  | |- List.length ?found <= _ /\ _ =>
      destruct (findSimilarMessages_within_thread
                  (Fixtures.stub_env Fixtures.no_faults (Fixtures.says "Hello"))
                  "t1" "And the day after?" (7 # 10)%Q 2 Fixtures.three_fragments
                  found _ eq_refl) as (Hlen & _ & q & _ & Hall)
  end.
  split; [exact Hlen |]. intros me Hme. now destruct (Hall me Hme).
Defined.

(** X12.  When the store answers the similarity search with an error,
    whatever its code, [findSimilarMessages] throws NOT_FOUND with the text
    of the query in the message, and [prepareProcess] passes that error on
    unchanged: the preparation of the turn fails with NOT_FOUND, not with
    the [DATABASE_ERROR] or [INTERNAL_ERROR] of the enclosing handlers. *)
Theorem findSimilarMessages_store_error_is_not_found :
  forall env config request thread w q w1 e,
    rq_message request <> EmptyString ->
    generateEmbeddings env (rq_message request) w = (Ret q, w1) ->
    store_error env (trace w1)
      (MatchEmbeddings q (cf_similarity config) (cf_matchCount config) (th_id thread))
    = Some e ->
    let failure :=
      (@Throw (list MessageEmbedding)
         (AppErr (mkAppError ("Message Embedding Error: " ++ rq_message request ++ ": ")
                             NOT_FOUND)),
       logged (EvStore (MatchEmbeddings q (cf_similarity config) (cf_matchCount config)
                          (th_id thread))) w1) in
    findSimilarMessages env (th_id thread) (rq_message request) (cf_similarity config)
      (cf_matchCount config) w = failure
    /\ (forall items,
           th_userObjectives thread = JArr items ->
           fst (prepareProcess env config request thread w)
           = Throw (AppErr (mkAppError
                              ("Message Embedding Error: " ++ rq_message request ++ ": ")
                              NOT_FOUND))).
Proof.
  intros env config request thread w q w1 e Hmsg Hq He. cbv zeta.
  assert (Hfind :
            findSimilarMessages env (th_id thread) (rq_message request)
              (cf_similarity config) (cf_matchCount config) w
            = (Throw (AppErr (mkAppError
                                ("Message Embedding Error: " ++ rq_message request ++ ": ")
                                NOT_FOUND)),
               logged (EvStore (MatchEmbeddings q (cf_similarity config)
                                  (cf_matchCount config) (th_id thread))) w1)).
  { unfold findSimilarMessages.
    match goal with
    | |- try_catch ?m _ w = (Throw ?x, ?w2) => assert (Hbody : m w = (Throw x, w2))
    end.
    { rewrite (bind_Ret _ _ _ _ _ Hq).
      unfold bind, Store.rpc_match_embeddings, Store.request. rewrite He. cbn.
      unfold throwAppError, throw, logged. cbn. reflexivity. }
    rewrite (try_catch_Throw _ _ _ _ _ Hbody). reflexivity. }
  split; [exact Hfind |].
  intros items Hitems. unfold prepareProcess.
  match goal with
  | |- fst (try_catch ?m _ w) = Throw ?x =>
      assert (Hbody : m w
                      = (Throw x,
                         logged (EvStore (MatchEmbeddings q (cf_similarity config)
                                            (cf_matchCount config) (th_id thread))) w1))
  end.
  { rewrite Hitems.
    assert (Hsys : exists s, system_content (cf_systemMessage config) (JArr items) w
                             = (Ret s, w)).
    { destruct items; eexists; reflexivity. }
    destruct Hsys as (s & Hsys). rewrite (bind_Ret _ _ _ _ _ Hsys).
    apply bind_Throw.
    destruct (rq_message request) as [| c m] eqn:Em; [congruence |].
    cbn [Js.is_empty]. apply bind_Throw. exact Hfind. }
  rewrite (try_catch_Throw _ _ _ _ _ Hbody). reflexivity.
Qed.

Lemma findSimilarMessages_store_error_is_not_found_witness :
  let env := Fixtures.stub_env Fixtures.timeouts (Fixtures.says "Hello") in
  fst (prepareProcess env Fixtures.plain_config Fixtures.hello_request Fixtures.thread_t1
         Fixtures.three_fragments)
  = Throw (AppErr (mkAppError "Message Embedding Error: And the day after?: " NOT_FOUND)).
Proof.
  cbv zeta.
  destruct (findSimilarMessages_store_error_is_not_found
              (Fixtures.stub_env Fixtures.timeouts (Fixtures.says "Hello"))
              Fixtures.plain_config Fixtures.hello_request Fixtures.thread_t1
              Fixtures.three_fragments "[18]"
              (logged (EvEmbed "And the day after?") Fixtures.three_fragments)
              Fixtures.timeout_error) as (_ & H).
  - discriminate.
  - reflexivity.
  - reflexivity.
  - exact (H [JStr "Learn Rocq"] eq_refl).
Defined.

(* ================================================================== *)
(** * Embeddings of a text                                             *)
(* ================================================================== *)

Lemma generateEmbeddings_outcome env text w :
  trace (snd (generateEmbeddings env text w)) = trace w ++ [EvEmbed text]
  /\ ((exists e, fst (generateEmbeddings env text w) = Ret e)
      \/ (exists a, fst (generateEmbeddings env text w) = Throw (AppErr a))).
Proof.
  unfold generateEmbeddings, try_catch, bind, call_service, ret.
  destruct (embedQuery env (trace w) text) as [e | v]; cbn.
  - destruct e; cbn; split; try reflexivity; right; eexists; reflexivity.
  - split; [reflexivity |]. left. eexists. reflexivity.
Qed.

Lemma start_each_cons {A B} (f : A -> M B) x r w :
  start_each f (x :: r) w
  = match start (f x) w with
    | (Ret p, w1) =>
        match start_each f r w1 with
        | (Ret ps, w2) => (Ret (p :: ps), w2)
        | (Throw e, w2) => (Throw e, w2)
        | (OutOfFuel, w2) => (OutOfFuel, w2)
        end
    | (Throw e, w1) => (Throw e, w1)
    | (OutOfFuel, w1) => (OutOfFuel, w1)
    end.
Proof.
  cbn [start_each]. unfold bind.
  destruct (start (f x) w) as [[p | e |] w1]; [| reflexivity | reflexivity].
  destruct (start_each f r w1) as [[ps | e |] w2]; reflexivity.
Qed.

Lemma chunk_promise env snippet w :
  exists p wa,
    start (embedding <- generateEmbeddings env snippet ;;
           ret (mkEmbeddingChunk snippet embedding)) w = (Ret p, wa)
    /\ trace wa = trace w ++ [EvEmbed snippet]
    /\ ((exists e, p = Fulfilled (mkEmbeddingChunk snippet e))
        \/ (exists a, p = Rejected (AppErr a))).
Proof.
  destruct (generateEmbeddings_outcome env snippet w) as (Htr & Hout).
  unfold start, bind.
  destruct (generateEmbeddings env snippet w) as [[e | x |] wa]; cbn in *.
  - eexists. eexists. split; [reflexivity |]. split; [exact Htr |]. left. now exists e.
  - destruct Hout as [(e & He) | (a & Ha)]; [discriminate |]. injection Ha as ->.
    eexists. eexists. split; [reflexivity |]. split; [exact Htr |]. right. now exists a.
  - destruct Hout as [(e & He) | (a & Ha)]; discriminate.
Qed.

(** The promises that [snippets.map(async ...)] creates: one per snippet,
    each with its request to the embedding provider, whatever the others
    do. *)
Lemma snippet_promises env snippets w :
  exists ps w1,
    start_each (fun snippet =>
                  embedding <- generateEmbeddings env snippet ;;
                  ret (mkEmbeddingChunk snippet embedding)) snippets w
    = (Ret ps, w1)
    /\ trace w1 = trace w ++ map EvEmbed snippets
    /\ (forall chunks, all_settled ps = Fulfilled chunks ->
                       map ec_content chunks = snippets)
    /\ (forall e, all_settled ps = Rejected e -> exists a, e = AppErr a).
Proof.
  revert w. induction snippets as [| s snippets IH]; intros w.
  - exists [], w. cbn. rewrite app_nil_r.
    repeat split; try reflexivity.
    + intros chunks H. injection H as <-. reflexivity.
    + intros e H. discriminate.
  - rewrite start_each_cons.
    destruct (chunk_promise env s w) as (p & wa & Hp & Htr & Hkind).
    rewrite Hp.
    destruct (IH wa) as (ps & w1 & Hps & Htr1 & Hok & Hbad).
    rewrite Hps. exists (p :: ps), w1.
    split; [reflexivity |]. split.
    { rewrite Htr1, Htr, <- app_assoc. reflexivity. }
    destruct Hkind as [(e & ->) | (a & ->)]; cbn.
    + destruct (all_settled ps) as [l | x]; split.
      * intros chunks H. injection H as <-. cbn. f_equal. now apply Hok.
      * intros x H. discriminate.
      * intros chunks H. discriminate.
      * intros y H. injection H as <-. now apply Hbad.
    + split.
      * intros chunks H. discriminate.
      * intros y H. injection H as <-. now exists a.
Qed.

(** X13.  [generateEmbeddingChunks] asks for the embedding of every
    snippet that the splitter returned, in their order, also when one of
    the requests fails: the requests are all made before the first result
    is looked at.  When it returns, it returns one chunk per snippet, in
    the same order; when it fails, it fails with an [AppError]. *)
Theorem generateEmbeddingChunks_embeds_every_snippet :
  forall env text w snippets,
    splitText env (trace w) text = inr snippets ->
    trace (snd (generateEmbeddingChunks env text w))
    = trace w ++ EvSplit text :: map EvEmbed snippets
    /\ ((exists chunks,
            fst (generateEmbeddingChunks env text w) = Ret chunks
            /\ map ec_content chunks = snippets)
        \/ (exists a, fst (generateEmbeddingChunks env text w) = Throw (AppErr a))).
Proof.
  intros env text w snippets Hsplit.
  set (w0 := mkWorld (threads w) (messages w) (trace w ++ [EvSplit text])).
  assert (Hs : splitTextIntoChunks env text w = (Ret snippets, w0)).
  { unfold splitTextIntoChunks, try_catch, call_service. rewrite Hsplit. reflexivity. }
  destruct (snippet_promises env snippets w0) as (ps & w1 & Hps & Htr & Hok & Hbad).
  unfold generateEmbeddingChunks, try_catch.
  rewrite (bind_Ret _ _ _ _ _ Hs), (bind_Ret _ _ _ _ _ Hps).
  unfold Promise_all, await.
  destruct (all_settled ps) as [chunks | e] eqn:E; cbn.
  - split; [rewrite Htr; cbn; now rewrite <- app_assoc |].
    left. exists chunks. split; [reflexivity | now apply Hok].
  - destruct (Hbad e eq_refl) as (a & ->). cbn.
    split; [rewrite Htr; cbn; now rewrite <- app_assoc |].
    right. now exists a.
Qed.

Lemma generateEmbeddingChunks_embeds_every_snippet_witness :
  let env := Fixtures.halving_env (Fixtures.says "Hello") in
  trace (snd (generateEmbeddingChunks env "Hello, world" Fixtures.empty_world))
  = [EvSplit "Hello, world"; EvEmbed "Hello,"; EvEmbed " world"].
Proof.
  cbv zeta.
  destruct (generateEmbeddingChunks_embeds_every_snippet
              (Fixtures.halving_env (Fixtures.says "Hello")) "Hello, world"
              Fixtures.empty_world ["Hello,"; " world"] eq_refl) as (H & _).
  exact H.
Defined.

(* ================================================================== *)
(** * Requests to the model                                            *)
(* ================================================================== *)

(** X14.  [ensureSystemMessage] leaves a history that has a system message
    as it is, and puts the configured one in front of a history that has
    none.  So its result always has a system message, applying it again
    changes nothing, and the history that [prepareProcess] builds, which
    starts with a system message, reaches the model as it was built. *)
Theorem ensureSystemMessage_once :
  forall messages systemMessage,
    existsb is_system (ensureSystemMessage messages systemMessage) = true
    /\ (forall other,
           ensureSystemMessage (ensureSystemMessage messages systemMessage) other
           = ensureSystemMessage messages systemMessage)
    /\ (existsb is_system messages = true ->
        ensureSystemMessage messages systemMessage = messages)
    /\ (forall env config request thread w aiConfig w1,
           prepareProcess env config request thread w = (Ret aiConfig, w1) ->
           ensureSystemMessage (cfg_messages aiConfig) systemMessage
           = cfg_messages aiConfig).
Proof.
  intros messages systemMessage.
  assert (Hkeep : forall l s, existsb is_system l = true -> ensureSystemMessage l s = l).
  { intros l s H. unfold ensureSystemMessage. unfold is_system in H. now rewrite H. }
  assert (Hhas : existsb is_system (ensureSystemMessage messages systemMessage) = true).
  { unfold ensureSystemMessage.
    destruct (existsb _ messages) eqn:E; [exact E | reflexivity]. }
  split; [exact Hhas |].
  split; [intros other; now apply Hkeep |].
  split; [apply Hkeep |].
  intros env config request thread w aiConfig w1 H.
  apply Hkeep.
  unfold prepareProcess in H. apply try_rethrow_Ret_inv in H.
  apply bind_Ret_inv in H. destruct H as (s & wa & _ & H).
  apply bind_Ret_inv in H. destruct H as (history & wb & _ & H).
  injection H as <- _. reflexivity.
Qed.

(* ================================================================== *)
(** * Streamed replies                                                 *)
(* ================================================================== *)

Lemma tokens_text_app a b : tokens_text (a ++ b) = (tokens_text a ++ tokens_text b)%string.
Proof.
  induction a as [| e a IH]; simpl; [reflexivity |].
  destruct e; try exact IH. now rewrite IH, append_assoc.
Qed.

Lemma tokens_text_filter tr : tokens_text (filter is_token tr) = tokens_text tr.
Proof.
  induction tr as [| e tr IH]; simpl; [reflexivity |].
  destruct e; simpl; try exact IH. now rewrite IH.
Qed.

Lemma same_tokens w w1 : same_events is_token w w1 -> tokens_text (trace w1) = tokens_text (trace w).
Proof.
  unfold same_events. intros H.
  now rewrite <- (tokens_text_filter (trace w1)), H, tokens_text_filter.
Qed.

(** The loop over the chunks: what has been handed to the callback is what
    has been added to the text. *)
Lemma consume_stream_tokens chunks fullContent toolCalls w r w1 :
  consume_stream chunks fullContent toolCalls w = (Ret r, w1) ->
  exists added,
    fst r = (fullContent ++ added)%string
    /\ tokens_text (trace w1) = (tokens_text (trace w) ++ added)%string.
Proof.
  revert fullContent toolCalls w.
  induction chunks as [| delta chunks IH]; intros fullContent toolCalls w H.
  - injection H as <- <-. exists EmptyString. now rewrite !append_empty_r.
  - cbn [consume_stream] in H.
    set (text := match delta with
                 | Some d => match dl_content d with Some t => t | None => EmptyString end
                 | None => EmptyString
                 end) in *.
    apply bind_Ret_inv in H. destruct H as (u & wa & Hemit & H).
    apply IH in H. destruct H as (added & Hfst & Htok).
    exists (text ++ added)%string. rewrite Hfst, Htok, <- !append_assoc.
    split; [reflexivity |]. f_equal.
    destruct (Js.is_empty text) eqn:E.
    + injection Hemit as _ <-. destruct text; [| discriminate].
      now rewrite append_empty_r.
    + injection Hemit as _ <-. cbn. rewrite tokens_text_app. cbn.
      now rewrite append_empty_r.
Qed.

(** X15.  With a token callback and without a response format, the message
    that [executeAICall] returns is the text that the callback has received
    during the call: the tokens, in their order, put together. *)
Theorem streamed_message_is_the_tokens :
  forall env config w r w1,
    onToken config = true ->
    responseFormat config = None ->
    executeAICall env config w = (Ret r, w1) ->
    tokens_text (trace w1) = (tokens_text (trace w) ++ ar_message r)%string.
Proof.
  intros env config w r w1 Hstream Hformat H.
  unfold executeAICall in H. apply try_rethrow_Ret_inv in H.
  rewrite Hstream in H. unfold executeStreamingAICall in H. rewrite Hformat in H.
  apply bind_Ret_inv in H. destruct H as (stream & wa & Hcall & H).
  apply bind_Ret_inv in H. destruct H as (res & wb & Hloop & H).
  destruct (snd stream) as [failure |]; [discriminate |].
  apply consume_stream_tokens in Hloop. destruct Hloop as (added & Hfst & Htok).
  cbn in Hfst. subst added.
  pose proof (processAIResponse_quiet is_token (fun _ _ => eq_refl)
                (fst res) (Some (snd res)) None wb) as Hquiet.
  rewrite H in Hquiet. cbn in Hquiet. apply same_tokens in Hquiet.
  assert (Hmsg : ar_message r = fst res).
  { unfold processAIResponse in H. apply bind_Ret_inv in H.
    destruct H as (changes & wc & _ & H). injection H as <- _. reflexivity. }
  rewrite Hquiet, Htok, Hmsg. f_equal.
  unfold call_service in Hcall.
  destruct (chat_stream env (trace w) _); [discriminate |].
  injection Hcall as _ <-. cbn. rewrite tokens_text_app. cbn. now rewrite append_empty_r.
Qed.

Lemma streamed_message_is_the_tokens_witness :
  let env := Fixtures.stub_env Fixtures.no_faults (Fixtures.says "Hello") in
  exists r w1,
    executeAICall env (Fixtures.ai_config true) Fixtures.empty_world = (Ret r, w1)
    /\ tokens_text (trace w1) = "Hello"
    /\ ar_message r = "Hello".
Proof.
  cbv zeta. eexists. eexists. split; [reflexivity |].
  split; [| reflexivity].
  match goal with
  | |- tokens_text (trace ?w1) = _ =>
      rewrite (streamed_message_is_the_tokens
                 (Fixtures.stub_env Fixtures.no_faults (Fixtures.says "Hello"))
                 (Fixtures.ai_config true) Fixtures.empty_world _ w1
                 eq_refl eq_refl eq_refl)
  end.
  reflexivity.
Defined.

Lemma ensureSystemMessage_once_witness :
  let env := Fixtures.stub_env Fixtures.no_faults (Fixtures.says "Hello") in
  exists aiConfig w1,
    prepareProcess env Fixtures.plain_config Fixtures.hello_request Fixtures.thread_t1
      Fixtures.three_fragments = (Ret aiConfig, w1)
    /\ ensureSystemMessage (cfg_messages aiConfig) "Another system message"
       = cfg_messages aiConfig.
Proof.
  cbv zeta.
  destruct (prepareProcess (Fixtures.stub_env Fixtures.no_faults (Fixtures.says "Hello"))
              Fixtures.plain_config Fixtures.hello_request Fixtures.thread_t1
              Fixtures.three_fragments) as [o w1] eqn:Hp.
  assert (E : exists aiConfig, o = Ret aiConfig).
  { vm_compute in Hp. injection Hp as <- _. eexists. reflexivity. }
  destruct E as (aiConfig & ->). exists aiConfig, w1. split; [reflexivity |].
  destruct (ensureSystemMessage_once [] "Another system message") as (_ & _ & _ & H).
  exact (H _ _ _ _ _ _ _ Hp).
Defined.

Lemma consume_tool_chunk d chunks content toolCalls w :
  consume_stream (tool_chunk d :: chunks) content toolCalls w
  = consume_stream chunks content (add_tool_call_delta toolCalls 0 d) w.
Proof.
  cbn [consume_stream tool_chunk dl_content Js.is_empty].
  rewrite bind_ret_l, append_empty_r. reflexivity.
Qed.

Lemma consume_tool_chunks ds content tc tl w :
  consume_stream (map tool_chunk ds) content (tc :: tl) w
  = (Ret (content,
          mkToolCall (tc_id tc) (tc_name tc) (tc_arguments tc ++ all_arguments ds) :: tl),
     w).
Proof.
  revert content tc w. induction ds as [| d ds IH]; intros content tc w.
  - cbn. rewrite append_empty_r. now destruct tc.
  - cbn [map]. rewrite consume_tool_chunk.
    unfold add_tool_call_delta. cbn [nth_error all_arguments].
    unfold fragment_arguments.
    destruct (tcd_function d) as [[n [a |]] |]; cbn [update_at append_arguments];
      rewrite IH; unfold append_arguments; cbn [tc_id tc_name tc_arguments].
    + now rewrite append_assoc.
    + reflexivity.
    + reflexivity.
Qed.

(** X16.  Streamed tool calls are put together by the position of each
    element in the [tool_calls] list of its chunk.  When every chunk
    carries one element, all of them land at position 0: the result is one
    tool call, with the identifier and the name of the first element and
    with the argument texts of all elements in a row, whatever identifiers
    and names the later elements carry. *)
Theorem streamed_tool_calls_merge_by_position :
  forall first rest content w,
    consume_stream (map tool_chunk (first :: rest)) content [] w
    = (Ret (content,
            [mkToolCall
               (match tcd_id first with Some i => i | None => EmptyString end)
               (match tcd_function first with
                | Some (Some n, _) => n
                | _ => EmptyString
                end)
               (all_arguments (first :: rest))]),
       w).
Proof.
  intros first rest content w.
  cbn [map]. rewrite consume_tool_chunk.
  unfold add_tool_call_delta. cbn [nth_error app all_arguments].
  unfold fragment_arguments.
  destruct (tcd_function first) as [[n [a |]] |]; cbn [update_at append_arguments];
    rewrite consume_tool_chunks; unfold append_arguments;
    cbn [tc_id tc_name tc_arguments append]; reflexivity.
Qed.

(* ================================================================== *)
(** * Structured replies                                               *)
(* ================================================================== *)

Lemma executeDefaultAICall_no_tokens env config :
  preserves (same_events is_token) (executeDefaultAICall env config).
Proof. unfold executeDefaultAICall, console. frame_events. Qed.

Lemma executeDefaultAICall_tools env config :
  executeDefaultAICall env
    (mkAIExecutionConfig (model config) (systemMessage config) (cfg_messages config)
       (Some (match tools config with Some l => l | None => [] end)) false
       (responseFormat config))
  = executeDefaultAICall env config.
Proof.
  unfold executeDefaultAICall. cbn [model systemMessage cfg_messages tools responseFormat].
  unfold tool_definitions. destruct (tools config); reflexivity.
Qed.

(** X17.  A call with a response format is never streamed, even when a
    token callback is configured: [executeAICall] logs a warning and does
    what it would have done without the callback, so the callback receives
    nothing. *)
Theorem structured_call_is_never_streamed :
  forall env config f w,
    onToken config = true ->
    responseFormat config = Some f ->
    executeAICall env config w
    = executeAICall env
        (mkAIExecutionConfig (model config) (systemMessage config) (cfg_messages config)
           (tools config) false (Some f))
        (logged (EvConsole LogWarn
                   "Strukturierte Antworten sind nicht mit Streaming kompatibel. Verwende executeDefaultAICall.")
                w)
    /\ tokens_text (trace (snd (executeAICall env config w))) = tokens_text (trace w).
Proof.
  intros env config f w Hstream Hformat.
  assert (Heq : executeAICall env config w
                = executeAICall env
                    (mkAIExecutionConfig (model config) (systemMessage config)
                       (cfg_messages config) (tools config) false (Some f))
                    (logged (EvConsole LogWarn
                               "Strukturierte Antworten sind nicht mit Streaming kompatibel. Verwende executeDefaultAICall.")
                            w)).
  { unfold executeAICall, try_catch. rewrite Hstream. cbn [onToken].
    unfold executeStreamingAICall. rewrite Hformat.
    unfold bind at 1. unfold console, emit, logged.
    rewrite <- Hformat at 1. rewrite executeDefaultAICall_tools.
    replace (mkAIExecutionConfig (model config) (systemMessage config)
               (cfg_messages config) (tools config) false (Some f))
      with (mkAIExecutionConfig (model config) (systemMessage config)
              (cfg_messages config) (tools config) false (responseFormat config))
      by now rewrite Hformat.
    assert (Hsame : executeDefaultAICall env config
                    = executeDefaultAICall env
                        (mkAIExecutionConfig (model config) (systemMessage config)
                           (cfg_messages config) (tools config) false
                           (responseFormat config))) by reflexivity.
    rewrite <- Hsame. reflexivity. }
  split; [exact Heq |].
  rewrite Heq. unfold executeAICall. cbn [onToken].
  match goal with
  | |- tokens_text (trace (snd (try_catch ?m ?h ?w0))) = _ =>
      assert (Hq : preserves (same_events is_token) (try_catch m h))
  end.
  { apply preserves_try_catch; [apply executeDefaultAICall_no_tokens |].
    intros e. apply preserves_handleAppError. }
  rewrite (same_tokens _ _ (Hq _)). cbn. rewrite tokens_text_app. cbn.
  now rewrite append_empty_r.
Qed.

Lemma structured_call_is_never_streamed_witness :
  let env := Fixtures.stub_env Fixtures.no_faults (Fixtures.says "{}") in
  let config :=
    mkAIExecutionConfig "gpt-4o" "You are a helpful test assistant."
      [mkChatMessage "user" "Summarise" None None] None true
      (Some (mkResponseFormat (fun v => Some v) "summary")) in
  tokens_text (trace (snd (executeAICall env config Fixtures.empty_world))) = EmptyString
  /\ filter is_chat (trace (snd (executeAICall env config Fixtures.empty_world)))
     = [EvChat (mkChatRequest "gpt-4o"
                  [mkChatMessage "system" "You are a helpful test assistant." None None;
                   mkChatMessage "user" "Summarise" None None]
                  None false None (Some "summary"))].
Proof.
  cbv zeta. split; [| reflexivity].
  match goal with
  | |- tokens_text (trace (snd (executeAICall ?env ?config ?w))) = _ =>
      destruct (structured_call_is_never_streamed env config
                  (mkResponseFormat (fun v => Some v) "summary") w eq_refl eq_refl)
        as (_ & H)
  end.
  exact H.
Defined.

(** The request that [executeDefaultAICall] sends for a structured call. *)
Lemma structured_default_call env config schema schemaName w content toolCalls :
  onToken config = false ->
  chat_create env (trace w)
    (request_params (model config)
       (ensureSystemMessage (cfg_messages config) (systemMessage config))
       (tool_definitions (tools config)) false (Some schemaName))
  = inr (mkCompletion (Some content) toolCalls) ->
  forall k : AIExecutionResult -> M (string * json * list string),
    bind (executeAICall env
            (mkAIExecutionConfig (model config) (systemMessage config)
               (cfg_messages config) (tools config) (onToken config)
               (Some (mkResponseFormat schema schemaName)))) k w
    = bind (structuredData <-
              (if Js.is_empty content then ret None
               else
                 match JSON.parse content with
                 | Some v =>
                     match schema v with
                     | Some d => ret (Some d)
                     | None =>
                         console LogError "Fehler beim Parsen der strukturierten Daten:" ;;;
                         ret (Some v)
                     end
                 | None =>
                     console LogError "Fehler beim Parsen der strukturierten Daten:" ;;;
                     ret None
                 end) ;;
            ret (mkAIExecutionResult content toolCalls (extractUserObjectives content)
                   structuredData None None None)) k
        (logged (EvChat (request_params (model config)
                           (ensureSystemMessage (cfg_messages config) (systemMessage config))
                           (tool_definitions (tools config)) false (Some schemaName))) w).
Proof.
  intros Hplain Hreply k. rewrite Hplain.
  unfold executeAICall, try_catch, executeDefaultAICall, bind, call_service, logged.
  cbn [onToken model systemMessage cfg_messages tools responseFormat rf_name rf_schema].
  rewrite Hreply. cbn [cm_content cm_tool_calls].
  destruct (Js.is_empty content); [reflexivity |].
  destruct (JSON.parse content) as [v |]; [| reflexivity].
  destruct (schema v); reflexivity.
Qed.

Lemma parse_nonempty content v : JSON.parse content = Some v -> Js.is_empty content = false.
Proof. destruct content; [discriminate | reflexivity]. Qed.

(** X18.  [executeStructuredAICall] can return data that the schema has
    rejected.  When the reply of the model is a JSON text whose value is
    truthy and the schema refuses that value, the failure is logged and the
    value as parsed is returned as the structured data. *)
Theorem executeStructuredAICall_returns_rejected_data :
  forall env config schema schemaName w content toolCalls v,
    onToken config = false ->
    chat_create env (trace w)
      (request_params (model config)
         (ensureSystemMessage (cfg_messages config) (systemMessage config))
         (tool_definitions (tools config)) false (Some schemaName))
    = inr (mkCompletion (Some content) toolCalls) ->
    JSON.parse content = Some v ->
    schema v = None ->
    JsValue.truthy v = true ->
    fst (executeStructuredAICall env config schema schemaName w)
    = Ret (content, v, extractUserObjectives content)
    /\ trace (snd (executeStructuredAICall env config schema schemaName w))
       = trace w
         ++ [EvChat (request_params (model config)
                       (ensureSystemMessage (cfg_messages config) (systemMessage config))
                       (tool_definitions (tools config)) false (Some schemaName));
             EvConsole LogError "Fehler beim Parsen der strukturierten Daten:"].
Proof.
  intros env config schema schemaName w content toolCalls v
         Hplain Hreply Hparse Hschema Htruthy.
  unfold executeStructuredAICall.
  rewrite (structured_default_call env config schema schemaName w content toolCalls
             Hplain Hreply).
  rewrite (parse_nonempty _ _ Hparse), Hparse, Hschema.
  unfold bind, console, emit, ret, logged. cbn. rewrite Htruthy. cbn.
  split; [reflexivity |]. now rewrite <- app_assoc.
Qed.

Lemma executeStructuredAICall_returns_rejected_data_witness :
  let reply := JSON.stringify (JObj [("title", JNum 5 0)]) in
  let env := Fixtures.stub_env Fixtures.no_faults (Fixtures.says reply) in
  let titled (v : json) :=
    match v with
    | JObj members =>
        match JSON.obj_get "title" members with
        | Some (JStr _) => Some v
        | _ => None
        end
    | _ => None
    end in
  titled (JObj [("title", JNum 5 0)]) = None
  /\ fst (executeStructuredAICall env (Fixtures.ai_config false) titled "task"
            Fixtures.empty_world)
     = Ret (reply, JObj [("title", JNum 5 0)], []).
Proof.
  cbv zeta. split; [reflexivity |].
  match goal with
  | |- fst (executeStructuredAICall ?env ?config ?schema ?n ?w) = _ =>
      destruct (executeStructuredAICall_returns_rejected_data env config schema n w
                  (JSON.stringify (JObj [("title", JNum 5 0)])) None
                  (JObj [("title", JNum 5 0)])
                  eq_refl eq_refl eq_refl eq_refl eq_refl) as (H & _)
  end.
  exact H.
Defined.

(** X19.  [executeStructuredAICall] reports data that is there as missing
    when it is falsy: a reply [0], [false], [null] or an empty string that
    the schema accepts makes it throw, as an empty reply and a reply that
    is not a JSON text do.  What it throws is a plain [Error], not an
    [AppError]: the function has no handler of its own. *)
Theorem executeStructuredAICall_reports_falsy_data_as_missing :
  forall env config schema schemaName w content toolCalls,
    onToken config = false ->
    chat_create env (trace w)
      (request_params (model config)
         (ensureSystemMessage (cfg_messages config) (systemMessage config))
         (tool_definitions (tools config)) false (Some schemaName))
    = inr (mkCompletion (Some content) toolCalls) ->
    content = EmptyString
    \/ JSON.parse content = None
    \/ (exists v d,
           JSON.parse content = Some v /\ schema v = Some d /\ JsValue.truthy d = false)
    \/ (exists v,
           JSON.parse content = Some v /\ schema v = None /\ JsValue.truthy v = false) ->
    fst (executeStructuredAICall env config schema schemaName w)
    = Throw (JsError "Keine strukturierten Daten erhalten").
Proof.
  intros env config schema schemaName w content toolCalls Hplain Hreply Hwhy.
  unfold executeStructuredAICall.
  rewrite (structured_default_call env config schema schemaName w content toolCalls
             Hplain Hreply).
  destruct Hwhy as [-> | [Hparse | [(v & d & Hparse & Hschema & Hfalsy)
                                   | (v & Hparse & Hschema & Hfalsy)]]].
  - reflexivity.
  - rewrite Hparse. destruct (Js.is_empty content); reflexivity.
  - rewrite (parse_nonempty _ _ Hparse), Hparse, Hschema.
    unfold bind, ret. cbn. now rewrite Hfalsy.
  - rewrite (parse_nonempty _ _ Hparse), Hparse, Hschema.
    unfold bind, console, emit, ret. cbn. now rewrite Hfalsy.
Qed.

Lemma executeStructuredAICall_reports_falsy_data_as_missing_witness :
  let env := Fixtures.stub_env Fixtures.no_faults (Fixtures.says "0") in
  let number (v : json) := match v with JNum _ _ => Some v | _ => None end in
  JSON.parse "0" = Some (JNum 0 0)
  /\ number (JNum 0 0) = Some (JNum 0 0)
  /\ fst (executeStructuredAICall env (Fixtures.ai_config false) number "count"
            Fixtures.empty_world)
     = Throw (JsError "Keine strukturierten Daten erhalten").
Proof.
  cbv zeta. split; [reflexivity | split; [reflexivity |]].
  match goal with
  | |- fst (executeStructuredAICall ?env ?config ?schema ?n ?w) = _ =>
      apply (executeStructuredAICall_reports_falsy_data_as_missing env config schema n w
               "0" None eq_refl eq_refl)
  end.
  right. right. left. exists (JNum 0 0), (JNum 0 0). repeat split; reflexivity.
Defined.

(* ================================================================== *)
(** * A turn with tools in which the model asks for none               *)
(* ================================================================== *)

Lemma objectives_update_keeps_messages env threadId (objectives : list string) :
  preserves same_messages
    (match objectives with
     | [] => ret tt
     | o :: l =>
         try_catch (updateThread env threadId None (Some (o :: l)) ;;; ret tt)
           (fun _ => console LogError "Fehler beim Aktualisieren der Benutzerziele:")
     end).
Proof.
  destruct objectives as [| o l]; [apply preserves_ret |].
  apply preserves_try_catch.
  - apply preserves_bind; [apply updateThread_keeps_messages | intros ?; apply preserves_ret].
  - intros e. apply preserves_messages_emit.
Qed.

(** X20.  When the first reply of the model asks for no tool,
    [processToolCalls] returns that reply after the one invocation, without
    a round of the loop and without running a tool.  The three entity lists
    of the response are empty whatever the reply says: on this path the
    lists come from tool responses only, and the blocks that a streamed
    reply announces in its text are dropped.  No fragment is stored. *)
Theorem processToolCalls_without_tool_calls :
  forall env fuel config tools thread w r w1,
    executeAICall env config w = (Ret r, w1) ->
    requests_tools r = false ->
    exists w2,
      processToolCalls env fuel config tools thread w
      = (Ret (mkAssistantResponse (ar_message r) (th_id thread)
                (Some []) (Some []) (Some [])), w2)
      /\ model_invocations (trace w2) = S (model_invocations (trace w))
      /\ tool_runs (trace w2) = tool_runs (trace w)
      /\ messages w2 = messages w.
Proof.
  intros env fuel config tools thread w r w1 Hcall Hnone.
  pose proof (executeAICall_invokes_once env config w) as Hchat.
  pose proof (executeAICall_runs_no_tool env config w) as Htool.
  pose proof (executeAICall_keeps_messages env config w) as Hmsgs.
  rewrite Hcall in Hchat, Htool, Hmsgs. cbn [snd] in Hchat, Htool, Hmsgs.
  destruct (objectives_update_returns env (th_id thread) (ar_userObjectives r) w1)
    as (w2 & Hupdate & Hchat2 & Htool2).
  pose proof (objectives_update_keeps_messages env (th_id thread) (ar_userObjectives r) w1)
    as Hmsgs2.
  rewrite Hupdate in Hmsgs2. cbn [snd] in Hmsgs2.
  exists w2. split.
  - unfold processToolCalls. apply try_catch_Ret.
    rewrite (bind_Ret _ _ _ _ _ Hcall).
    rewrite (bind_Ret _ _ _ _ _
               (tool_loop_done fuel env config tools
                  (mkLoopState r (cfg_messages config ++ [assistant_message r])
                     (mkEntityChanges [] [] [])) w1 Hnone)).
    cbn [ls_aiResult ls_changes created updated deleted].
    rewrite (bind_Ret _ _ _ _ _ Hupdate). reflexivity.
  - unfold model_invocations, tool_runs, same_events, same_messages in *.
    rewrite Hchat2, Htool2, Htool, Hmsgs2, Hmsgs. auto.
Qed.

Lemma processToolCalls_without_tool_calls_witness :
  let env := Fixtures.stub_env Fixtures.no_faults (Fixtures.says Fixtures.created_reply) in
  let config :=
    mkAIExecutionConfig "gpt-4o" "You are a helpful weather assistant."
      [mkChatMessage "user" "Create a task" None None] (Some [Fixtures.get_weather])
      true None in
  exists r w1,
    executeAICall env config Fixtures.empty_world = (Ret r, w1)
    /\ ar_created r = Some [JObj [("id", JStr "123"); ("type", JStr "task")]]
    /\ fst (processToolCalls env 0 config [Fixtures.get_weather] Fixtures.thread_t1
              Fixtures.empty_world)
       = Ret (mkAssistantResponse Fixtures.created_reply "t1" (Some []) (Some []) (Some [])).
Proof.
  cbv zeta.
  destruct (executeAICall
              (Fixtures.stub_env Fixtures.no_faults (Fixtures.says Fixtures.created_reply))
              (mkAIExecutionConfig "gpt-4o" "You are a helpful weather assistant."
                 [mkChatMessage "user" "Create a task" None None]
                 (Some [Fixtures.get_weather]) true None)
              Fixtures.empty_world) as [o w1] eqn:Hcall.
  assert (E : o = Ret (mkAIExecutionResult Fixtures.created_reply None [] None
                         (Some [JObj [("id", JStr "123"); ("type", JStr "task")]])
                         (Some []) (Some []))).
  { vm_compute in Hcall. injection Hcall as <- _. reflexivity. }
  subst o. eexists. exists w1. split; [reflexivity |]. split; [reflexivity |].
  destruct (processToolCalls_without_tool_calls _ 0 _ [Fixtures.get_weather]
              Fixtures.thread_t1 _ _ _ Hcall eq_refl) as (w2 & H & _).
  rewrite H. reflexivity.
Defined.

(* ================================================================== *)
(** * Requests that the assistant refuses or reinterprets              *)
(* ================================================================== *)

Lemma thread_invalid env config fuel request w :
  assistantRequestSchema (cf_contextSchema config) request = false ->
  thread env config fuel request w
  = (Throw (AppErr (mkAppError "Invalid Assistant Request: " VALIDATION_ERROR)), w).
Proof.
  intros Hinvalid. unfold thread.
  assert (Hv : validateRequest config request w
               = (Throw (AppErr (mkAppError "Invalid Assistant Request: "
                                            VALIDATION_ERROR)), w)).
  { unfold validateRequest. rewrite Hinvalid. reflexivity. }
  rewrite (try_catch_Throw _ _ _ _ _ (bind_Throw _ _ _ _ _ Hv)).
  reflexivity.
Qed.

(** X21.  [Assistant.thread] refuses every request that the request schema
    refuses, not only one with an empty message: an empty user identifier,
    a context that the configured schema does not accept, a source that is
    not of the shape of the source schema.  The refusal is a
    [VALIDATION_ERROR], and nothing has happened: no request to the store,
    to the embedding provider or to the model. *)
Theorem thread_refuses_what_the_schema_refuses :
  forall env config fuel request w,
    meta_userId request = EmptyString
    \/ cf_contextSchema config (rq_context request) = false
    \/ (exists sources source,
           rq_sources request = Some sources
           /\ In source sources
           /\ assistantSourceSchema source = false) ->
    thread env config fuel request w
    = (Throw (AppErr (mkAppError "Invalid Assistant Request: " VALIDATION_ERROR)), w).
Proof.
  intros env config fuel request w Hwhy.
  apply thread_invalid. unfold assistantRequestSchema.
  destruct Hwhy as [Huser | [Hcontext | (sources & source & Hsources & Hin & Hbad)]].
  - rewrite Huser. cbn. now rewrite andb_false_r.
  - rewrite Hcontext. now rewrite andb_false_r.
  - rewrite Hsources. apply andb_false_iff. right.
    apply not_true_is_false. intros Hall.
    rewrite forallb_forall in Hall. specialize (Hall source Hin). congruence.
Qed.

Lemma thread_refuses_what_the_schema_refuses_witness :
  let env := Fixtures.stub_env Fixtures.no_faults (Fixtures.says "Hello") in
  thread env Fixtures.plain_config 3 (mkAssistantRequest "Hello" EmptyString None None None)
    Fixtures.empty_world
  = (Throw (AppErr (mkAppError "Invalid Assistant Request: " VALIDATION_ERROR)),
     Fixtures.empty_world).
Proof.
  cbv zeta. apply thread_refuses_what_the_schema_refuses. left. reflexivity.
Defined.

(** X22.  The interface [AssistantSource] describes a source by [url] and
    [fileName]; the schema [assistantSourceSchema] asks for [id], [type]
    and [content].  A request that carries a source as the interface
    describes it is therefore always refused. *)
Theorem thread_refuses_sources_of_the_interface :
  forall env config fuel request w sources url fileName,
    rq_sources request = Some sources ->
    In (JObj [("url", JStr url); ("fileName", JStr fileName)]) sources ->
    thread env config fuel request w
    = (Throw (AppErr (mkAppError "Invalid Assistant Request: " VALIDATION_ERROR)), w).
Proof.
  intros env config fuel request w sources url fileName Hsources Hin.
  apply thread_invalid. unfold assistantRequestSchema.
  rewrite Hsources. apply andb_false_iff. right.
  apply not_true_is_false. intros Hall.
  rewrite forallb_forall in Hall. specialize (Hall _ Hin). discriminate.
Qed.

Lemma thread_refuses_sources_of_the_interface_witness :
  let env := Fixtures.stub_env Fixtures.no_faults (Fixtures.says "Hello") in
  let source := JObj [("url", JStr "https://example.com/a.pdf"); ("fileName", JStr "a.pdf")] in
  thread env Fixtures.plain_config 3
    (mkAssistantRequest "Summarise the file" "u1" None None (Some [source]))
    Fixtures.empty_world
  = (Throw (AppErr (mkAppError "Invalid Assistant Request: " VALIDATION_ERROR)),
     Fixtures.empty_world).
Proof.
  cbv zeta.
  apply (thread_refuses_sources_of_the_interface
           (Fixtures.stub_env Fixtures.no_faults (Fixtures.says "Hello"))
           Fixtures.plain_config 3
           (mkAssistantRequest "Summarise the file" "u1" None None
              (Some [JObj [("url", JStr "https://example.com/a.pdf");
                           ("fileName", JStr "a.pdf")]]))
           Fixtures.empty_world
           [JObj [("url", JStr "https://example.com/a.pdf"); ("fileName", JStr "a.pdf")]]
           "https://example.com/a.pdf" "a.pdf").
  - reflexivity.
  - left. reflexivity.
Defined.

(** X23.  An empty thread identifier counts as none: the request is
    handled exactly as the same request without [threadId], so no thread is
    looked up and a new one is created. *)
Theorem thread_with_empty_thread_id :
  forall env config fuel message userId context sources w,
    thread env config fuel
      (mkAssistantRequest message userId (Some EmptyString) context sources) w
    = thread env config fuel (mkAssistantRequest message userId None context sources) w.
Proof.
  intros env config fuel message userId context sources w.
  unfold thread, validateRequest.
  change (assistantRequestSchema (cf_contextSchema config)
            (mkAssistantRequest message userId (Some EmptyString) context sources))
    with (assistantRequestSchema (cf_contextSchema config)
            (mkAssistantRequest message userId None context sources)).
  unfold try_catch, bind.
  destruct (assistantRequestSchema (cf_contextSchema config)
              (mkAssistantRequest message userId None context sources));
    reflexivity.
Qed.

(* ================================================================== *)
(** * What a turn never does to the store                              *)
(* ================================================================== *)

#[export] Instance only_grows_frame : Frame only_grows.
Proof.
  split.
  - intros w. split; exists []; now rewrite app_nil_r.
  - intros a b c [(m1 & Hm1) (t1 & Ht1)] [(m2 & Hm2) (t2 & Ht2)]. split.
    + exists (m1 ++ m2). now rewrite Hm2, Hm1, app_assoc.
    + exists (t1 ++ t2). now rewrite Ht2, Ht1, app_assoc.
Qed.

Lemma only_grows_same w w' :
  messages w' = messages w -> threads w' = threads w -> only_grows w w'.
Proof.
  intros Hm Ht. split; exists []; rewrite app_nil_r; congruence.
Qed.

Lemma grows_emit ev : preserves only_grows (emit ev).
Proof. intros w. now apply only_grows_same. Qed.

Lemma grows_call_service {A} ev (answer : list Event -> Exn + A) :
  preserves only_grows (call_service ev answer).
Proof.
  intros w. unfold call_service. destruct (answer (trace w)); now apply only_grows_same.
Qed.

Lemma grows_request {A} env op
      (exec : World -> DbResponse A * (list ThreadRow * list MessageRow)) :
  (forall w, only_grows w (mkWorld (fst (snd (exec w))) (snd (snd (exec w))) (trace w))) ->
  preserves only_grows (Store.request env op exec).
Proof.
  intros Hexec w. unfold Store.request.
  destruct (store_error env (trace w) op); [now apply only_grows_same |].
  specialize (Hexec w). destruct (exec w) as [r [ts ms]]. exact Hexec.
Qed.

Lemma map_id_update id row' rows :
  tr_id row' = id ->
  map tr_id (map (fun r => if String.eqb (tr_id r) id then row' else r) rows)
  = map tr_id rows.
Proof.
  intros Hid. induction rows as [| r rows IH]; simpl; [reflexivity |].
  rewrite IH. f_equal.
  destruct (String.eqb (tr_id r) id) eqn:E; [| reflexivity].
  apply String.eqb_eq in E. congruence.
Qed.

Section Grows.
Variable env : Env.

Lemma insert_thread_grows user_id title user_objectives :
  preserves only_grows (Store.insert_thread env user_id title user_objectives).
Proof.
  apply grows_request. intros w. cbv beta zeta.
  destruct (Store.find_thread (gen_random_uuid env (trace w)) (threads w)).
  - apply only_grows_same; reflexivity.
  - split; cbn [messages threads fst snd]; [exists []; now rewrite app_nil_r |].
    eexists. rewrite map_app. reflexivity.
Qed.

Lemma select_thread_grows id : preserves only_grows (Store.select_thread env id).
Proof.
  apply grows_request. intros w. cbv beta zeta.
  destruct (Store.find_thread id (threads w)); apply only_grows_same; reflexivity.
Qed.

Lemma update_thread_grows id title user_objectives :
  preserves only_grows (Store.update_thread env id title user_objectives).
Proof.
  apply grows_request. intros w. cbv beta zeta.
  destruct (Store.find_thread id (threads w)) as [row |] eqn:F;
    [| apply only_grows_same; reflexivity].
  split; cbn [messages threads fst snd]; exists []; rewrite app_nil_r; [reflexivity |].
  apply map_id_update. cbn. exact (find_thread_id _ _ _ F).
Qed.

Lemma insert_message_grows thread_id order_index chunk_index role content embedding :
  preserves only_grows
    (Store.insert_message env thread_id order_index chunk_index role content embedding).
Proof.
  apply grows_request. intros w. cbv beta zeta.
  destruct (negb (Store.role_allowed role)); [apply only_grows_same; reflexivity |].
  destruct (Store.find_thread thread_id (threads w));
    [| apply only_grows_same; reflexivity].
  destruct (Store.fragment_exists thread_id order_index chunk_index (messages w));
    [apply only_grows_same; reflexivity |].
  split; cbn [messages threads fst snd];
    [eexists; reflexivity | exists []; now rewrite app_nil_r].
Qed.

Lemma select_top_order_index_grows thread_id :
  preserves only_grows (Store.select_top_order_index env thread_id).
Proof.
  apply grows_request. intros w. cbv beta zeta. apply only_grows_same; reflexivity.
Qed.

Lemma rpc_match_embeddings_grows q similarity matchCount thread_id :
  preserves only_grows (Store.rpc_match_embeddings env q similarity matchCount thread_id).
Proof.
  apply grows_request. intros w. cbv beta zeta. apply only_grows_same; reflexivity.
Qed.

Ltac grows :=
  frame;
  try (first [ apply grows_call_service
             | apply grows_emit
             | apply insert_thread_grows
             | apply select_thread_grows
             | apply update_thread_grows
             | apply insert_message_grows
             | apply select_top_order_index_grows
             | apply rpc_match_embeddings_grows ]).

Lemma generateEmbeddings_grows text : preserves only_grows (generateEmbeddings env text).
Proof. unfold generateEmbeddings. grows. Qed.

Lemma createThread_grows userId title : preserves only_grows (createThread env userId title).
Proof.
  unfold createThread, to_thread, read_user_objectives, JSON_parse. grows.
Qed.

Lemma readThread_grows threadId : preserves only_grows (readThread env threadId).
Proof.
  unfold readThread, to_thread, read_user_objectives, JSON_parse. grows.
Qed.

Lemma updateThread_grows threadId title objectives :
  preserves only_grows (updateThread env threadId title objectives).
Proof.
  unfold updateThread, to_thread, read_user_objectives, JSON_parse. grows.
Qed.

Lemma createMessage_grows threadId orderIndex chunkIndex role content embedding :
  preserves only_grows
    (createMessage env threadId orderIndex chunkIndex role content embedding).
Proof. unfold createMessage. grows. Qed.

Lemma getNextOrderIndex_grows threadId : preserves only_grows (getNextOrderIndex env threadId).
Proof. unfold getNextOrderIndex. grows. Qed.

Lemma findSimilarMessages_grows threadId query similarity matchCount :
  preserves only_grows (findSimilarMessages env threadId query similarity matchCount).
Proof.
  unfold findSimilarMessages.
  apply preserves_try_catch; [| intros e; apply preserves_handleAppError].
  apply preserves_bind; [apply generateEmbeddings_grows | intros q].
  apply preserves_bind; [apply rpc_match_embeddings_grows | intros r].
  grows.
Qed.

Lemma generateEmbeddingChunks_grows text :
  preserves only_grows (generateEmbeddingChunks env text).
Proof.
  unfold generateEmbeddingChunks, splitTextIntoChunks.
  apply preserves_try_catch; [| intros e; apply preserves_handleAppError].
  apply preserves_bind; [grows | intros snippets].
  apply preserves_bind; [| intros ps; apply preserves_Promise_all].
  apply preserves_start_each. intros snippet.
  apply preserves_bind; [apply generateEmbeddings_grows | intros e; apply preserves_ret].
Qed.

Lemma consume_stream_grows chunks fullContent toolCalls :
  preserves only_grows (consume_stream chunks fullContent toolCalls).
Proof.
  revert fullContent toolCalls. induction chunks as [| d chunks IH]; intros; simpl.
  - apply preserves_ret.
  - apply preserves_bind; [| intros ?; apply IH].
    destruct (Js.is_empty _); [apply preserves_ret | apply grows_emit].
Qed.

Lemma processAIResponse_grows content toolCalls structuredData :
  preserves only_grows (processAIResponse content toolCalls structuredData).
Proof.
  unfold processAIResponse, extractEntityChanges, parse_block, console. grows.
Qed.

Lemma executeAICall_grows config : preserves only_grows (executeAICall env config).
Proof.
  unfold executeAICall, executeStreamingAICall, executeDefaultAICall, console.
  grows; first [apply consume_stream_grows | apply processAIResponse_grows].
Qed.

Lemma processToolCallWithEntities_grows toolCall tools history :
  preserves only_grows (processToolCallWithEntities toolCall tools history).
Proof.
  unfold processToolCallWithEntities, handleToolCall, getTool, parseToolArguments,
    validateArgs, execute, extractEntitiesFromToolResponse, console.
  grows.
Qed.

Lemma tool_loop_grows fuel config tools st :
  preserves only_grows (tool_loop env fuel config tools st).
Proof.
  revert st. induction fuel as [| fuel IH]; intros st; simpl.
  - destruct (ar_toolCalls (ls_aiResult st)) as [[| tc tcs] |];
      first [apply preserves_ret | apply preserves_out_of_fuel].
  - destruct (ar_toolCalls (ls_aiResult st)) as [[| tc tcs] |];
      try apply preserves_ret.
    apply preserves_bind; [| intros st'; apply IH].
    unfold tool_round.
    apply preserves_try_catch; [| intros e; apply preserves_handleAppError].
    apply preserves_bind.
    { apply preserves_start_each. intros toolCall.
      apply processToolCallWithEntities_grows. }
    intros ps. apply preserves_bind; [apply preserves_Promise_all | intros results].
    apply preserves_bind; [apply executeAICall_grows | intros r; apply preserves_ret].
Qed.

Lemma processToolCalls_grows fuel config tools thread :
  preserves only_grows (processToolCalls env fuel config tools thread).
Proof.
  unfold processToolCalls.
  apply preserves_try_catch; [| intros e; apply preserves_handleAppError].
  apply preserves_bind; [apply executeAICall_grows | intros r].
  apply preserves_bind; [apply tool_loop_grows | intros st].
  apply preserves_bind; [| intros u; apply preserves_ret].
  destruct (ar_userObjectives (ls_aiResult st)); [apply preserves_ret |].
  apply preserves_try_catch; [| intros e; apply grows_emit].
  apply preserves_bind; [apply updateThread_grows | intros t; apply preserves_ret].
Qed.

Variable config : AssistantConfig.

Lemma getThread_grows request : preserves only_grows (getThread env config request).
Proof.
  unfold getThread.
  apply preserves_try_catch; [| intros e; apply preserves_handleAppError].
  apply preserves_bind.
  - destruct (meta_threadId request) as [t |]; [| apply preserves_ret].
    destruct (Js.is_empty t); [apply preserves_ret | apply readThread_grows].
  - intros [t |]; [apply preserves_ret | apply createThread_grows].
Qed.

Lemma prepareProcess_grows request thread :
  preserves only_grows (prepareProcess env config request thread).
Proof.
  unfold prepareProcess.
  apply preserves_try_catch; [| intros e; apply preserves_handleAppError].
  apply preserves_bind; [unfold system_content; grows | intros s].
  apply preserves_bind; [| intros h; apply preserves_ret].
  destruct (Js.is_empty (rq_message request)); [apply preserves_ret |].
  apply preserves_bind; [apply findSimilarMessages_grows | intros l; apply preserves_ret].
Qed.

Lemma processRequest_grows fuel aiConfig thread :
  preserves only_grows (processRequest env config fuel aiConfig thread).
Proof.
  unfold processRequest.
  apply preserves_try_catch; [| intros e; apply preserves_handleAppError].
  destruct (cf_tools config) as [[| t ts] |]; try apply processToolCalls_grows.
  all: apply preserves_bind; [apply executeAICall_grows | intros r];
    apply preserves_bind; [apply preserves_start, generateEmbeddings_grows | intros pe];
    (apply preserves_bind;
     [apply preserves_start;
      destruct (ar_userObjectives r); [apply preserves_ret |];
      apply preserves_bind; [apply updateThread_grows | intros ?; apply preserves_ret]
     | intros pu]);
    apply preserves_bind; [apply preserves_start, getNextOrderIndex_grows | intros po];
    apply preserves_bind; [apply preserves_await | intros e];
    apply preserves_bind; [apply preserves_await | intros k];
    apply preserves_bind; [apply createMessage_grows | intros me];
    apply preserves_bind; [apply preserves_await | intros u];
    apply preserves_ret.
Qed.

Lemma updateMessages_grows text threadId role orderIndex :
  preserves only_grows (updateMessages env text threadId role orderIndex).
Proof.
  unfold updateMessages.
  apply preserves_try_catch; [| intros e; apply preserves_handleAppError].
  apply preserves_bind; [apply generateEmbeddingChunks_grows | intros chunks].
  apply preserves_bind.
  { apply preserves_start_each_indexed. intros chunk i. apply createMessage_grows. }
  intros ps. apply preserves_bind; [apply preserves_Promise_all | intros l].
  apply preserves_ret.
Qed.

Lemma postProcess_grows request thread response :
  preserves only_grows (postProcess env request thread response).
Proof.
  unfold postProcess.
  apply preserves_try_catch; [| intros e; apply preserves_handleAppError].
  apply preserves_bind; [apply getNextOrderIndex_grows | intros k].
  apply preserves_bind; [apply preserves_start, updateMessages_grows | intros pu].
  apply preserves_bind; [apply preserves_start, updateMessages_grows | intros pa].
  apply preserves_bind; [apply preserves_Promise_all | intros l].
  apply preserves_ret.
Qed.

Lemma thread_grows fuel request : preserves only_grows (thread env config fuel request).
Proof.
  unfold thread.
  apply preserves_try_catch; [| intros e; apply preserves_handleAppError].
  apply preserves_bind; [unfold validateRequest; grows | intros v].
  apply preserves_bind; [apply getThread_grows | intros t].
  apply preserves_bind; [apply prepareProcess_grows | intros c].
  apply preserves_bind; [apply processRequest_grows | intros r].
  apply preserves_bind; [apply postProcess_grows | intros u].
  apply preserves_ret.
Qed.
End Grows.

(** X24.  Whatever [Assistant.thread] does and however it ends (with a
    response, with an error, or cut off in the middle of the tool loop), it
    has taken nothing away from the store: every fragment that was there is
    still there, unchanged and in its place, followed by the fragments of
    the turn; and every thread that was there still is. *)
Theorem thread_only_adds_to_the_store :
  forall env config fuel request w,
    (exists added,
        messages (snd (thread env config fuel request w)) = messages w ++ added)
    /\ (exists added,
           map tr_id (threads (snd (thread env config fuel request w)))
           = map tr_id (threads w) ++ added).
Proof.
  intros env config fuel request w. exact (thread_grows env config fuel request w).
Qed.

(* ================================================================== *)
(** * The weather route                                                *)
(* ================================================================== *)

Lemma thread_throws_AppError env config fuel request w e w1 :
  thread env config fuel request w = (Throw e, w1) -> exists a, e = AppErr a.
Proof.
  unfold thread, try_catch.
  destruct (bind _ _ w) as [[r | e0 |] w0]; intros H; try discriminate.
  destruct (@handleAppError_throws AssistantResponse e0
              (mkDetails "Assistant Thread Error" INTERNAL_ERROR) w0) as (a & Ha).
  rewrite Ha in H. injection H as <- _. now exists a.
Qed.

Lemma weather_thread_throws_AppError env schema fuel requestBody w e w1 :
  WeatherRoute.weather_thread env schema fuel requestBody w = (Throw e, w1) ->
  exists a, e = AppErr a.
Proof.
  unfold WeatherRoute.weather_thread.
  destruct (WeatherRoute.weather_request requestBody) as [request |].
  - apply thread_throws_AppError.
  - intros H. injection H as <- _. eexists. reflexivity.
Qed.

(** X25.  The handler of the weather route never throws: every request is
    answered.  When the body could be read and is not [null], a failure is
    always the [AppError] with which the assistant failed, reported with its
    message, its code and the status of that code; the answer
    [500 "Failed to process message"] of the handler's last branch is then
    never given. *)
Theorem weather_route_always_answers :
  forall env schema fuel body w,
    (forall e, fst (WeatherRoute.post env schema fuel body w) <> Throw e)
    /\ (forall requestBody status error code w1,
           body = inr requestBody ->
           requestBody <> JNull ->
           WeatherRoute.post env schema fuel body w
           = (Ret (WeatherRoute.JsonError status error code), w1) ->
           status = getStatusCodeForError code
           /\ fst (WeatherRoute.weather_thread env schema fuel requestBody w)
              = Throw (AppErr (mkAppError error code))).
Proof.
  intros env schema fuel body w. split.
  - intros e. unfold WeatherRoute.post, try_catch.
    destruct (bind _ _ w) as [[r | e0 |] w0]; cbn; try discriminate.
    unfold bind, console, emit. destruct e0; discriminate.
  - intros requestBody status error code w1 -> Hnull H.
    unfold WeatherRoute.post, try_catch in H. rewrite bind_ret_l in H.
    assert (Hbody :
              match requestBody with
              | JNull =>
                  throw (JsError "Cannot destructure property 'message' of 'requestBody' as it is null.")
              | _ =>
                  response <- WeatherRoute.weather_thread env schema fuel requestBody ;;
                  ret (WeatherRoute.Json200 response)
              end w
              = bind (WeatherRoute.weather_thread env schema fuel requestBody)
                     (fun response => ret (WeatherRoute.Json200 response)) w).
    { destruct requestBody; try reflexivity. congruence. }
    rewrite Hbody in H. unfold bind at 1 in H.
    destruct (WeatherRoute.weather_thread env schema fuel requestBody w)
      as [[r | e0 |] w0] eqn:T; try discriminate.
    destruct (weather_thread_throws_AppError _ _ _ _ _ _ _ T) as (a & ->).
    unfold bind, console, emit in H. cbn in H. injection H as <- <- <- _.
    split; [reflexivity |]. now destruct a.
Qed.

Lemma weather_route_always_answers_witness :
  let env := Fixtures.stub_env Fixtures.no_faults (Fixtures.says "Hello") in
  let requestBody := JObj [("message", JStr "Hello"); ("userId", JStr "u1");
                           ("threadId", JStr Fixtures.absent_id)] in
  exists status error code w1,
    WeatherRoute.post env JNull 3 (inr requestBody) Fixtures.empty_world
    = (Ret (WeatherRoute.JsonError status error code), w1)
    /\ status = 401
    /\ code = UNAUTHORIZED.
Proof.
  cbv zeta.
  destruct (WeatherRoute.post
              (Fixtures.stub_env Fixtures.no_faults (Fixtures.says "Hello")) JNull 3
              (inr (JObj [("message", JStr "Hello"); ("userId", JStr "u1");
                          ("threadId", JStr Fixtures.absent_id)]))
              Fixtures.empty_world) as [o w1] eqn:Hpost.
  assert (E : o = Ret (WeatherRoute.JsonError 401 "Get Thread Error: [object Object]"
                         UNAUTHORIZED)).
  { vm_compute in Hpost. injection Hpost as <- _. reflexivity. }
  subst o. do 3 eexists. exists w1. split; [reflexivity |].
  destruct (weather_route_always_answers
              (Fixtures.stub_env Fixtures.no_faults (Fixtures.says "Hello")) JNull 3
              (inr (JObj [("message", JStr "Hello"); ("userId", JStr "u1");
                          ("threadId", JStr Fixtures.absent_id)]))
              Fixtures.empty_world) as (_ & H).
  destruct (H _ _ _ _ _ eq_refl ltac:(discriminate) Hpost) as (Hstatus & _).
  split; [exact Hstatus | reflexivity].
Defined.

Lemma weather_thread_invalid env schema fuel requestBody w :
  nonempty_text (WeatherRoute.field "message" requestBody) = false
  \/ nonempty_text (WeatherRoute.field "userId" requestBody) = false ->
  WeatherRoute.weather_thread env schema fuel requestBody w
  = (Throw (AppErr (mkAppError "Invalid Assistant Request: " VALIDATION_ERROR)), w).
Proof.
  intros Hwhy. unfold WeatherRoute.weather_thread.
  destruct (WeatherRoute.weather_request requestBody) as [request |] eqn:R;
    [| reflexivity].
  apply thread_invalid.
  unfold WeatherRoute.weather_request in R.
  destruct (WeatherRoute.field "message" requestBody) as [[| | | message | |] |];
    try discriminate.
  destruct (WeatherRoute.field "userId" requestBody) as [[| | | userId | |] |];
    try discriminate.
  assert (Hempty : message = EmptyString \/ userId = EmptyString).
  { destruct Hwhy as [H | H]; [left; destruct message | right; destruct userId];
      (reflexivity || discriminate). }
  unfold assistantRequestSchema.
  destruct (WeatherRoute.field "threadId" requestBody) as [[| | | threadId | |] |];
    try discriminate; injection R as <-; cbn [rq_message meta_userId];
    destruct Hempty as [-> | ->]; cbn; try reflexivity;
    now rewrite andb_false_r.
Qed.

(** X26.  A body without a [message] or without a [userId], or with one
    that is empty or not a string, is answered with the status 400 and the
    code [VALIDATION_ERROR].  Apart from the line that the handler logs,
    nothing has happened: no thread is read or created, no embedding or
    model is asked. *)
Theorem weather_route_refuses_incomplete_body :
  forall env schema fuel requestBody w,
    requestBody <> JNull ->
    nonempty_text (WeatherRoute.field "message" requestBody) = false
    \/ nonempty_text (WeatherRoute.field "userId" requestBody) = false ->
    WeatherRoute.post env schema fuel (inr requestBody) w
    = (Ret (WeatherRoute.JsonError 400 "Invalid Assistant Request: " VALIDATION_ERROR),
       logged (EvConsole LogError "Route Error: ") w).
Proof.
  intros env schema fuel requestBody w Hnull Hwhy.
  pose proof (weather_thread_invalid env schema fuel requestBody w Hwhy) as Hthread.
  unfold WeatherRoute.post.
  match goal with
  | |- try_catch ?m _ w = _ =>
      assert (Hbody : m w
                      = (Throw (AppErr (mkAppError "Invalid Assistant Request: "
                                                   VALIDATION_ERROR)), w))
  end.
  { rewrite bind_ret_l. destruct requestBody; try congruence;
      apply bind_Throw; exact Hthread. }
  rewrite (try_catch_Throw _ _ _ _ _ Hbody). reflexivity.
Qed.

Lemma weather_route_refuses_incomplete_body_witness :
  let env := Fixtures.stub_env Fixtures.no_faults (Fixtures.says "Hello") in
  WeatherRoute.post env JNull 3 (inr (JObj [("message", JNum 42 0); ("userId", JStr "u1")]))
    Fixtures.empty_world
  = (Ret (WeatherRoute.JsonError 400 "Invalid Assistant Request: " VALIDATION_ERROR),
     logged (EvConsole LogError "Route Error: ") Fixtures.empty_world).
Proof.
  cbv zeta. apply weather_route_refuses_incomplete_body.
  - discriminate.
  - left. reflexivity.
Defined.

Lemma thread_of_absent_thread env config fuel request threadId w :
  assistantRequestSchema (cf_contextSchema config) request = true ->
  meta_threadId request = Some threadId ->
  threadId <> EmptyString ->
  store_error env (trace w) (SelectThread threadId) = None ->
  Store.find_thread threadId (threads w) = None ->
  is_PGRST116 (single_no_rows env) = true ->
  thread env config fuel request w
  = (Throw (AppErr (mkAppError "Get Thread Error: [object Object]" UNAUTHORIZED)),
     logged (EvStore (SelectThread threadId)) w).
Proof.
  intros Hvalid Hid Hnonempty Hok Hfind Hcode.
  assert (Hv : validateRequest config request w = (Ret request, w)).
  { unfold validateRequest. rewrite Hvalid. reflexivity. }
  assert (Hread : readThread env threadId w
                  = (Throw (AppErr (mkAppError "Get Thread Error: [object Object]"
                                               UNAUTHORIZED)),
                     logged (EvStore (SelectThread threadId)) w)).
  { unfold readThread, Store.select_thread, Store.request, try_catch, bind, logged.
    rewrite Hok, Hfind. cbn. rewrite Hcode. reflexivity. }
  assert (Hget : getThread env config request w
                 = (Throw (AppErr (mkAppError "Get Thread Error: [object Object]"
                                              UNAUTHORIZED)),
                    logged (EvStore (SelectThread threadId)) w)).
  { unfold getThread. rewrite Hid.
    destruct threadId as [| c s]; [congruence |]. cbn [Js.is_empty].
    rewrite (try_catch_Throw _ _ _ _ _ (bind_Throw _ _ _ _ _ Hread)). reflexivity. }
  unfold thread.
  match goal with
  | |- try_catch ?m _ w = _ =>
      assert (Hbody : m w
                      = (Throw (AppErr (mkAppError "Get Thread Error: [object Object]"
                                                   UNAUTHORIZED)),
                         logged (EvStore (SelectThread threadId)) w))
  end.
  { rewrite (bind_Ret _ _ _ _ _ Hv). apply bind_Throw. exact Hget. }
  rewrite (try_catch_Throw _ _ _ _ _ Hbody). reflexivity.
Qed.

(** X27.  A body that names a thread which does not exist is answered with
    the status 401 and the code UNAUTHORIZED, not with a new thread and not
    with 404: the client reports the missing row with PGRST116, which
    [readThread] takes for a refusal.  The one read of the row is all that
    has happened. *)
Theorem weather_route_unknown_thread_is_unauthorized :
  forall env schema fuel requestBody request threadId w,
    requestBody <> JNull ->
    WeatherRoute.weather_request requestBody = Some request ->
    assistantRequestSchema WeatherRoute.weatherContextSchema request = true ->
    meta_threadId request = Some threadId ->
    threadId <> EmptyString ->
    store_error env (trace w) (SelectThread threadId) = None ->
    Store.find_thread threadId (threads w) = None ->
    is_PGRST116 (single_no_rows env) = true ->
    WeatherRoute.post env schema fuel (inr requestBody) w
    = (Ret (WeatherRoute.JsonError 401 "Get Thread Error: [object Object]" UNAUTHORIZED),
       logged (EvConsole LogError "Route Error: ")
         (logged (EvStore (SelectThread threadId)) w)).
Proof.
  intros env schema fuel requestBody request threadId w
         Hnull Hrequest Hvalid Hid Hnonempty Hok Hfind Hcode.
  assert (Hthread : WeatherRoute.weather_thread env schema fuel requestBody w
                    = (Throw (AppErr (mkAppError "Get Thread Error: [object Object]"
                                                 UNAUTHORIZED)),
                       logged (EvStore (SelectThread threadId)) w)).
  { unfold WeatherRoute.weather_thread. rewrite Hrequest.
    now apply thread_of_absent_thread. }
  unfold WeatherRoute.post.
  match goal with
  | |- try_catch ?m _ w = _ =>
      assert (Hbody : m w
                      = (Throw (AppErr (mkAppError "Get Thread Error: [object Object]"
                                                   UNAUTHORIZED)),
                         logged (EvStore (SelectThread threadId)) w))
  end.
  { rewrite bind_ret_l. destruct requestBody; try congruence;
      apply bind_Throw; exact Hthread. }
  rewrite (try_catch_Throw _ _ _ _ _ Hbody). reflexivity.
Qed.

Lemma weather_route_unknown_thread_is_unauthorized_witness :
  let env := Fixtures.stub_env Fixtures.no_faults (Fixtures.says "Hello") in
  let requestBody := JObj [("message", JStr "Hello"); ("userId", JStr "u1");
                           ("threadId", JStr Fixtures.absent_id)] in
  WeatherRoute.post env JNull 3 (inr requestBody) Fixtures.three_fragments
  = (Ret (WeatherRoute.JsonError 401 "Get Thread Error: [object Object]" UNAUTHORIZED),
     logged (EvConsole LogError "Route Error: ")
       (logged (EvStore (SelectThread Fixtures.absent_id)) Fixtures.three_fragments)).
Proof.
  cbv zeta.
  apply (weather_route_unknown_thread_is_unauthorized
           (Fixtures.stub_env Fixtures.no_faults (Fixtures.says "Hello")) JNull 3
           (JObj [("message", JStr "Hello"); ("userId", JStr "u1");
                  ("threadId", JStr Fixtures.absent_id)])
           (mkAssistantRequest "Hello" "u1" (Some Fixtures.absent_id)
              (Some (JObj [("location", JStr "Berlin"); ("units", JStr "metric")])) None)
           Fixtures.absent_id Fixtures.three_fragments);
    solve [reflexivity | discriminate].
Defined.

(* ================================================================== *)
(** * Tool calls that reach, or do not reach, the tool                 *)
(* ================================================================== *)



(* ================================================================== *)
(** * The length of the tool loop                                      *)
(* ================================================================== *)

Lemma handleToolCall_returns toolCall tools messages w :
  exists response w1, handleToolCall toolCall tools messages w = (Ret response, w1).
Proof.
  unfold handleToolCall, getTool, parseToolArguments, validateArgs, execute,
    call_service, try_catch, bind, ret, throwAppError, throw.
  destruct (find _ tools) as [tool |]; cbn; [| eauto].
  destruct (JSON.parse (tc_arguments toolCall)) as [args |]; cbn; [| eauto].
  destruct (argsSchema tool args) as [validated |]; cbn; [| eauto].
  destruct (callFunction tool (trace w) validated) as [e | result]; cbn; [| eauto].
  destruct e; cbn; eauto.
Qed.

Lemma processToolCallWithEntities_returns toolCall tools history w :
  exists result w1,
    processToolCallWithEntities toolCall tools history w = (Ret result, w1)
    /\ same_events is_chat w w1.
Proof.
  destruct (handleToolCall_returns toolCall tools history w) as (response & wa & Hh).
  destruct (extractEntitiesFromToolResponse_returns response wa) as (changes & wb & He).
  exists (response, changes), wb. split.
  - unfold processToolCallWithEntities. apply try_catch_Ret.
    rewrite (bind_Ret _ _ _ _ _ Hh), (bind_Ret _ _ _ _ _ He). reflexivity.
  - pose proof (handleToolCall_invokes_no_model toolCall tools history w) as C1.
    rewrite Hh in C1.
    pose proof (extractEntitiesFromToolResponse_quiet is_chat (fun _ _ => eq_refl)
                  response wa) as C2.
    rewrite He in C2. unfold same_events in *. cbn [snd] in *. congruence.
Qed.

Lemma tool_promises toolCalls tools history w :
  exists results w1,
    start_each (fun toolCall => processToolCallWithEntities toolCall tools history)
      toolCalls w
    = (Ret (map Fulfilled results), w1)
    /\ same_events is_chat w w1.
Proof.
  revert w. induction toolCalls as [| tc tcs IH]; intros w.
  - exists [], w. split; reflexivity.
  - rewrite start_each_cons.
    destruct (processToolCallWithEntities_returns tc tools history w)
      as (result & wa & Hr & Ca).
    unfold start at 1. rewrite Hr.
    destruct (IH wa) as (results & w1 & Hrs & C1). rewrite Hrs.
    exists (result :: results), w1. split; [reflexivity |].
    unfold same_events in *. congruence.
Qed.

Lemma all_settled_fulfilled {A} (l : list A) : all_settled (map Fulfilled l) = Fulfilled l.
Proof. induction l as [| x l IH]; cbn; [reflexivity | now rewrite IH]. Qed.

Section Unbounded.
Variable env : Env.
Hypothesis always_asks :
  forall tr rq, exists content toolCall toolCalls,
    chat_create env tr rq = inr (mkCompletion content (Some (toolCall :: toolCalls))).

Lemma executeAICall_asks config w :
  onToken config = false ->
  exists r w1,
    executeAICall env config w = (Ret r, w1) /\ requests_tools r = true.
Proof.
  intros Hplain.
  unfold executeAICall, try_catch. rewrite Hplain.
  unfold executeDefaultAICall, bind, call_service.
  match goal with
  | |- context [chat_create env (trace w) ?rq] =>
      destruct (always_asks (trace w) rq) as (content & tc & tcs & ->)
  end.
  cbn [cm_content cm_tool_calls].
  destruct (responseFormat config) as [f |]; [| eexists; eexists; split; reflexivity].
  destruct (Js.is_empty _); [eexists; eexists; split; reflexivity |].
  destruct (JSON.parse _) as [v |]; [| eexists; eexists; split; reflexivity].
  destruct (rf_schema f v); eexists; eexists; split; reflexivity.
Qed.

Lemma tool_round_asks config tools toolCalls st w :
  onToken config = false ->
  exists st' w1,
    tool_round env config tools toolCalls st w = (Ret st', w1)
    /\ requests_tools (ls_aiResult st') = true
    /\ model_invocations (trace w1) = S (model_invocations (trace w)).
Proof.
  intros Hplain.
  destruct (tool_promises toolCalls tools (ls_messages st) w) as (results & wa & Hps & Ca).
  destruct (executeAICall_asks
              (with_messages config (ls_messages st ++ map fst results)) wa Hplain)
    as (r & wb & Hr & Hasks).
  eexists. exists wb. split; [| split].
  - unfold tool_round. apply try_catch_Ret.
    rewrite (bind_Ret _ _ _ _ _ Hps).
    unfold Promise_all. rewrite all_settled_fulfilled.
    unfold bind at 1. unfold await. cbn beta iota.
    rewrite (bind_Ret _ _ _ _ _ Hr). reflexivity.
  - exact Hasks.
  - pose proof (executeAICall_invokes_once env
                  (with_messages config (ls_messages st ++ map fst results)) wa) as C.
    rewrite Hr in C. cbn [snd] in C. rewrite C.
    unfold model_invocations, same_events in *. now rewrite Ca.
Qed.

Lemma tool_loop_runs_out fuel config tools st w :
  onToken config = false ->
  requests_tools (ls_aiResult st) = true ->
  fst (tool_loop env fuel config tools st w) = OutOfFuel
  /\ model_invocations (trace (snd (tool_loop env fuel config tools st w)))
     = model_invocations (trace w) + fuel.
Proof.
  intros Hplain. revert st w. induction fuel as [| fuel IH]; intros st w Hasks.
  - unfold requests_tools in Hasks. cbn [tool_loop].
    destruct (ar_toolCalls (ls_aiResult st)) as [[| tc tcs] |]; try discriminate.
    split; [reflexivity | cbn; lia].
  - pose proof Hasks as Hasks'. unfold requests_tools in Hasks'. cbn [tool_loop].
    destruct (ar_toolCalls (ls_aiResult st)) as [[| tc tcs] |]; try discriminate.
    destruct (tool_round_asks config tools (tc :: tcs) st w Hplain)
      as (st' & w1 & Hround & Hnext & Hcount).
    rewrite (bind_Ret _ _ _ _ _ Hround).
    destruct (IH st' w1 Hnext) as (Hout & Hn).
    split; [exact Hout |]. rewrite Hn, Hcount. lia.
Qed.
End Unbounded.

(** X29.  The loop of [processToolCalls] has no limit of its own.  With a
    model that answers every invocation with a request for tools, the loop
    is still running after any number of rounds: whatever bound is put on
    the rounds, the bound is used up, and the model has then been invoked
    once more than there were rounds. *)
Theorem processToolCalls_has_no_round_limit :
  forall env config tools thread,
    onToken config = false ->
    (forall tr rq, exists content toolCall toolCalls,
        chat_create env tr rq
        = inr (mkCompletion content (Some (toolCall :: toolCalls)))) ->
    forall fuel w,
      fst (processToolCalls env fuel config tools thread w) = OutOfFuel
      /\ model_invocations
           (trace (snd (processToolCalls env fuel config tools thread w)))
         = model_invocations (trace w) + S fuel.
Proof.
  intros env config tools thread Hplain Hasks fuel w.
  destruct (executeAICall_asks env Hasks config w Hplain) as (r & w1 & Hr & Hfirst).
  pose proof (executeAICall_invokes_once env config w) as C.
  rewrite Hr in C. cbn [snd] in C.
  destruct (tool_loop_runs_out env Hasks fuel config tools
              (mkLoopState r (cfg_messages config ++ [assistant_message r])
                 (mkEntityChanges [] [] [])) w1 Hplain Hfirst) as (Hout & Hn).
  destruct (tool_loop env fuel config tools
              (mkLoopState r (cfg_messages config ++ [assistant_message r])
                 (mkEntityChanges [] [] [])) w1) as [[st | e |] w2] eqn:Hloop;
    cbn [fst snd] in Hout, Hn; try discriminate.
  assert (Hp : processToolCalls env fuel config tools thread w = (OutOfFuel, w2)).
  { unfold processToolCalls, try_catch.
    rewrite (bind_Ret _ _ _ _ _ Hr). unfold bind at 1. rewrite Hloop. reflexivity. }
  rewrite Hp. cbn [fst snd]. split; [reflexivity |]. rewrite Hn, C. lia.
Qed.

Lemma processToolCalls_has_no_round_limit_witness :
  let env := Fixtures.stub_env Fixtures.no_faults
               (fun _ => mkCompletion None (Some [Fixtures.weather_call])) in
  fst (processToolCalls env 5 Fixtures.weather_ai_config [Fixtures.get_weather]
         Fixtures.thread_t1 Fixtures.empty_world) = OutOfFuel
  /\ model_invocations
       (trace (snd (processToolCalls env 5 Fixtures.weather_ai_config
                      [Fixtures.get_weather] Fixtures.thread_t1 Fixtures.empty_world)))
     = 6.
Proof.
  cbv zeta.
  apply (processToolCalls_has_no_round_limit
           (Fixtures.stub_env Fixtures.no_faults
              (fun _ => mkCompletion None (Some [Fixtures.weather_call])))
           Fixtures.weather_ai_config [Fixtures.get_weather] Fixtures.thread_t1
           eq_refl).
  intros tr rq. exists None, Fixtures.weather_call, []. reflexivity.
Defined.

(* ================================================================== *)
(** * Whose thread it is                                               *)
(* ================================================================== *)

Lemma to_thread_readable row objectives w :
  (forall w0, read_user_objectives (tr_user_objectives row) w0 = (Ret objectives, w0)) ->
  to_thread row w
  = (Ret (mkThread (tr_id row) (tr_user_id row) (tr_title row) objectives
            (tr_created_at row) (tr_updated_at row)), w).
Proof. intros Hobj. unfold to_thread. rewrite (bind_Ret _ _ _ _ _ (Hobj w)). reflexivity. Qed.

(** X30.  [getThread] hands out the thread that the request names without
    looking at who asks: the user identifier of the request is not compared
    with the owner of the row (the store is reached with the service role,
    which no row-level policy restrains).  The thread that comes back is
    the stored one, with the owner that the row has. *)
Theorem getThread_does_not_check_the_owner :
  forall env config request threadId w row objectives,
    meta_threadId request = Some threadId ->
    threadId <> EmptyString ->
    store_error env (trace w) (SelectThread threadId) = None ->
    Store.find_thread threadId (threads w) = Some row ->
    (forall w0, read_user_objectives (tr_user_objectives row) w0 = (Ret objectives, w0)) ->
    getThread env config request w
    = (Ret (mkThread threadId (tr_user_id row) (tr_title row) objectives
              (tr_created_at row) (tr_updated_at row)),
       logged (EvStore (SelectThread threadId)) w).
Proof.
  intros env config request threadId w row objectives Hid Hnonempty Hok Hfind Hobj.
  assert (Hread : readThread env threadId w
                  = (Ret (Some (mkThread threadId (tr_user_id row) (tr_title row)
                                  objectives (tr_created_at row) (tr_updated_at row))),
                     logged (EvStore (SelectThread threadId)) w)).
  { unfold readThread. apply try_catch_Ret.
    rewrite (bind_Ret _ _ _ _ _ (select_thread_found env _ _ _ Hfind Hok)).
    cbn [error data is_PGRST116]. rewrite bind_ret_l.
    rewrite (bind_Ret _ _ _ _ _ (to_thread_readable row objectives _ Hobj)).
    rewrite (find_thread_id _ _ _ Hfind). reflexivity. }
  unfold getThread. rewrite Hid.
  destruct threadId as [| c s]; [congruence |]. cbn [Js.is_empty].
  apply try_catch_Ret. rewrite (bind_Ret _ _ _ _ _ Hread). reflexivity.
Qed.

Lemma getThread_does_not_check_the_owner_witness :
  let env := Fixtures.stub_env Fixtures.no_faults (Fixtures.says "Hello") in
  let request := mkAssistantRequest "What did we talk about?" "someone-else" (Some "t1")
                   None None in
  fst (getThread env Fixtures.plain_config request Fixtures.three_fragments)
  = Ret (mkThread "t1" (Some "u1") (Some "Test Assistant") (JArr [])
           (Some "2025-01-01T00:00:00Z") (Some "2025-01-01T00:00:00Z")).
Proof.
  cbv zeta.
  rewrite (getThread_does_not_check_the_owner
             (Fixtures.stub_env Fixtures.no_faults (Fixtures.says "Hello"))
             Fixtures.plain_config
             (mkAssistantRequest "What did we talk about?" "someone-else" (Some "t1")
                None None)
             "t1" Fixtures.three_fragments (Fixtures.thread_row "t1" (JStr "[]"))
             (JArr []) eq_refl ltac:(discriminate) eq_refl eq_refl (fun w0 => eq_refl)).
  reflexivity.
Defined.
